(** * Contact address book: a shallow embedding of [contact_manager.py]

    The development follows the source file:

    - [PyStr]: the string operations of the Python runtime the program
      calls ([str.lower], [str.strip], [in], [int]);
    - [Regex]: a matcher for the three patterns given to [re.match];
    - [Json]: the values and the text format of the [json] module, as
      [json.dump(..., indent=4)] writes it and [json.load] reads it from
      the bytes of a file;
    - the [Contact] objects, the state of a run and the methods of
      [ContactManager], written in a state-and-exception monad over the
      console, the contacts file and the heap of objects;
    - [display_contacts] and the menu loop [main];
    - the properties: the validators, search, selection, add, modify,
      delete, load and save, the well-formedness of the store, and what
      a session of the menu keeps.

    Modelling conventions.  A Python [str] is a [string] whose characters
    are the code points below 256 (the Latin-1 range); on that range
    [str.lower], [str.isspace] and the classes [\s] and [\w] are the
    tables written out below.  The four fields of a [Contact] are [str]s.
    Standard input is the list of lines still to be read; [input] on the
    empty list raises [EOFError].  Standard output is the list of events
    printed so far.  The contacts file is its content, if it exists: the
    bytes [json.load] decodes as UTF-8, which for what [json.dump] writes
    are the characters of the text; other failures of the file system are
    not modelled.  Every [Contact] lives in a heap of objects and the
    manager's list holds references, since [list.index] and [list.remove]
    compare [Contact]s by identity.  Two limits of the interpreter are not
    reached in the model but kept away from: the nesting of a JSON text
    ([Json.nesting_margin]) and the nested calls of [get_new_value]
    ([recursion_margin]). *)

From Stdlib Require Import Ascii String NArith ZArith Bool Lia Sorted.
From stdpp Require Import base option list gmap strings pretty.

Set Warnings "-register-all".

Open Scope string_scope.
Open Scope list_scope.

(* ===================================================================== *)
(** ** Strings of the Python runtime *)
(* ===================================================================== *)

Module PyStr.

Definition code (c : ascii) : N := N_of_ascii c.

Definition in_range (lo hi : N) (c : ascii) : bool :=
  (lo <=? code c)%N && (code c <=? hi)%N.

(** [A-Z] and [a-z] of a pattern, [0-9] of a pattern. *)
Definition is_upper_az (c : ascii) : bool := in_range 65 90 c.
Definition is_lower_az (c : ascii) : bool := in_range 97 122 c.
Definition is_letter_az (c : ascii) : bool := is_upper_az c || is_lower_az c.
Definition is_digit_09 (c : ascii) : bool := in_range 48 57 c.

(** [str.isspace] of one character, which is also the class [\s] of a
    [str] pattern: TAB LF VT FF CR, FS GS RS US, SPACE, NEL, NBSP. *)
Definition isspace (c : ascii) : bool :=
  in_range 9 13 c || in_range 28 31 c || (code c =? 32)%N
  || (code c =? 133)%N || (code c =? 160)%N.

(** The alphanumeric characters above 127 ([str.isalnum]). *)
Definition is_latin1_alnum (c : ascii) : bool :=
  (code c =? 170)%N || (code c =? 178)%N || (code c =? 179)%N
  || (code c =? 181)%N || (code c =? 185)%N || (code c =? 186)%N
  || in_range 188 190 c || in_range 192 214 c || in_range 216 246 c
  || in_range 248 255 c.

(** The class [\w] of a [str] pattern. *)
Definition is_word (c : ascii) : bool :=
  is_digit_09 c || is_letter_az c || (code c =? 95)%N || is_latin1_alnum c.

(** [str.lower] of one character: the upper-case letters are [A-Z],
    U+00C0..U+00D6 and U+00D8..U+00DE, each 32 below its lower case. *)
Definition lower_char (c : ascii) : ascii :=
  if is_upper_az c || in_range 192 214 c || in_range 216 222 c
  then ascii_of_N (code c + 32) else c.

Fixpoint lower (s : string) : string :=
  match s with
  | EmptyString => EmptyString
  | String c s' => String (lower_char c) (lower s')
  end.

(** Removal of the leading and of the trailing characters of a class. *)
Fixpoint lstrip_by (p : ascii -> bool) (s : string) : string :=
  match s with
  | EmptyString => EmptyString
  | String c s' => if p c then lstrip_by p s' else s
  end.

Definition rstrip_by (p : ascii -> bool) (s : string) : string :=
  String.rev (lstrip_by p (String.rev s)).

Definition strip_by (p : ascii -> bool) (s : string) : string :=
  rstrip_by p (lstrip_by p s).

(** [s.strip()] *)
Definition strip (s : string) : string := strip_by isspace s.

(** [q in s] for two strings: [q] occurs in [s] as a substring. *)
Fixpoint contains (q s : string) : bool :=
  String.prefix q s ||
  match s with
  | EmptyString => false
  | String _ s' => contains q s'
  end.

(** [int(s)] in base ten; [None] stands for [ValueError].  The white
    space [int] removes around the number is TAB LF VT FF CR SPACE and,
    above 127, NEL and NBSP (the separators FS..US are not removed).
    The number is one optional sign and a run of digits in which single
    underscores may separate digits; CPython refuses a text of more
    than [max_str_digits] digits. *)
Definition is_int_space (c : ascii) : bool :=
  in_range 9 13 c || (code c =? 32)%N || (code c =? 133)%N
  || (code c =? 160)%N.

Definition max_str_digits : nat := 4300.

Definition digit_value (c : ascii) : Z := Z.of_N (code c) - 48.

Fixpoint int_digits (acc : Z) (seen : nat) (after_digit : bool)
    (s : string) : option Z :=
  match s with
  | EmptyString =>
      if after_digit && (seen <=? max_str_digits)%nat then Some acc
      else None
  | String c s' =>
      if is_digit_09 c
      then int_digits (10 * acc + digit_value c) (S seen) true s'
      else if (code c =? 95)%N && after_digit
           then int_digits acc seen false s'
           else None
  end.

Definition int_unsigned (s : string) : option Z := int_digits 0 0 false s.

Definition int (s : string) : option Z :=
  match strip_by is_int_space s with
  | EmptyString => None
  | String c s' =>
      if (code c =? 43)%N then int_unsigned s'
      else if (code c =? 45)%N then Z.opp <$> int_unsigned s'
      else int_unsigned (String c s')
  end.

End PyStr.

(* ===================================================================== *)
(** ** Regular expressions *)
(* ===================================================================== *)

Module Regex.

(** The patterns of the program use character classes, concatenation,
    [?], [*], [+] and the anchors [^] and [$]. *)
Inductive regex : Type :=
| Void : regex
| Eps : regex
| Class : (ascii -> bool) -> regex
| Cat : regex -> regex -> regex
| Alt : regex -> regex -> regex
| Star : regex -> regex.

Definition Chr (c : ascii) : regex := Class (Ascii.eqb c).
Definition Opt (r : regex) : regex := Alt Eps r.
Definition Plus (r : regex) : regex := Cat r (Star r).

(** [$] at the end of a pattern (no MULTILINE flag) matches at the end
    of the string and also just before a newline that ends the string:
    the rest of the subject is empty or one LF. *)
Definition Dollar : regex := Opt (Chr "010"%char).

Fixpoint nullable (r : regex) : bool :=
  match r with
  | Void => false
  | Eps => true
  | Class _ => false
  | Cat a b => nullable a && nullable b
  | Alt a b => nullable a || nullable b
  | Star _ => true
  end.

Fixpoint deriv (c : ascii) (r : regex) : regex :=
  match r with
  | Void => Void
  | Eps => Void
  | Class p => if p c then Eps else Void
  | Cat a b =>
      if nullable a then Alt (Cat (deriv c a) b) (deriv c b)
      else Cat (deriv c a) b
  | Alt a b => Alt (deriv c a) (deriv c b)
  | Star a => Cat (deriv c a) (Star a)
  end.

Fixpoint matches (r : regex) (s : list ascii) : bool :=
  match s with
  | [] => nullable r
  | c :: s' => matches (deriv c r) s'
  end.

(** [bool(re.match(p, s))] for a pattern [p] of the shape [^r$]: some
    prefix of [s] matches [r] and [$] holds right after it. *)
Definition re_match (r : regex) (s : string) : bool :=
  matches (Cat r Dollar) (list_ascii_of_string s).

(** The language of a pattern, the specification of [matches]. *)
Inductive lang : regex -> list ascii -> Prop :=
| lang_eps : lang Eps []
| lang_class p c : p c = true -> lang (Class p) [c]
| lang_cat a b s t : lang a s -> lang b t -> lang (Cat a b) (s ++ t)
| lang_alt_l a b s : lang a s -> lang (Alt a b) s
| lang_alt_r a b s : lang b s -> lang (Alt a b) s
| lang_star_nil a : lang (Star a) []
| lang_star_cons a s t :
    lang a s -> lang (Star a) t -> lang (Star a) (s ++ t).

End Regex.


(* ===================================================================== *)
(** ** Outcomes of a run *)
(* ===================================================================== *)

(** The exceptions the program can meet. *)
Inductive exn : Type :=
| EOFError | ValueError | TypeError | IndexError | JSONDecodeError
| UnicodeDecodeError.

(** A call returns a value, raises, or reaches what this embedding does
    not represent (a field that is not a [str], a character above U+00FF,
    a JSON text nested deeper than [Json.nesting_margin]): [OutOfModel],
    about which nothing is stated. *)
Inductive result (A : Type) : Type :=
| Ok (a : A)
| Raise (e : exn)
| OutOfModel.

Arguments Ok {A} a.
Arguments Raise {A} e.
Arguments OutOfModel {A}.

Definition result_map {A B} (f : A -> B) (r : result A) : result B :=
  match r with
  | Ok a => Ok (f a)
  | Raise e => Raise e
  | OutOfModel => OutOfModel
  end.

(* ===================================================================== *)
(** ** The [json] module *)
(* ===================================================================== *)

Module Json.

(** The Python values [json.load] builds: [None], [bool], [int],
    [float] (kept as its literal), [str], [list] and [dict] (its items
    in insertion order). *)
Inductive json : Type :=
| JNull : json
| JBool : bool -> json
| JInt : Z -> json
| JFloat : string -> json
| JStr : string -> json
| JArr : list json -> json
| JObj : list (string * json) -> json.

Definition dquote : ascii := "034"%char.
Definition backslash : ascii := "092"%char.
Definition LF : ascii := "010"%char.

(** *** [json.dumps(v, indent=4)] *)

Definition hex_digit (n : N) : ascii :=
  if (n <? 10)%N then ascii_of_N (48 + n) else ascii_of_N (87 + n).

Definition esc (c : ascii) : string := String backslash (String c "").

(** One character of a string, [ensure_ascii] being on. *)
Definition escape_char (c : ascii) : string :=
  let n := PyStr.code c in
  if (n =? 34)%N then esc dquote
  else if (n =? 92)%N then esc backslash
  else if (n =? 10)%N then esc "n"
  else if (n =? 13)%N then esc "r"
  else if (n =? 9)%N then esc "t"
  else if (n =? 8)%N then esc "b"
  else if (n =? 12)%N then esc "f"
  else if (n <? 32)%N || (126 <? n)%N
       then String backslash
              (String "u" (String "0" (String "0"
                (String (hex_digit (n / 16)) (String (hex_digit (n mod 16)) "")))))
       else String c "".

Fixpoint escape (s : string) : string :=
  match s with
  | EmptyString => EmptyString
  | String c s' => escape_char c +:+ escape s'
  end.

Definition encode_string (s : string) : string :=
  String dquote (escape s +:+ String dquote "").

Fixpoint spaces (n : nat) : string :=
  match n with
  | O => EmptyString
  | S n' => String " " (spaces n')
  end.

Definition newline_indent (level : nat) : string :=
  String LF (spaces (4 * level)).

Fixpoint join (sep : string) (l : list string) : string :=
  match l with
  | [] => EmptyString
  | [x] => x
  | x :: l' => x +:+ sep +:+ join sep l'
  end.

Fixpoint dump (level : nat) (v : json) : string :=
  match v with
  | JNull => "null"
  | JBool true => "true"
  | JBool false => "false"
  | JInt n => pretty n
  | JFloat literal => literal
  | JStr s => encode_string s
  | JArr [] => "[]"
  | JArr items =>
      "[" +:+ newline_indent (S level)
      +:+ join ("," +:+ newline_indent (S level)) (map (dump (S level)) items)
      +:+ newline_indent level +:+ "]"
  | JObj [] => "{}"
  | JObj members =>
      "{" +:+ newline_indent (S level)
      +:+ join ("," +:+ newline_indent (S level))
           (map (fun kv => encode_string (fst kv) +:+ ": " +:+ dump (S level) (snd kv))
                members)
      +:+ newline_indent level +:+ "}"
  end.

Definition dumps (v : json) : string := dump 0 v.

(** *** [json.loads(text)] *)

Definition is_ws (c : ascii) : bool :=
  let n := PyStr.code c in
  (n =? 32)%N || (n =? 9)%N || (n =? 10)%N || (n =? 13)%N.

Definition skip_ws (s : string) : string := PyStr.lstrip_by is_ws s.

Fixpoint strip_prefix (p s : string) : option string :=
  match p, s with
  | EmptyString, _ => Some s
  | String a p', String b s' =>
      if Ascii.eqb a b then strip_prefix p' s' else None
  | String _ _, EmptyString => None
  end.

Definition hex_value (c : ascii) : option N :=
  let n := PyStr.code c in
  if PyStr.is_digit_09 c then Some (n - 48)%N
  else if PyStr.in_range 97 102 c then Some (n - 87)%N
  else if PyStr.in_range 65 70 c then Some (n - 55)%N
  else None.

Definition hex4_value (a b c d : ascii) : option N :=
  match hex_value a, hex_value b, hex_value c, hex_value d with
  | Some x, Some y, Some z, Some w => Some (((x * 16 + y) * 16 + z) * 16 + w)%N
  | _, _, _, _ => None
  end.

Definition unescape (e : ascii) : option ascii :=
  let n := PyStr.code e in
  if (n =? 34)%N then Some dquote
  else if (n =? 92)%N then Some backslash
  else if (n =? 47)%N then Some "/"%char
  else if (n =? 98)%N then Some "008"%char
  else if (n =? 102)%N then Some "012"%char
  else if (n =? 110)%N then Some LF
  else if (n =? 114)%N then Some "013"%char
  else if (n =? 116)%N then Some "009"%char
  else None.

Definition cons_char (c : ascii) (r : result (string * string))
    : result (string * string) :=
  result_map (fun p => (String c (fst p), snd p)) r.

(** The text after an opening quote, up to the closing one. *)
Fixpoint scan_string (s : string) : result (string * string) :=
  match s with
  | EmptyString => Raise JSONDecodeError
  | String c rest =>
      if Ascii.eqb c dquote then Ok (EmptyString, rest)
      else if Ascii.eqb c backslash then
        match rest with
        | EmptyString => Raise JSONDecodeError
        | String e rest1 =>
            if Ascii.eqb e "u" then
              match rest1 with
              | String h1 (String h2 (String h3 (String h4 rest2))) =>
                  match hex4_value h1 h2 h3 h4 with
                  | Some n =>
                      if (n <? 256)%N
                      then cons_char (ascii_of_N n) (scan_string rest2)
                      else OutOfModel
                  | None => Raise JSONDecodeError
                  end
              | _ => Raise JSONDecodeError
              end
            else
              match unescape e with
              | Some c' => cons_char c' (scan_string rest1)
              | None => Raise JSONDecodeError
              end
        end
      else if (PyStr.code c <? 32)%N then Raise JSONDecodeError
      else cons_char c (scan_string rest)
  end.

Fixpoint span_digits (s : string) : string * string :=
  match s with
  | EmptyString => (EmptyString, EmptyString)
  | String c s' =>
      if PyStr.is_digit_09 c
      then let p := span_digits s' in (String c (fst p), snd p)
      else (EmptyString, s)
  end.

(** The integer part of a number: an optional minus sign, then either
    one zero or a digit from 1 to 9 followed by any digits. *)
Definition scan_int_part (s : string) : option (string * string) :=
  let sign_rest :=
    match s with
    | String "-" r => ("-", r)
    | _ => (EmptyString, s)
    end in
  match snd sign_rest with
  | String c r =>
      if Ascii.eqb c "0" then Some (fst sign_rest +:+ "0", r)
      else if PyStr.is_digit_09 c
           then let p := span_digits (snd sign_rest) in
                Some (fst sign_rest +:+ fst p, snd p)
           else None
  | EmptyString => None
  end.

(** The fraction [(\.[0-9]+)?]. *)
Definition scan_frac (s : string) : string * string :=
  match s with
  | String "." r =>
      let p := span_digits r in
      match fst p with
      | EmptyString => (EmptyString, s)
      | _ => (String "." (fst p), snd p)
      end
  | _ => (EmptyString, s)
  end.

(** The exponent [([eE][-+]?[0-9]+)?]. *)
Definition scan_exp (s : string) : string * string :=
  match s with
  | String e r =>
      if Ascii.eqb e "e" || Ascii.eqb e "E" then
        let sign_rest :=
          match r with
          | String c r' =>
              if Ascii.eqb c "+" || Ascii.eqb c "-"
              then (String c "", r') else (EmptyString, r)
          | EmptyString => (EmptyString, r)
          end in
        let p := span_digits (snd sign_rest) in
        match fst p with
        | EmptyString => (EmptyString, s)
        | _ => (String e (fst sign_rest +:+ fst p), snd p)
        end
      else (EmptyString, s)
  | EmptyString => (EmptyString, s)
  end.

Definition scan_number (s : string) : result (json * string) :=
  match scan_int_part s with
  | None => Raise JSONDecodeError
  | Some (ipart, r0) =>
      let f := scan_frac r0 in
      let e := scan_exp (snd f) in
      match fst f, fst e with
      | EmptyString, EmptyString =>
          match PyStr.int ipart with
          | Some n => Ok (JInt n, r0)
          | None => Raise ValueError
          end
      | _, _ => Ok (JFloat (ipart +:+ fst f +:+ fst e), snd e)
      end
  end.

(** [d[k] = v] on the items of a [dict]. *)
Fixpoint dict_set (k : string) (v : json) (d : list (string * json))
    : list (string * json) :=
  match d with
  | [] => [(k, v)]
  | (k', v') :: d' =>
      if String.eqb k k' then (k', v) :: d' else (k', v') :: dict_set k v d'
  end.

Definition dict_of_pairs (pairs : list (string * json)) : list (string * json) :=
  fold_left (fun d kv => dict_set (fst kv) (snd kv) d) pairs [].

Definition literal (lit : string) (v : json) (s : string)
    : result (json * string) :=
  match strip_prefix lit s with
  | Some rest => Ok (v, rest)
  | None => Raise JSONDecodeError
  end.

(** The scanner enters one nested call for each object or array it
    opens, and raises [RecursionError] when the interpreter's limit on
    nested calls is met (a thousand by default, the calls that led to
    [json.load] included).  The model follows it down to [nesting_margin]
    levels, which is below that limit, and states nothing of a text that
    nests deeper. *)
Definition nesting_margin : nat := 200.

(** The scanner.  [depth] is the number of objects and arrays that may
    still be opened inside one another; [fuel] bounds the steps, and
    [loads] gives enough of it for any text. *)
Fixpoint parse_value (depth fuel : nat) (s : string) : result (json * string) :=
  match fuel with
  | O => OutOfModel
  | S fuel' =>
      match s with
      | EmptyString => Raise JSONDecodeError
      | String c rest =>
          if Ascii.eqb c dquote then
            result_map (fun p => (JStr (fst p), snd p)) (scan_string rest)
          else if Ascii.eqb c "{" then
            match depth with
            | O => OutOfModel
            | S depth' =>
                match skip_ws rest with
                | String "}" r => Ok (JObj [], r)
                | s1 =>
                    result_map (fun p => (JObj (dict_of_pairs (fst p)), snd p))
                               (parse_members depth' fuel' s1)
                end
            end
          else if Ascii.eqb c "[" then
            match depth with
            | O => OutOfModel
            | S depth' =>
                match skip_ws rest with
                | String "]" r => Ok (JArr [], r)
                | s1 =>
                    result_map (fun p => (JArr (fst p), snd p))
                               (parse_items depth' fuel' s1)
                end
            end
          else if Ascii.eqb c "n" then literal "null" JNull s
          else if Ascii.eqb c "t" then literal "true" (JBool true) s
          else if Ascii.eqb c "f" then literal "false" (JBool false) s
          else if Ascii.eqb c "N" then literal "NaN" (JFloat "NaN") s
          else if Ascii.eqb c "I" then literal "Infinity" (JFloat "Infinity") s
          else match strip_prefix "-Infinity" s with
               | Some r => Ok (JFloat "-Infinity", r)
               | None => scan_number s
               end
      end
  end

with parse_items (depth fuel : nat) (s : string)
    : result (list json * string) :=
  match fuel with
  | O => OutOfModel
  | S fuel' =>
      match parse_value depth fuel' s with
      | Ok (v, s1) =>
          match skip_ws s1 with
          | String "," r =>
              result_map (fun p => (v :: fst p, snd p))
                         (parse_items depth fuel' (skip_ws r))
          | String "]" r => Ok ([v], r)
          | _ => Raise JSONDecodeError
          end
      | Raise e => Raise e
      | OutOfModel => OutOfModel
      end
  end

with parse_members (depth fuel : nat) (s : string)
    : result (list (string * json) * string) :=
  match fuel with
  | O => OutOfModel
  | S fuel' =>
      match s with
      | String c rest =>
          if Ascii.eqb c dquote then
            match scan_string rest with
            | Ok (k, s1) =>
                match skip_ws s1 with
                | String ":" s2 =>
                    match parse_value depth fuel' (skip_ws s2) with
                    | Ok (v, s3) =>
                        match skip_ws s3 with
                        | String "," r =>
                            result_map (fun p => ((k, v) :: fst p, snd p))
                                       (parse_members depth fuel' (skip_ws r))
                        | String "}" r => Ok ([(k, v)], r)
                        | _ => Raise JSONDecodeError
                        end
                    | Raise e => Raise e
                    | OutOfModel => OutOfModel
                    end
                | _ => Raise JSONDecodeError
                end
            | Raise e => Raise e
            | OutOfModel => OutOfModel
            end
          else Raise JSONDecodeError
      | EmptyString => Raise JSONDecodeError
      end
  end.

Definition loads (text : string) : result json :=
  match parse_value nesting_margin (2 * String.length text + 2)
                    (skip_ws text) with
  | Ok (v, rest) =>
      match skip_ws rest with
      | EmptyString => Ok v
      | _ => Raise JSONDecodeError
      end
  | Raise e => Raise e
  | OutOfModel => OutOfModel
  end.

(** *** [json.load(file)]: [loads(file.read())] *)

(** [file.read()] of a file opened in text mode decodes the bytes of the
    file, as UTF-8 here (the encoding of the locale is taken to be
    UTF-8), and raises [UnicodeDecodeError] when they are not UTF-8.  A
    byte is a character below 256.  The well-formed sequences are those
    of the Unicode standard: no overlong form, no surrogate, nothing
    above U+10FFFF. *)
Definition is_continuation (b : ascii) : bool := PyStr.in_range 128 191 b.

(** The second byte allowed after the first byte of a sequence of three. *)
Definition second_of_three (first second : ascii) : bool :=
  if (PyStr.code first =? 224)%N then PyStr.in_range 160 191 second
  else if (PyStr.code first =? 237)%N then PyStr.in_range 128 159 second
  else is_continuation second.

(** The second byte allowed after the first byte of a sequence of four. *)
Definition second_of_four (first second : ascii) : bool :=
  if (PyStr.code first =? 240)%N then PyStr.in_range 144 191 second
  else if (PyStr.code first =? 244)%N then PyStr.in_range 128 143 second
  else is_continuation second.

(** The text after a character above U+00FF: outside the model, unless
    the bytes that follow are not UTF-8. *)
Definition beyond_latin1 (r : result string) : result string :=
  match r with
  | Raise e => Raise e
  | _ => OutOfModel
  end.

Fixpoint utf8_decode (bytes : string) : result string :=
  match bytes with
  | EmptyString => Ok EmptyString
  | String b rest =>
      if (PyStr.code b <? 128)%N then
        result_map (String b) (utf8_decode rest)
      else if PyStr.in_range 194 223 b then
        match rest with
        | String b1 rest1 =>
            if is_continuation b1 then
              if (PyStr.code b <=? 195)%N then
                result_map
                  (String (ascii_of_N ((PyStr.code b - 192) * 64
                                       + (PyStr.code b1 - 128))))
                  (utf8_decode rest1)
              else beyond_latin1 (utf8_decode rest1)
            else Raise UnicodeDecodeError
        | EmptyString => Raise UnicodeDecodeError
        end
      else if PyStr.in_range 224 239 b then
        match rest with
        | String b1 (String b2 rest2) =>
            if second_of_three b b1 && is_continuation b2
            then beyond_latin1 (utf8_decode rest2)
            else Raise UnicodeDecodeError
        | _ => Raise UnicodeDecodeError
        end
      else if PyStr.in_range 240 244 b then
        match rest with
        | String b1 (String b2 (String b3 rest3)) =>
            if second_of_four b b1 && is_continuation b2 && is_continuation b3
            then beyond_latin1 (utf8_decode rest3)
            else Raise UnicodeDecodeError
        | _ => Raise UnicodeDecodeError
        end
      else Raise UnicodeDecodeError
  end.

(** The universal newlines of text mode: CR LF and a lone CR are read
    as LF. *)
Fixpoint universal_newlines (s : string) : string :=
  match s with
  | EmptyString => EmptyString
  | String c rest =>
      if (PyStr.code c =? 13)%N then
        String LF
          match rest with
          | String d rest' =>
              if (PyStr.code d =? 10)%N then universal_newlines rest'
              else universal_newlines rest
          | EmptyString => EmptyString
          end
      else String c (universal_newlines rest)
  end.

(** [file.read()] *)
Definition read_text (bytes : string) : result string :=
  result_map universal_newlines (utf8_decode bytes).

(** [json.load(file)], on the bytes of the file. *)
Definition load (bytes : string) : result json :=
  match read_text bytes with
  | Ok text => loads text
  | Raise e => Raise e
  | OutOfModel => OutOfModel
  end.

End Json.

(** The two entry points of the library the program calls, on the
    content of the file: [json.dump(v, file, indent=4)] writes
    [json_dumps v] and [json.load(file)] is [json_loads] of the content
    read. *)
Class JsonLib : Type := {
  json_dumps : Json.json -> string;
  json_loads : string -> result Json.json
}.

(** The text [json.dump] writes is plain ASCII ([ensure_ascii] is on),
    so the bytes of the file are its characters. *)
Definition python_json : JsonLib :=
  {| json_dumps := Json.dumps; json_loads := Json.load |}.

(* ===================================================================== *)
(** ** Contacts and the state of a run *)
(* ===================================================================== *)

(** [class Contact]: four attributes, no [__eq__], so two contacts are
    equal only when they are the same object. *)
Record Contact : Type := mkContact {
  first_name : string;
  last_name : string;
  phone_number : string;
  email : string
}.

#[export] Instance Contact_inhabited : Inhabited Contact :=
  populate (mkContact "" "" "" "").

#[export] Instance Contact_eq_dec : EqDecision Contact.
Proof. solve_decision. Defined.

Definition set_first_name (v : string) (c : Contact) : Contact :=
  mkContact v (last_name c) (phone_number c) (email c).
Definition set_last_name (v : string) (c : Contact) : Contact :=
  mkContact (first_name c) v (phone_number c) (email c).
Definition set_phone_number (v : string) (c : Contact) : Contact :=
  mkContact (first_name c) (last_name c) v (email c).
Definition set_email (v : string) (c : Contact) : Contact :=
  mkContact (first_name c) (last_name c) (phone_number c) v.

(** [Contact.__str__] *)
Definition Contact_str (c : Contact) : string :=
  first_name c +:+ " " +:+ last_name c +:+ ", Phone: " +:+ phone_number c
  +:+ ", Email: " +:+ email c.

(** [contact.__dict__]: the attributes in the order [__init__] sets them. *)
Definition Contact_dict (c : Contact) : Json.json :=
  Json.JObj [("first_name", Json.JStr (first_name c));
             ("last_name", Json.JStr (last_name c));
             ("phone_number", Json.JStr (phone_number c));
             ("email", Json.JStr (email c))].

(** A reference to a [Contact] object. *)
Definition loc : Type := nat.

(** What is written to the console. *)
Inductive event : Type :=
| Plain (text : string)
| Colored (text color : string)
| Prompt (text : string)
| Table (headers : list string) (rows : list (list string)).

Record state : Type := mkState {
  file : option string;          (* content of [self.filename], if it exists *)
  stdin : list string;           (* lines not read yet *)
  stdout : list event;           (* what was printed, oldest first *)
  heap : gmap loc Contact;       (* the [Contact] objects *)
  contacts : list loc            (* [self.contacts] *)
}.

Definition set_file (f : option string) (st : state) : state :=
  mkState f (stdin st) (stdout st) (heap st) (contacts st).
Definition set_stdin (i : list string) (st : state) : state :=
  mkState (file st) i (stdout st) (heap st) (contacts st).
Definition set_stdout (o : list event) (st : state) : state :=
  mkState (file st) (stdin st) o (heap st) (contacts st).
Definition set_heap (h : gmap loc Contact) (st : state) : state :=
  mkState (file st) (stdin st) (stdout st) h (contacts st).
Definition set_contacts (cs : list loc) (st : state) : state :=
  mkState (file st) (stdin st) (stdout st) (heap st) cs.

(** The object a reference points to. *)
Definition deref (st : state) (l : loc) : Contact := heap st !!! l.

(** The records of the store, in order. *)
Definition records (st : state) : list Contact := map (deref st) (contacts st).

(** *** The monad of the methods *)

Definition M (A : Type) : Type := state -> result A * state.

Definition ret {A} (a : A) : M A := fun st => (Ok a, st).

Definition bind {A B} (m : M A) (f : A -> M B) : M B := fun st =>
  match m st with
  | (Ok a, st') => f a st'
  | (Raise e, st') => (Raise e, st')
  | (OutOfModel, st') => (OutOfModel, st')
  end.

Definition raise {A} (e : exn) : M A := fun st => (Raise e, st).

Definition get : M state := fun st => (Ok st, st).
Definition modify (f : state -> state) : M unit := fun st => (Ok tt, f st).

Notation "x <- m ; k" := (bind m (fun x => k))
  (at level 20, m at level 100, k at level 200, only parsing).
Notation "m ;; k" := (bind m (fun _ => k))
  (at level 100, k at level 200, right associativity, only parsing).

Definition emit (e : event) : M unit :=
  modify (fun st => set_stdout (stdout st ++ [e]) st).

(** [print(text)] *)
Definition print (text : string) : M unit := emit (Plain text).

(** [print_in_color(text, color)] *)
Definition print_in_color (text color : string) : M unit :=
  emit (Colored text color).

(** [input()] without a prompt.  ([input(prompt)] is [emit (Prompt prompt)]
    followed by it; the loops below, which recurse on the lines left,
    spell the two steps out.) *)
Definition read_line : M string := fun st =>
  match stdin st with
  | [] => (Raise EOFError, st)
  | l :: rest => (Ok l, set_stdin rest st)
  end.

(* ===================================================================== *)
(** ** [class ContactManager] *)
(* ===================================================================== *)

Import Regex.

(** [r"^[A-Za-z\s]+$"] *)
Definition name_re : regex :=
  Plus (Class (fun c => PyStr.is_letter_az c || PyStr.isspace c)).

(** [r"^\+?[0-9]*$"] *)
Definition phone_re : regex :=
  Cat (Opt (Chr "+")) (Star (Class PyStr.is_digit_09)).

Definition is_email_char (c : ascii) : bool :=
  PyStr.is_word c || Ascii.eqb c "." || Ascii.eqb c "-".

(** [r"^[\w\.-]+@[\w\.-]+\.\w+$"] *)
Definition email_re : regex :=
  Cat (Plus (Class is_email_char))
    (Cat (Chr "@")
       (Cat (Plus (Class is_email_char))
          (Cat (Chr ".") (Plus (Class PyStr.is_word))))).

Definition _is_valid_name (name : string) : bool := re_match name_re name.
Definition _is_valid_phone (phone : string) : bool := re_match phone_re phone.
Definition _is_valid_email (email : string) : bool := re_match email_re email.

(** The parameters of [Contact.__init__]. *)
Definition field_names : list string :=
  ["first_name"; "last_name"; "phone_number"; "email"].

Definition dict_get (k : string) (d : list (string * Json.json))
    : option Json.json :=
  snd <$> List.find (fun kv => String.eqb (fst kv) k) d.

(** The argument given for the parameter [k].  [Contact.__init__] stores
    whatever it is given; a value that is not a [str] (a number, [null],
    a list) makes a [Contact] this development does not represent, whose
    later use fails in the program ([TypeError] or [AttributeError] at a
    search, for one): it gives [OutOfModel], and nothing is stated of a
    run that loads such a file. *)
Definition str_field (k : string) (d : list (string * Json.json))
    : result string :=
  match dict_get k d with
  | Some (Json.JStr s) => Ok s
  | Some _ => OutOfModel
  | None => Raise TypeError
  end.

(** The call of [Contact] with the items of a [dict] as keyword arguments.
    The keys must be the four parameter names, no more and no less, or
    the call is a [TypeError]; the values are taken as they are. *)
Definition Contact_of_kwargs (d : list (string * Json.json)) : result Contact :=
  if forallb (fun kv => existsb (String.eqb (fst kv)) field_names) d
     && forallb (fun k => bool_decide (is_Some (dict_get k d))) field_names
  then
    match str_field "first_name" d, str_field "last_name" d,
          str_field "phone_number" d, str_field "email" d with
    | Ok f, Ok l, Ok p, Ok e => Ok (mkContact f l p e)
    | _, _, _, _ => OutOfModel
    end
  else Raise TypeError.

(** The same for one element of the loaded value: anything but a [dict]
    is no mapping, a [TypeError]. *)
Definition Contact_of_data (data : Json.json) : result Contact :=
  match data with
  | Json.JObj d => Contact_of_kwargs d
  | _ => Raise TypeError
  end.

(** The list comprehension of [load_contacts] over the items: the
    records, before they are given an address.  The first [TypeError]
    ends it, also after an element with a field that is not a [str]. *)
Fixpoint Contacts_of_list (items : list Json.json) : result (list Contact) :=
  match items with
  | [] => Ok []
  | data :: rest =>
      match Contact_of_data data with
      | Ok c => result_map (cons c) (Contacts_of_list rest)
      | Raise e => Raise e
      | OutOfModel =>
          match Contacts_of_list rest with
          | Raise e => Raise e
          | _ => OutOfModel
          end
      end
  end.

(** Iterating the loaded value: a list gives its items, a [dict] its keys
    and a [str] its characters (none of which is a mapping); the other
    values are not iterable. *)
Definition Contacts_of_json (contacts_data : Json.json) : result (list Contact) :=
  match contacts_data with
  | Json.JArr items => Contacts_of_list items
  | Json.JObj [] => Ok []
  | Json.JStr EmptyString => Ok []
  | _ => Raise TypeError
  end.

(** Creation of the objects, each at a fresh address. *)
Definition alloc (c : Contact) (h : gmap loc Contact) : loc * gmap loc Contact :=
  let l := fresh (dom h) in (l, <[l := c]> h).

Fixpoint alloc_all (cs : list Contact) (h : gmap loc Contact)
    : list loc * gmap loc Contact :=
  match cs with
  | [] => ([], h)
  | c :: rest =>
      let '(l, h1) := alloc c h in
      let '(ls, h2) := alloc_all rest h1 in
      (l :: ls, h2)
  end.

Section Manager.

Context {J : JsonLib}.

(** [load_contacts] *)
Definition load_contacts : M unit := fun st =>
  match file st with
  | None => (Ok tt, set_contacts [] st)
  | Some text =>
      match json_loads text with
      | Ok contacts_data =>
          match Contacts_of_json contacts_data with
          | Ok cs =>
              let '(ls, h) := alloc_all cs (heap st) in
              (Ok tt, set_contacts ls (set_heap h st))
          | Raise e => (Raise e, st)
          | OutOfModel => (OutOfModel, st)
          end
      | Raise JSONDecodeError =>
          (print_in_color "Error reading the contacts file." "red" ;;
           modify (set_contacts [])) st
      | Raise e => (Raise e, st)
      | OutOfModel => (OutOfModel, st)
      end
  end.

(** [__init__] *)
Definition init : M unit :=
  modify (set_contacts []) ;; load_contacts.

(** [save_contacts] *)
Definition save_contacts : M unit :=
  modify (fun st =>
    set_file (Some (json_dumps (Json.JArr (map Contact_dict (records st))))) st).

(** [get_valid_input]: the [while True] loop, run on the lines still to
    be read; each round is [input(prompt)], [strip] and the test. *)
Fixpoint get_valid_input_on (prompt : string)
    (validation_func : string -> bool) (error_message : string)
    (lines : list string) : M string :=
  emit (Prompt prompt) ;;
  match lines with
  | [] => raise EOFError
  | line :: rest =>
      modify (set_stdin rest) ;;
      let value := PyStr.strip line in
      if validation_func value then ret value
      else print_in_color error_message "red" ;;
           get_valid_input_on prompt validation_func error_message rest
  end.

Definition get_valid_input (prompt : string)
    (validation_func : string -> bool) (error_message : string) : M string :=
  st <- get ;
  get_valid_input_on prompt validation_func error_message (stdin st).

(** The answer to a yes/no question: [input().strip().lower()]. *)
Definition read_answer : M string :=
  line <- read_line ; ret (PyStr.lower (PyStr.strip line)).

(** [_is_duplicate] *)
Definition is_same (f l p e : string) (c : Contact) : bool :=
  String.eqb (first_name c) f && String.eqb (last_name c) l
  && String.eqb (phone_number c) p && String.eqb (email c) e.

Definition _is_duplicate (f l p e : string) : M bool :=
  st <- get ; ret (existsb (is_same f l p e) (records st)).

(** An argument given, or asked for when it is [None]. *)
Definition given_or_asked (arg : option string) (prompt : string)
    (validation_func : string -> bool) (error_message : string) : M string :=
  match arg with
  | None => get_valid_input prompt validation_func error_message
  | Some v => ret v
  end.

(** The last four lines of [add_contact]. *)
Definition append_contact (first_name last_name phone_number email : string)
    : M unit :=
  modify (fun st =>
    let '(l, h) := alloc (mkContact first_name last_name phone_number email)
                         (heap st) in
    set_contacts (contacts st ++ [l]) (set_heap h st)) ;;
  save_contacts ;;
  print_in_color "Contact added successfully." "green".

(** [add_contact] *)
Definition add_contact (first_name last_name phone_number email : option string)
    : M unit :=
  first_name <- given_or_asked first_name "First name: " _is_valid_name
    "Invalid first name. Only letters and spaces are allowed." ;
  last_name <- given_or_asked last_name "Last name: " _is_valid_name
    "Invalid last name. Only letters and spaces are allowed." ;
  phone_number <- given_or_asked phone_number "Phone number: " _is_valid_phone
    "Invalid phone number. Only numbers and optionally a plus sign are allowed." ;
  email <- given_or_asked email "Email: " _is_valid_email
    "Invalid email. Please enter a valid email address." ;
  dup <- _is_duplicate first_name last_name phone_number email ;
  if dup then
    print_in_color
      "This contact already exists. Do you want to add it anyway? (y/n): "
      "red" ;;
    overwrite <- read_answer ;
    if negb (String.eqb overwrite "y")
    then print_in_color "Contact not added." "red"
    else append_contact first_name last_name phone_number email
  else append_contact first_name last_name phone_number email.

(** [search_contact] *)
Definition matches_query (query : string) (c : Contact) : bool :=
  PyStr.contains query (PyStr.lower (first_name c))
  || PyStr.contains query (PyStr.lower (last_name c))
  || PyStr.contains query (phone_number c)
  || PyStr.contains query (PyStr.lower (email c)).

Definition table_row (c : Contact) : list string :=
  [first_name c; last_name c; phone_number c; email c].

Definition search_contact (query : string) (display : bool) : M (list loc) :=
  let query := PyStr.lower query in
  st <- get ;
  let results :=
    List.filter (fun l => matches_query query (deref st l)) (contacts st) in
  (if display then
     match results with
     | _ :: _ =>
         emit (Table ["First Name"; "Last Name"; "Phone Number"; "Email"]
                     (map (fun l => table_row (deref st l)) results))
     | [] => print_in_color "No contacts found." "red"
     end
   else ret tt) ;;
  ret results.

(** [_select_contact_from_results] *)
Fixpoint print_enumerated (i : nat) (results : list loc) : M unit :=
  match results with
  | [] => ret tt
  | contact :: rest =>
      st <- get ;
      print (pretty (i + 1)%nat +:+ ": " +:+ Contact_str (deref st contact)) ;;
      print_enumerated (S i) rest
  end.

Definition select_prompt : string :=
  "Enter the index number of the contact you want to modify or delete: ".

Fixpoint select_on (results : list loc) (lines : list string) : M loc :=
  emit (Prompt select_prompt) ;;
  match lines with
  | [] => raise EOFError
  | line :: rest =>
      modify (set_stdin rest) ;;
      match PyStr.int line with
      | Some n =>
          let choice := (n - 1)%Z in
          if (0 <=? choice)%Z && (choice <? Z.of_nat (length results))%Z then
            match results !! Z.to_nat choice with
            | Some contact => ret contact
            | None => raise IndexError
            end
          else
            print_in_color
              "Invalid selection. Please enter an index number corresponding to one of the contacts listed."
              "red" ;;
            select_on results rest
      | None =>
          print_in_color "Invalid input. Please enter a valid index number." "red" ;;
          select_on results rest
      end
  end.

Definition _select_contact_from_results (results : list loc) : M loc :=
  if (1 <? length results)%nat then
    print_enumerated 0 results ;;
    st <- get ;
    select_on results (stdin st)
  else
    match results with
    | contact :: _ => ret contact
    | [] => raise IndexError
    end.

(** [self.contacts.index(contact)]: the first position holding the
    object, [ValueError] when there is none. *)
Fixpoint index_of (contact : loc) (l : list loc) : option nat :=
  match l with
  | [] => None
  | x :: l' => if Nat.eqb x contact then Some O else S <$> index_of contact l'
  end.

Definition contacts_index (contact : loc) : M nat :=
  st <- get ;
  match index_of contact (contacts st) with
  | Some i => ret i
  | None => raise ValueError
  end.

(** [self.contacts.remove(contact)] *)
Fixpoint remove_first (contact : loc) (l : list loc) : option (list loc) :=
  match l with
  | [] => None
  | x :: l' =>
      if Nat.eqb x contact then Some l' else cons x <$> remove_first contact l'
  end.

Definition contacts_remove (contact : loc) : M unit :=
  st <- get ;
  match remove_first contact (contacts st) with
  | Some l => modify (set_contacts l)
  | None => raise ValueError
  end.

(** [self.contacts[index].attr = v], [update] being the assignment. *)
Definition assign_at (index : nat) (update : Contact -> Contact) : M unit :=
  st <- get ;
  match contacts st !! index with
  | Some l => modify (set_heap (<[l := update (deref st l)]> (heap st)))
  | None => raise IndexError
  end.

(** [get_new_value], the inner function of [modify_contact], run on the
    lines still to be read.  (The interpreter's recursion limit is not
    part of the model.) *)
Fixpoint get_new_value_on (prompt : string) (validation_func : string -> bool)
    (error_message current_value : string) (lines : list string) : M string :=
  emit (Prompt prompt) ;;
  match lines with
  | [] => raise EOFError
  | line :: rest =>
      modify (set_stdin rest) ;;
      let new_value := PyStr.strip line in
      if String.eqb new_value "" then ret current_value
      else if negb (validation_func new_value) then
        print_in_color error_message "red" ;;
        get_new_value_on prompt validation_func error_message current_value rest
      else ret new_value
  end.

Definition get_new_value (prompt : string) (validation_func : string -> bool)
    (error_message current_value : string) : M string :=
  st <- get ;
  get_new_value_on prompt validation_func error_message current_value (stdin st).

(** Lines 298-304 of [modify_contact]. *)
Definition write_contact (index : nat)
    (first_name last_name phone_number email : string) : M unit :=
  assign_at index (set_first_name first_name) ;;
  assign_at index (set_last_name last_name) ;;
  assign_at index (set_phone_number phone_number) ;;
  assign_at index (set_email email) ;;
  save_contacts ;;
  print_in_color "Contact modified successfully." "green".

(** [modify_contact], from the duplicate test (line 291) on. *)
Definition check_and_write (index : nat)
    (first_name last_name phone_number email : string) : M unit :=
  dup <- _is_duplicate first_name last_name phone_number email ;
  if dup then
    print_in_color
      "This contact already exists. Do you want to update it anyway? (y/n): "
      "red" ;;
    overwrite <- read_answer ;
    if negb (String.eqb overwrite "y") then
      print_in_color "Modification cancelled due to duplicate contact." "red"
    else write_contact index first_name last_name phone_number email
  else write_contact index first_name last_name phone_number email.

(** [modify_contact], once the change is confirmed (line 243 on). *)
Definition edit_contact (contact : loc) : M unit :=
  index <- contacts_index contact ;
  st <- get ;
  let current := deref st contact in
  first_name <- get_new_value
    "Enter new first name (leave blank to keep current): " _is_valid_name
    "Invalid first name. Only letters and spaces are allowed."
    (first_name current) ;
  last_name <- get_new_value
    "Enter new last name (leave blank to keep current): " _is_valid_name
    "Invalid last name. Only letters and spaces are allowed."
    (last_name current) ;
  phone_number <- get_new_value
    "Enter new phone number (leave blank to keep current): " _is_valid_phone
    "Invalid phone number. Only numbers and optionally a plus sign are allowed."
    (phone_number current) ;
  email <- get_new_value
    "Enter new email (leave blank to keep current): " _is_valid_email
    "Invalid email. Please enter a valid email address."
    (email current) ;
  check_and_write index first_name last_name phone_number email.

(** What [modify_contact] does with the contact selected. *)
Definition modify_selected (contact : loc) : M unit :=
  print (String Json.LF "Selected contact to modify:") ;;
  st <- get ;
  print (Contact_str (deref st contact)) ;;
  print_in_color "Are you sure you want to modify this contact? (y/n): " "red" ;;
  confirm <- read_answer ;
  if negb (String.eqb confirm "y") then
    print_in_color "Modification cancelled." "red"
  else edit_contact contact.

(** [modify_contact].  The test [if not contact] never holds, a
    [Contact] being a true value, and is left out. *)
Definition modify_contact (query : string) : M unit :=
  results <- search_contact query false ;
  match results with
  | _ :: _ =>
      contact <- _select_contact_from_results results ;
      modify_selected contact
  | [] => print_in_color "No contacts found." "red"
  end.

(** What [delete_contact] does with the contact selected. *)
Definition delete_selected (contact : loc) : M unit :=
  print (String Json.LF "Selected contact to delete:") ;;
  st <- get ;
  print (Contact_str (deref st contact)) ;;
  print_in_color "Are you sure you want to delete this contact? (y/n): " "red" ;;
  confirm <- read_answer ;
  if String.eqb confirm "y" then
    contacts_remove contact ;;
    save_contacts ;;
    print_in_color "Contact deleted successfully." "green"
  else print_in_color "Contact deletion cancelled." "red".

(** [delete_contact] *)
Definition delete_contact (query : string) : M unit :=
  results <- search_contact query false ;
  match results with
  | _ :: _ =>
      contact <- _select_contact_from_results results ;
      delete_selected contact
  | [] => print_in_color "No contacts found." "red"
  end.

End Manager.

(* ===================================================================== *)
(** ** [display_contacts] and [main] *)
(* ===================================================================== *)

(** [a < b] on the sort keys [(first_name, last_name)]: tuples compare by
    their first component that differs, strings by code point. *)
Definition key_lt (a b : Contact) : bool :=
  if String.eqb (first_name a) (first_name b)
  then String.ltb (last_name a) (last_name b)
  else String.ltb (first_name a) (first_name b).

(** [sorted(l, key=...)]: the sort is stable, so its result is the one of
    this insertion sort, which puts an element before the first one that
    is not smaller. *)
Fixpoint insert_sorted {A} (lt : A -> A -> bool) (x : A) (l : list A) : list A :=
  match l with
  | [] => [x]
  | y :: l' => if lt y x then y :: insert_sorted lt x l' else x :: l
  end.

Fixpoint sorted {A} (lt : A -> A -> bool) (l : list A) : list A :=
  match l with
  | [] => []
  | x :: l' => insert_sorted lt x (sorted lt l')
  end.

(** [display_contacts] *)
Definition display_contacts : M unit :=
  st <- get ;
  match contacts st with
  | [] => print_in_color "No contacts available. Please, enter one." "red"
  | _ :: _ =>
      let sorted_contacts :=
        sorted (fun a b => key_lt (deref st a) (deref st b)) (contacts st) in
      emit (Table ["First Name"; "Last Name"; "Phone Number"; "Email"]
                  (map (fun l => table_row (deref st l)) sorted_contacts))
  end.

(** ["=" * 45] *)
Definition rule45 : string := string_of_list_ascii (repeat "="%char 45).

(** The menu printed at each round of [main], down to the question. *)
Definition menu : M unit :=
  print_in_color (String Json.LF rule45) "yellow" ;;
  print_in_color "   ContactEase - Contact Management System" "yellow" ;;
  print_in_color rule45 "yellow" ;;
  print_in_color "1. Add Contact" "yellow" ;;
  print_in_color "2. View Contacts" "yellow" ;;
  print_in_color "3. Modify Contact" "yellow" ;;
  print_in_color "4. Delete Contact" "yellow" ;;
  print_in_color "5. Search Contact" "yellow" ;;
  print_in_color "6. Exit" "yellow" ;;
  print_in_color rule45 "yellow" ;;
  print_in_color "Enter your choice (1-6): " "yellow".

(** [os.path.exists("contacts.json")], the file of the manager. *)
Definition file_exists : M bool :=
  st <- get ; ret (match file st with Some _ => true | None => false end).

(** [input(prompt).strip()] *)
Definition ask (prompt : string) : M string :=
  emit (Prompt prompt) ;; line <- read_line ; ret (PyStr.strip line).

(** [input().strip()] *)
Definition read_choice : M string :=
  line <- read_line ; ret (PyStr.strip line).

Definition no_file_message : event :=
  Colored "No contacts found. Please add a contact first." "red".

Section Shell.

Context {J : JsonLib}.

(** One of the choices 3, 4 and 5: the query is asked for and the method
    called only when the file exists. *)
Definition on_existing_file (prompt : string) (method : string -> M unit)
    : M unit :=
  found <- file_exists ;
  if found then query <- ask prompt ; method query
  else emit no_file_message.

(** The [if]/[elif] chain of [main] on the choice read; [again] is the
    loop taken up at its head, and [break] the branch without it. *)
Definition on_choice (choice : string) (again : M unit) : M unit :=
  if String.eqb choice "1" then
    print (String Json.LF "Enter new contact details:") ;;
    add_contact None None None None ;;
    again
  else if String.eqb choice "2" then
    print (String Json.LF "Displaying all contacts:") ;;
    display_contacts ;;
    again
  else if String.eqb choice "3" then
    on_existing_file
      "Enter the name, phone number, or email of the contact to modify: "
      modify_contact ;;
    again
  else if String.eqb choice "4" then
    on_existing_file
      "Enter the name, phone number, or email of the contact to delete: "
      delete_contact ;;
    again
  else if String.eqb choice "5" then
    on_existing_file
      "Enter the name, phone number, or email of the contact to search: "
      (fun query => search_contact query true ;; ret tt) ;;
    again
  else if String.eqb choice "6" then
    print (String Json.LF "Exiting the program. Goodbye!")
  else
    print "Invalid choice. Please enter a number from 1 to 6." ;;
    again.

(** One round of the [while True] loop of [main]. *)
Definition main_round (again : M unit) : M unit :=
  menu ;;
  choice <- read_choice ;
  on_choice choice again.

(** The loop.  Each round reads a line at least, so the rounds are
    bounded by the lines left: [main] starts the loop with more fuel than
    that, and the first case is never reached. *)
Fixpoint main_loop (fuel : nat) : M unit :=
  match fuel with
  | O => fun st => (OutOfModel, st)
  | S fuel' => main_round (main_loop fuel')
  end.

(** [main] *)
Definition main : M unit :=
  init ;;
  st <- get ;
  main_loop (S (length (stdin st))).

End Shell.

(* ===================================================================== *)
(** ** The specification's reading of some operations *)
(* ===================================================================== *)

(** These definitions follow the words of the specification, not the
    code; the properties below compare them with the code. *)
Module Spec.

(** The name rule as specified: not empty, ASCII letters and the space
    character only. *)
Definition name_char (c : ascii) : bool :=
  PyStr.is_letter_az c || Ascii.eqb c " ".

Definition valid_name (s : string) : bool :=
  negb (String.eqb s "") && forallb name_char (list_ascii_of_string s).

(** The search rule as specified: the lower-cased query against the
    lower-cased names and email, the query as typed against the phone
    number. *)
Definition search_matches (q : string) (r : Contact) : bool :=
  PyStr.contains (PyStr.lower q) (PyStr.lower (first_name r))
  || PyStr.contains (PyStr.lower q) (PyStr.lower (last_name r))
  || PyStr.contains (PyStr.lower q) (PyStr.lower (email r))
  || PyStr.contains q (phone_number r).


End Spec.

(** *** Vocabulary of the statements *)

(** The value [get_new_value] returns for an accepted line: the current
    value when the line is blank, the stripped line otherwise. *)
Definition kept_or_new (current line : string) : string :=
  if String.eqb (PyStr.strip line) "" then current else PyStr.strip line.

(** A line [get_new_value] accepts: blank, or valid once stripped. *)
Definition blank_or_valid (validation_func : string -> bool) (line : string)
    : bool :=
  String.eqb (PyStr.strip line) "" || validation_func (PyStr.strip line).

(** The four validators on a record. *)
Definition valid_contact (c : Contact) : bool :=
  _is_valid_name (first_name c) && _is_valid_name (last_name c)
  && _is_valid_phone (phone_number c) && _is_valid_email (email c).

(** The answer to a yes/no question counts as yes. *)
Definition says_yes (line : string) : bool :=
  String.eqb (PyStr.lower (PyStr.strip line)) "y".

(** Printing, as a change of state. *)
Definition printed (events : list event) (st : state) : state :=
  set_stdout (stdout st ++ events) st.

(** The numbered list [_select_contact_from_results] prints. *)
Fixpoint enumeration (st : state) (i : nat) (results : list loc) : list event :=
  match results with
  | [] => []
  | contact :: rest =>
      Plain (pretty (i + 1)%nat +:+ ": " +:+ Contact_str (deref st contact))
      :: enumeration st (S i) rest
  end.

(** What is printed for a line that is refused. *)
Definition refusal (results : list loc) (line : string) : event :=
  match PyStr.int line with
  | Some _ =>
      Colored
        "Invalid selection. Please enter an index number corresponding to one of the contacts listed."
        "red"
  | None => Colored "Invalid input. Please enter a valid index number." "red"
  end.

(** Two states with the same store: objects, list and file. *)
Definition same_store (st st' : state) : Prop :=
  heap st' = heap st /\ contacts st' = contacts st /\ file st' = file st.

(** The object at [contact] given new fields. *)
Definition rewritten (contact : loc) (r : Contact) (st : state) : state :=
  set_heap (<[contact := r]> (heap st)) st.

(** The store written to the file, as [save_contacts] does. *)
Definition saved {J : JsonLib} (st : state) : state :=
  set_file (Some (json_dumps (Json.JArr (map Contact_dict (records st))))) st.

(** What [modify_contact] prints, by stage. *)
Definition modify_banner (st : state) (contact : loc) : list event :=
  [Plain (String Json.LF "Selected contact to modify:");
   Plain (Contact_str (deref st contact));
   Colored "Are you sure you want to modify this contact? (y/n): " "red"].

Definition edit_prompts : list event :=
  [Prompt "Enter new first name (leave blank to keep current): ";
   Prompt "Enter new last name (leave blank to keep current): ";
   Prompt "Enter new phone number (leave blank to keep current): ";
   Prompt "Enter new email (leave blank to keep current): "].

Definition override_question : event :=
  Colored
    "This contact already exists. Do you want to update it anyway? (y/n): "
    "red".

Definition modified_message : event :=
  Colored "Contact modified successfully." "green".

Definition duplicate_cancel_message : event :=
  Colored "Modification cancelled due to duplicate contact." "red".

(** The record [modify_contact] assembles from the current one and the
    four lines typed. *)
Definition candidate (current : Contact) (l1 l2 l3 l4 : string) : Contact :=
  mkContact (kept_or_new (first_name current) l1)
            (kept_or_new (last_name current) l2)
            (kept_or_new (phone_number current) l3)
            (kept_or_new (email current) l4).

(** The four lines are accepted, each at its field. *)
Definition lines_accepted (l1 l2 l3 l4 : string) : bool :=
  blank_or_valid _is_valid_name l1 && blank_or_valid _is_valid_name l2
  && blank_or_valid _is_valid_phone l3 && blank_or_valid _is_valid_email l4.

(** Whether the write goes ahead after the duplicate test: at once when
    there is no duplicate, after a line saying yes when there is one.
    The result is the question printed, if any, and the lines left. *)
Definition override_given (dup : bool) (rest : list string)
    : option (list event * list string) :=
  if dup then
    match rest with
    | answer :: rest' =>
        if says_yes answer then Some ([override_question], rest') else None
    | [] => None
    end
  else Some ([], rest).

(** The state after a modification that went through. *)
Definition committed {J : JsonLib} (c : loc) (r : Contact)
    (events : list event) (rest : list string) (st : state) : state :=
  printed events (saved (rewritten c r (set_stdin rest st))).

(** The duplicate test on a record. *)
Definition in_store (r : Contact) (st : state) : bool :=
  existsb (is_same (first_name r) (last_name r) (phone_number r) (email r))
          (records st).

(** What [delete_contact] prints before it reads the confirmation. *)
Definition delete_banner (st : state) (contact : loc) : list event :=
  [Plain (String Json.LF "Selected contact to delete:");
   Plain (Contact_str (deref st contact));
   Colored "Are you sure you want to delete this contact? (y/n): " "red"].

Definition deleted_message : event :=
  Colored "Contact deleted successfully." "green".

(** The list without the reference [c]. *)
Definition without (c : loc) (l : list loc) : list loc :=
  List.filter (fun x => negb (Nat.eqb x c)) l.

(** An argument of [add_contact] that is absent (the field is then asked
    for) or passes the validator of its field. *)
Definition arg_ok (validation_func : string -> bool) (arg : option string)
    : bool :=
  match arg with
  | None => true
  | Some v => validation_func v
  end.

(** [st'] is [st] with one new object holding [c], appended to the list. *)
Definition appended (c : Contact) (st st' : state) : Prop :=
  exists l, (l ∉ dom (heap st)) /\
            contacts st' = contacts st ++ [l] /\
            heap st' = <[l := c]> (heap st).

(** A record failing validation. *)
Definition digit_name : Contact := mkContact "1" "Doe" "555" "a@b.c".

(** The text of the items of a saved store, between the brackets. *)
Definition items_text (cs : list Contact) : string :=
  Json.join ("," +:+ Json.newline_indent 1)
            (map (Json.dump 1) (map Contact_dict cs)).

(** The store is well formed: the list holds each object once and every
    reference points to an object. *)
Definition well_formed (st : state) : Prop :=
  NoDup (contacts st) /\ forall l, l ∈ contacts st -> l ∈ dom (heap st).

(** A call keeps a well-formed store well formed, however it ends. *)
Definition keeps_well_formed {A} (m : M A) : Prop :=
  forall st, well_formed st -> well_formed (snd (m st)).

(** Inputs used in the examples below. *)
Definition jane_a : Contact := mkContact "Jane" "Roe" "555" "jane@x.com".
Definition jane_b : Contact := mkContact "Jane" "Doe" "666" "jane2@x.com".

Definition blank_state : state := mkState None [] [] ∅ [].

(** The state of a manager holding [store]: its records allocated in
    order, as [load_contacts] does. *)
Definition state_of (f : option string) (lines : list string)
    (store : list Contact) : state :=
  let '(ls, h) := alloc_all store ∅ in mkState f lines [] h ls.

Definition john : Contact := mkContact "John" "Doe" "+15551234" "john@x.com".

(** A record with a letter in its phone number, as a file can hold one. *)
Definition bob : Contact := mkContact "Bob" "Roe" "555X" "bob@y.org".

Definition name_with_tab : string :=
  String "a" (String "009" (String "b" EmptyString)).

(** *** Outcomes of a call *)

(** The console only moves on: the lines left are the end of the lines
    there were, what was printed is still there. *)
Definition console_step (st st' : state) : Prop :=
  (exists used, stdin st = used ++ stdin st') /\
  (exists events, stdout st' = stdout st ++ events).

(** A call that ends normally with [Q], or with [EOFError] when the
    lines have run out, store and file then being as they were. *)
Definition atomic {A} (m : M A) (st : state) (Q : A -> state -> Prop) : Prop :=
  console_step st (snd (m st)) /\
  match fst (m st) with
  | Ok a => Q a (snd (m st))
  | Raise e => e = EOFError /\ same_store st (snd (m st)) /\ stdin (snd (m st)) = []
  | OutOfModel => False
  end.

(** The same for a call that reads and prints only. *)
Definition quiet {A} (m : M A) (st : state) (P : A -> Prop) : Prop :=
  atomic m st (fun a st' => same_store st st' /\ P a).

(** The file holds the text of the store. *)
Definition in_sync {J : JsonLib} (st : state) : Prop :=
  file st = Some (json_dumps (Json.JArr (map Contact_dict (records st)))).

(** The value of a field of [add_contact]: the argument given, or a line
    that passed the validator. *)
Definition given_or_valid (validation_func : string -> bool)
    (arg : option string) (v : string) : Prop :=
  match arg with Some a => v = a | None => validation_func v = true end.

(** The value of a field after [modify_contact]: the former one, or a
    line that passed the validator. *)
Definition kept_or_valid (validation_func : string -> bool)
    (old v : string) : Prop :=
  v = old \/ validation_func v = true.

(** What [modify_contact] leaves behind when it changed something: the
    object [c] of the list, found by the query, rewritten. *)
Definition modified_from {J : JsonLib} (q : string) (st st' : state) : Prop :=
  exists c r,
    In c (contacts st) /\
    matches_query (PyStr.lower q) (deref st c) = true /\
    kept_or_valid _is_valid_name (first_name (deref st c)) (first_name r) /\
    kept_or_valid _is_valid_name (last_name (deref st c)) (last_name r) /\
    kept_or_valid _is_valid_phone (phone_number (deref st c)) (phone_number r) /\
    kept_or_valid _is_valid_email (email (deref st c)) (email r) /\
    contacts st' = contacts st /\
    heap st' = <[c := r]> (heap st) /\
    in_sync st'.

(** What [delete_contact] leaves behind when it changed something: the
    first reference to the object [c], found by the query, taken out. *)
Definition deleted_from {J : JsonLib} (q : string) (st st' : state) : Prop :=
  exists c,
    In c (contacts st) /\
    matches_query (PyStr.lower q) (deref st c) = true /\
    remove_first c (contacts st) = Some (contacts st') /\
    heap st' = heap st /\
    in_sync st'.

(** One step of the store under the menu: nothing, a valid record
    appended, an object rewritten or a reference taken out. *)
Definition store_step {J : JsonLib} (st st' : state) : Prop :=
  same_store st st' \/
  (exists c, valid_contact c = true /\ appended c st st' /\ in_sync st') \/
  (exists q, modified_from q st st') \/
  (exists q, deleted_from q st st').

(** The last thing [main] prints. *)
Definition goodbye : event :=
  Plain (String Json.LF "Exiting the program. Goodbye!").

(** How a run of the menu ends: by [EOFError], the lines having run
    out, or normally, the farewell being the last thing printed. *)
Definition final (r : result unit) (st' : state) : Prop :=
  (r = Raise EOFError /\ stdin st' = []) \/
  (r = Ok tt /\ exists before, stdout st' = before ++ [goodbye]).

Definition ends_well (m : M unit) (st : state) : Prop :=
  console_step st (snd (m st)) /\ final (fst (m st)) (snd (m st)).

(** A part of a round begun in [st0] and now in [st], [again] being the
    loop taken up at its head: it ends there, the store being as it was,
    or goes on from a state one step away, whatever [again] is. *)
Definition round_outcome {J : JsonLib} (round : M unit -> M unit)
    (st0 st : state) : Prop :=
  (exists r st',
     (forall again, round again st0 = (r, st')) /\
     console_step st st' /\ same_store st0 st' /\ final r st') \/
  (exists st1,
     (forall again, round again st0 = again st1) /\
     console_step st st1 /\ store_step st0 st1).

(** What [menu] prints. *)
Definition menu_events : list event :=
  [Colored (String Json.LF rule45) "yellow";
   Colored "   ContactEase - Contact Management System" "yellow";
   Colored rule45 "yellow";
   Colored "1. Add Contact" "yellow";
   Colored "2. View Contacts" "yellow";
   Colored "3. Modify Contact" "yellow";
   Colored "4. Delete Contact" "yellow";
   Colored "5. Search Contact" "yellow";
   Colored "6. Exit" "yellow";
   Colored rule45 "yellow";
   Colored "Enter your choice (1-6): " "yellow"].

(** The order of the keys, as a three-way comparison. *)
Definition key_compare (a b : Contact) : comparison :=
  match String.compare (first_name a) (first_name b) with
  | Eq => String.compare (last_name a) (last_name b)
  | c => c
  end.

(** The order of the sort keys: [a <= b] is [not (b < a)]. *)
Definition key_le (a b : Contact) : Prop := key_lt b a = false.

(** The records with the sort key of [k]. *)
Definition same_key (k c : Contact) : bool :=
  String.eqb (first_name c) (first_name k)
  && String.eqb (last_name c) (last_name k).

Definition table_headers : list string :=
  ["First Name"; "Last Name"; "Phone Number"; "Email"].

(** [get_new_value] calls itself once for each line it refuses, and the
    interpreter allows a thousand nested calls by default; the model has
    no such limit.  The statements on [modify_contact] and on [main] are
    for inputs of fewer lines than this margin, which cannot reach it. *)
Definition recursion_margin : nat := 900.

(** What a loop prints for the lines it refuses: the prompt and the
    message, once for each. *)
Definition rejections (prompt error_message : string) (bad : list string)
    : list event :=
  flat_map (fun _ => [Prompt prompt; Colored error_message "red"]) bad.

(** What [add_contact] prints when the four fields are typed in and
    accepted at once. *)
Definition add_prompts : list event :=
  [Prompt "First name: "; Prompt "Last name: "; Prompt "Phone number: ";
   Prompt "Email: "].

Definition add_question : event :=
  Colored "This contact already exists. Do you want to add it anyway? (y/n): "
          "red".

Definition added_message : event :=
  Colored "Contact added successfully." "green".

(** The table printed for a list of objects, or the message when there
    is none. *)
Definition results_event (st : state) (results : list loc) : event :=
  match results with
  | [] => Colored "No contacts found." "red"
  | _ :: _ => Table table_headers (map (fun l => table_row (deref st l)) results)
  end.

(** The file and the store agree: no file and an empty store, or a file
    that holds the text of the store. *)
Definition consistent {J : JsonLib} (st : state) : Prop :=
  match file st with
  | None => contacts st = []
  | Some text => text = json_dumps (Json.JArr (map Contact_dict (records st)))
  end.

(** A start at which the manager is created with records whose fields
    are [str]s: there is no file, or [json.load] raises [JSONDecodeError]
    on it, or it gives a value that [load_contacts] turns into records,
    which takes objects with the four keys and [str] values. *)
Definition loadable {J : JsonLib} (st : state) : Prop :=
  match file st with
  | None => True
  | Some text =>
      json_loads text = Raise JSONDecodeError \/
      exists v cs, json_loads text = Ok v /\ Contacts_of_json v = Ok cs
  end.

(** A new process started on the file [st] leaves behind. *)
Definition restarted (st : state) (lines : list string) : state :=
  mkState (file st) lines [] ∅ [].

(** The prompt of the choice 5 of the menu. *)
Definition search_prompt : string :=
  "Enter the name, phone number, or email of the contact to search: ".

(** A character of a text that any encoding of the file takes: a
    printable ASCII character or the newline. *)
Definition plain_char (c : ascii) : bool :=
  (PyStr.code c =? 10)%N || PyStr.in_range 32 126 c.

Definition plain_text (s : string) : bool :=
  forallb plain_char (list_ascii_of_string s).

(** The lines [get_new_value] refuses at one field before it accepts
    one: each is neither blank nor valid once stripped, and they are
    fewer than [recursion_margin]. *)
Definition lines_refused (validation_func : string -> bool)
    (bad : list string) : bool :=
  forallb (fun line => negb (blank_or_valid validation_func line)) bad
  && (length bad <? recursion_margin)%nat.

(** What [modify_contact] prints while the four fields are typed: at each
    field the prompt and the error message for each line refused, then
    the prompt of the line accepted. *)
Definition edit_events (bad1 bad2 bad3 bad4 : list string) : list event :=
  rejections "Enter new first name (leave blank to keep current): "
    "Invalid first name. Only letters and spaces are allowed." bad1
  ++ [Prompt "Enter new first name (leave blank to keep current): "]
  ++ rejections "Enter new last name (leave blank to keep current): "
       "Invalid last name. Only letters and spaces are allowed." bad2
  ++ [Prompt "Enter new last name (leave blank to keep current): "]
  ++ rejections "Enter new phone number (leave blank to keep current): "
       "Invalid phone number. Only numbers and optionally a plus sign are allowed."
       bad3
  ++ [Prompt "Enter new phone number (leave blank to keep current): "]
  ++ rejections "Enter new email (leave blank to keep current): "
       "Invalid email. Please enter a valid email address." bad4
  ++ [Prompt "Enter new email (leave blank to keep current): "].

(** A line the selection among [n] results refuses: it is not a number,
    or it is a number outside 1..n. *)
Definition index_refused (n : nat) (line : string) : Prop :=
  forall i, PyStr.int line = Some i -> (i < 1 \/ Z.of_nat n < i)%Z.

(** What the selection prints for the lines it refuses: the prompt and
    the message, once for each. *)
Definition refusals (results : list loc) (bad : list string) : list event :=
  flat_map (fun line => [Prompt select_prompt; refusal results line]) bad.

(* ===================================================================== *)
(** * Properties *)
(* ===================================================================== *)

(** ** The matcher decides the language of a pattern *)

Module RegexFacts.
Import Regex.

Lemma lang_nil_nullable r s : lang r s -> s = [] -> nullable r = true.
Proof.
  induction 1; intros Hnil; simpl; try reflexivity; try discriminate.
  - apply app_eq_nil in Hnil as [-> ->].
    rewrite IHlang1, IHlang2; reflexivity.
  - rewrite (IHlang Hnil); reflexivity.
  - rewrite (IHlang Hnil); apply orb_true_r.
Qed.

Lemma nullable_lang r : nullable r = true <-> lang r [].
Proof.
  split; [| intros H; eapply lang_nil_nullable; eauto].
  induction r; simpl; intros H; try discriminate.
  - constructor.
  - apply andb_true_iff in H as [Ha Hb].
    change (@nil ascii) with (@nil ascii ++ []). constructor; auto.
  - apply orb_true_iff in H as [Ha | Hb];
      [apply lang_alt_l | apply lang_alt_r]; auto.
  - constructor.
Qed.

Lemma deriv_sound c r : forall s, lang (deriv c r) s -> lang r (c :: s).
Proof.
  induction r; simpl; intros s H.
  - inversion H.
  - inversion H.
  - destruct (b c) eqn:Hb; inversion H; subst. constructor; assumption.
  - destruct (nullable r1) eqn:Hn.
    + inversion H as [| | | a b s0 Hl | a b s0 Hr | |]; subst.
      * inversion Hl; subst.
        rewrite app_comm_cons. constructor; auto.
      * change (c :: s) with ([] ++ c :: s).
        constructor; [apply nullable_lang; assumption | auto].
    + inversion H; subst.
      rewrite app_comm_cons. constructor; auto.
  - inversion H; subst; [apply lang_alt_l | apply lang_alt_r]; auto.
  - inversion H; subst.
    rewrite app_comm_cons. constructor; auto.
Qed.

Lemma deriv_complete r w :
  lang r w -> forall c s, w = c :: s -> lang (deriv c r) s.
Proof.
  induction 1; intros c0 s0 Hw; simpl.
  - discriminate.
  - injection Hw as -> <-. rewrite H. constructor.
  - destruct s as [| x s'].
    + simpl in Hw. subst t.
      rewrite (lang_nil_nullable _ _ H eq_refl).
      apply lang_alt_r. eapply IHlang2; reflexivity.
    + simpl in Hw. injection Hw as -> <-.
      assert (Hc : lang (Cat (deriv c0 a) b) (s' ++ t))
        by (constructor; [eapply IHlang1; reflexivity | assumption]).
      destruct (nullable a); [apply lang_alt_l |]; assumption.
  - apply lang_alt_l. eapply IHlang; eassumption.
  - apply lang_alt_r. eapply IHlang; eassumption.
  - discriminate.
  - destruct s as [| x s'].
    + simpl in Hw. apply (IHlang2 _ _ Hw).
    + simpl in Hw. injection Hw as -> <-.
      constructor; [eapply IHlang1; reflexivity | assumption].
Qed.

Lemma matches_lang s : forall r, matches r s = true <-> lang r s.
Proof.
  induction s as [| c s IH]; intros r; simpl.
  - apply nullable_lang.
  - rewrite IH. split; [apply deriv_sound |].
    intros H. eapply deriv_complete; eauto.
Qed.

(** Words over one class. *)
Lemma lang_star_class p s :
  lang (Star (Class p)) s <-> Forall (fun c => p c = true) s.
Proof.
  split.
  - remember (Star (Class p)) as r eqn:Hr. induction 1; try discriminate.
    + constructor.
    + injection Hr as ->. inversion H; subst. simpl.
      constructor; [assumption | apply IHlang2; reflexivity].
  - induction 1 as [| c s Hc _ IH]; [constructor |].
    change (c :: s) with ([c] ++ s). constructor; [constructor |]; assumption.
Qed.

Lemma lang_plus_class p s :
  lang (Plus (Class p)) s <-> s <> [] /\ Forall (fun c => p c = true) s.
Proof.
  unfold Plus. split.
  - intros H. inversion H as [| | a b s1 t H1 H2 | | | |]; subst.
    inversion H1; subst. apply lang_star_class in H2. simpl.
    split; [discriminate | constructor; assumption].
  - intros [Hne Hall]. destruct Hall as [| c s Hc Hs]; [congruence |].
    change (c :: s) with ([c] ++ s).
    constructor; [constructor; assumption | apply lang_star_class; assumption].
Qed.

Lemma lang_dollar s : lang Dollar s <-> s = [] \/ s = ["010"%char].
Proof.
  unfold Dollar, Opt, Chr. split.
  - intros H. inversion H as [| | | a b s0 Hl | a b s0 Hr | |]; subst.
    + inversion Hl; auto.
    + inversion Hr as [| p c Hc | | | | |]; subst.
      apply Ascii.eqb_eq in Hc. subst. auto.
  - intros [-> | ->]; [apply lang_alt_l; constructor |].
    apply lang_alt_r. constructor. reflexivity.
Qed.

End RegexFacts.

(** ** Validators *)

Lemma chars_nonempty (s : string) : list_ascii_of_string s <> [] <-> s <> "".
Proof. destruct s; simpl; split; congruence. Qed.

Lemma re_match_plus_class p s :
  p "010"%char = true ->
  Regex.re_match (Regex.Plus (Regex.Class p)) s = true <->
  s <> "" /\ Forall (fun c => p c = true) (list_ascii_of_string s).
Proof.
  intros HLF. unfold Regex.re_match.
  rewrite RegexFacts.matches_lang, <- chars_nonempty. split.
  - intros H. inversion H as [| | a b s1 t H1 H2 | | | |]; subst.
    apply RegexFacts.lang_plus_class in H1 as [Hne Hall].
    apply RegexFacts.lang_dollar in H2. split.
    + destruct s1; [congruence | discriminate].
    + apply Forall_app. split; [assumption |].
      destruct H2 as [-> | ->]; repeat constructor. assumption.
  - intros [Hne Hall].
    rewrite <- (app_nil_r (list_ascii_of_string s)). constructor.
    + apply RegexFacts.lang_plus_class. auto.
    + apply RegexFacts.lang_dollar. auto.
Qed.

(** C6, as the specification states it, fails: the name validator
    accepts a name holding a TAB, which is neither a letter nor the space
    character. *)
Lemma C6_tab_is_accepted :
  _is_valid_name name_with_tab = true /\ Spec.valid_name name_with_tab = false.
Proof. split; reflexivity. Qed.

(** C6, amended: for every string [s], the name validator returns true
    if and only if [s] is not empty and each of its characters is an ASCII
    letter or a white-space character of the class [\s] (the space, and
    also TAB, LF, VT, FF, CR, FS, GS, RS, US, NEL and NBSP). *)
Theorem C6_valid_name_iff (s : string) :
  _is_valid_name s = true <->
  s <> "" /\
  Forall (fun c => PyStr.is_letter_az c || PyStr.isspace c = true)
         (list_ascii_of_string s).
Proof.
  unfold _is_valid_name, name_re. apply re_match_plus_class. reflexivity.
Qed.

(** ** Search *)

Lemma map_filter_comm {A B} (f : A -> B) (p : B -> bool) (l : list A) :
  map f (List.filter (fun x => p (f x)) l) = List.filter p (map f l).
Proof.
  induction l as [| x l IH]; simpl; [reflexivity |].
  destruct (p (f x)); simpl; rewrite IH; reflexivity.
Qed.

Lemma filter_all {A} (p : A -> bool) (l : list A) :
  (forall x, p x = true) -> List.filter p l = l.
Proof.
  intros Hp. induction l as [| x l IH]; simpl; [reflexivity |].
  rewrite Hp, IH. reflexivity.
Qed.

Lemma contains_empty (s : string) : PyStr.contains "" s = true.
Proof. destruct s; reflexivity. Qed.

Lemma lower_char_idempotent (c : ascii) :
  PyStr.lower_char (PyStr.lower_char c) = PyStr.lower_char c.
Proof. destruct c as [[] [] [] [] [] [] [] []]; reflexivity. Qed.

Lemma lower_idempotent (s : string) : PyStr.lower (PyStr.lower s) = PyStr.lower s.
Proof.
  induction s as [| c s IH]; simpl; [reflexivity |].
  rewrite lower_char_idempotent, IH. reflexivity.
Qed.

Lemma search_contact_quiet (q : string) (st : state) :
  search_contact q false st =
  (Ok (List.filter (fun l => matches_query (PyStr.lower q) (deref st l))
                   (contacts st)), st).
Proof. reflexivity. Qed.

(** What [search_contact] computes: it changes nothing and returns, in
    the order of the store, the objects whose record has the lower-cased
    query in its lower-cased first name, last name or email, or in its
    phone number as stored.  The empty query returns every object. *)
Lemma search_contact_is_filter (q : string) (st : state) :
  let results := fst (search_contact q false st) in
  snd (search_contact q false st) = st /\
  (exists ls, results = Ok ls /\
     ls = List.filter (fun l => matches_query (PyStr.lower q) (deref st l))
                      (contacts st) /\
     map (deref st) ls =
       List.filter
         (fun r =>
            PyStr.contains (PyStr.lower q) (PyStr.lower (first_name r))
            || PyStr.contains (PyStr.lower q) (PyStr.lower (last_name r))
            || PyStr.contains (PyStr.lower q) (phone_number r)
            || PyStr.contains (PyStr.lower q) (PyStr.lower (email r)))
         (records st)) /\
  fst (search_contact "" false st) = Ok (contacts st) /\
  (forall r,
     matches_query (PyStr.lower (PyStr.lower q)) r
     = Spec.search_matches (PyStr.lower q) r).
Proof.
  rewrite search_contact_quiet. simpl. repeat split.
  - eexists. split; [reflexivity |]. split; [reflexivity |].
    unfold records. rewrite <- map_filter_comm. reflexivity.
  - f_equal. apply filter_all. intros l. unfold matches_query.
    rewrite contains_empty. reflexivity.
  - intros r. unfold matches_query, Spec.search_matches.
    rewrite lower_idempotent.
    destruct (PyStr.contains _ (PyStr.lower (first_name r)));
      destruct (PyStr.contains _ (PyStr.lower (last_name r)));
      destruct (PyStr.contains _ (phone_number r));
      destruct (PyStr.contains _ (PyStr.lower (email r))); reflexivity.
Qed.

(** C1: the search misses a phone number that holds the query as typed.
    A store loaded from a file holds one record, whose phone number is
    [555X].  The query [X] occurs as typed in that phone number, so the
    rule of the specification makes the record a result; the documentation
    of [search_contact] too, which looks for the query in the phone number
    and calls the search case-insensitive.  The code returns nothing: it
    lower-cases the query (line 399) and looks for it in the phone number
    as stored (line 402), where the three other fields are lower-cased as
    well, so that the same record is found by [ROE] and by [BOB@Y]. *)
Lemma C1_upper_case_phone_query_misses :
  let text := Json.dumps (Json.JArr [Contact_dict bob]) in
  let st := snd (init (J := python_json) (state_of (Some text) [] [])) in
  records st = [bob] /\
  Spec.search_matches "X" bob = true /\
  fst (search_contact "X" false st) = Ok [] /\
  fst (search_contact "ROE" false st) = Ok (contacts st) /\
  fst (search_contact "BOB@Y" false st) = Ok (contacts st).
Proof. repeat split; vm_compute; reflexivity. Qed.

(** ** Steps of the console *)

Ltac run_monad :=
  cbv beta iota delta [bind ret get modify raise emit print print_in_color
                       read_answer read_line printed records deref
                       set_file set_stdin set_stdout set_heap set_contacts
                       file stdin stdout heap contacts] in *;
  simpl in *.

Lemma state_eta (st : state) :
  mkState (file st) (stdin st) (stdout st) (heap st) (contacts st) = st.
Proof. destruct st; reflexivity. Qed.

Lemma set_stdin_same (st : state) : set_stdin (stdin st) st = st.
Proof. destruct st; reflexivity. Qed.

Lemma read_answer_cons (line : string) (rest : list string) (st : state) :
  stdin st = line :: rest ->
  read_answer st = (Ok (PyStr.lower (PyStr.strip line)), set_stdin rest st).
Proof. intros H. run_monad. rewrite H. reflexivity. Qed.


Lemma is_same_eq (f l p e : string) (c : Contact) :
  is_same f l p e c = true <-> c = mkContact f l p e.
Proof.
  unfold is_same. rewrite !andb_true_iff, !String.eqb_eq. destruct c; simpl.
  split; [intros [[[-> ->] ->] ->]; reflexivity | intros [= -> -> -> ->]; auto].
Qed.

Lemma existsb_is_same (f l p e : string) (rs : list Contact) :
  existsb (is_same f l p e) rs = true <-> In (mkContact f l p e) rs.
Proof.
  rewrite existsb_exists. split.
  - intros [c [Hin Hc]]. apply is_same_eq in Hc. subst. assumption.
  - intros Hin. eexists. split; [eassumption | apply is_same_eq; reflexivity].
Qed.

(** ** Adding a duplicate *)

Section AddFacts.
Context {J : JsonLib}.

Lemma add_contact_given_duplicate_no (f l p e answer : string)
    (rest : list string) (st : state) :
  In (mkContact f l p e) (records st) ->
  stdin st = answer :: rest ->
  says_yes answer = false ->
  add_contact (Some f) (Some l) (Some p) (Some e) st =
  (Ok tt,
   printed
     [Colored
        "This contact already exists. Do you want to add it anyway? (y/n): "
        "red";
      Colored "Contact not added." "red"]
     (set_stdin rest st)).
Proof.
  intros Hin Hstdin Hno. apply existsb_is_same in Hin.
  unfold says_yes in Hno.
  unfold add_contact, given_or_asked, _is_duplicate. run_monad.
  unfold records in *. simpl. rewrite Hin, Hstdin. simpl. rewrite Hno. simpl.
  rewrite <- app_assoc. reflexivity.
Qed.

Lemma get_valid_input_valid (prompt error_message line : string)
    (validation_func : string -> bool) (rest : list string) (st : state) :
  stdin st = line :: rest ->
  validation_func (PyStr.strip line) = true ->
  get_valid_input prompt validation_func error_message st =
  (Ok (PyStr.strip line), printed [Prompt prompt] (set_stdin rest st)).
Proof.
  intros Hstdin Hvalid. unfold get_valid_input. run_monad.
  rewrite Hstdin. run_monad. rewrite Hvalid. reflexivity.
Qed.

(** The same when the four fields are typed in. *)
Lemma add_contact_typed_duplicate_no (lf ll lp le answer : string)
    (rest : list string) (st : state) :
  stdin st = lf :: ll :: lp :: le :: answer :: rest ->
  _is_valid_name (PyStr.strip lf) = true ->
  _is_valid_name (PyStr.strip ll) = true ->
  _is_valid_phone (PyStr.strip lp) = true ->
  _is_valid_email (PyStr.strip le) = true ->
  In (mkContact (PyStr.strip lf) (PyStr.strip ll) (PyStr.strip lp)
                (PyStr.strip le)) (records st) ->
  says_yes answer = false ->
  exists st',
    add_contact None None None None st = (Ok tt, st') /\
    contacts st' = contacts st /\ heap st' = heap st /\ file st' = file st.
Proof.
  intros Hstdin Hf Hl Hp He Hin Hno. apply existsb_is_same in Hin.
  unfold says_yes in Hno.
  unfold add_contact, given_or_asked, bind at 1.
  erewrite get_valid_input_valid by eassumption.
  unfold bind at 1. erewrite get_valid_input_valid by (simpl; eauto).
  unfold bind at 1. erewrite get_valid_input_valid by (simpl; eauto).
  unfold bind at 1. erewrite get_valid_input_valid by (simpl; eauto).
  unfold _is_duplicate. run_monad. unfold records in *. simpl.
  rewrite Hin. simpl. rewrite Hno. simpl.
  eexists. split; [reflexivity |]. simpl. auto.
Qed.

End AddFacts.

(** C8: for every store holding a record with the fields (f, l, p, e),
    [add] called with exactly these four values and answered anything but
    yes at the override question returns normally and leaves the sequence
    of the store as it was, same size and same contents; nothing is
    appended and the file is not written. *)
Theorem C8_declined_duplicate_leaves_store {J : JsonLib}
    (f l p e answer : string) (rest : list string) (st : state) :
  In (mkContact f l p e) (records st) ->
  stdin st = answer :: rest ->
  says_yes answer = false ->
  exists st',
    add_contact (Some f) (Some l) (Some p) (Some e) st = (Ok tt, st') /\
    contacts st' = contacts st /\
    heap st' = heap st /\
    records st' = records st /\
    length (records st') = length (records st) /\
    file st' = file st.
Proof.
  intros Hin Hstdin Hno.
  rewrite (add_contact_given_duplicate_no f l p e answer rest st Hin Hstdin Hno).
  eexists. split; [reflexivity |]. simpl. auto.
Qed.

Lemma C8_witness :
  In (mkContact "Jane" "Roe" "555" "jane@x.com")
     (records (state_of None ["No"] [jane_a])) /\
  stdin (state_of None ["No"] [jane_a]) = ["No"] /\
  says_yes "No" = false /\
  exists st',
    add_contact (J := python_json) (Some "Jane") (Some "Roe") (Some "555")
      (Some "jane@x.com") (state_of None ["No"] [jane_a]) = (Ok tt, st') /\
    contacts st' = contacts (state_of None ["No"] [jane_a]) /\
    heap st' = heap (state_of None ["No"] [jane_a]) /\
    records st' = records (state_of None ["No"] [jane_a]) /\
    length (records st') = length (records (state_of None ["No"] [jane_a])) /\
    file st' = file (state_of None ["No"] [jane_a]).
Proof.
  assert (H1 : In (mkContact "Jane" "Roe" "555" "jane@x.com")
                  (records (state_of None ["No"] [jane_a])))
    by (vm_compute; left; reflexivity).
  assert (H2 : stdin (state_of None ["No"] [jane_a]) = ["No"]) by reflexivity.
  assert (H3 : says_yes "No" = false) by reflexivity.
  split; [exact H1 |]. split; [exact H2 |]. split; [exact H3 |].
  exact (C8_declined_duplicate_leaves_store (J := python_json)
           "Jane" "Roe" "555" "jane@x.com" "No" [] _ H1 H2 H3).
Defined.

(** ** Selection among the results *)

Lemma printed_nil (st : state) : printed [] st = st.
Proof. unfold printed, set_stdout. rewrite app_nil_r. apply state_eta. Qed.

Lemma printed_printed (e1 e2 : list event) (st : state) :
  printed e2 (printed e1 st) = printed (e1 ++ e2) st.
Proof. unfold printed, set_stdout. simpl. rewrite app_assoc. reflexivity. Qed.

Lemma enumeration_ext (st st' : state) (i : nat) (results : list loc) :
  heap st' = heap st -> enumeration st' i results = enumeration st i results.
Proof.
  intros Hheap. revert i. induction results as [| c rest IH]; intros i; simpl.
  - reflexivity.
  - unfold deref. rewrite Hheap, IH. reflexivity.
Qed.

Lemma print_enumerated_run (results : list loc) :
  forall i st,
    print_enumerated i results st = (Ok tt, printed (enumeration st i results) st).
Proof.
  induction results as [| c rest IH]; intros i st; simpl.
  - rewrite printed_nil. reflexivity.
  - unfold bind at 1. unfold get. unfold bind at 1.
    change (print ?t st) with (Ok tt, printed [Plain t] st).
    cbv beta iota. rewrite IH, printed_printed.
    rewrite (enumeration_ext st (printed _ st)) by reflexivity. reflexivity.
Qed.

Lemma same_store_refl (st : state) : same_store st st.
Proof. repeat split. Qed.

Lemma same_store_trans (a b c : state) :
  same_store a b -> same_store b c -> same_store a c.
Proof.
  unfold same_store. intros (H1 & H2 & H3) (H4 & H5 & H6).
  repeat split; congruence.
Qed.

Lemma select_on_same_store (results : list loc) (lines : list string) :
  forall st,
    same_store st (snd (select_on results lines st)) /\
    (forall c, fst (select_on results lines st) = Ok c -> In c results).
Proof.
  induction lines as [| line rest IH]; intros st.
  - simpl. run_monad. split; [repeat split | discriminate].
  - simpl. unfold bind at 1. unfold emit at 1, modify at 1.
    unfold bind at 1. unfold modify at 1.
    set (st1 := set_stdin rest (set_stdout _ st)).
    assert (Hst1 : same_store st st1) by (repeat split).
    destruct (PyStr.int line) as [n |].
    + destruct ((0 <=? n - 1)%Z && (n - 1 <? Z.of_nat (length results))%Z).
      * destruct (results !! Z.to_nat (n - 1)) as [c |] eqn:Hc.
        -- run_monad. split; [exact Hst1 |].
           intros c0 [= <-]. apply list_elem_of_In.
           eapply list_elem_of_lookup_2. eassumption.
        -- run_monad. split; [exact Hst1 | discriminate].
      * unfold bind at 1. unfold print_in_color at 1, emit, modify.
        destruct (IH (set_stdout (stdout st1 ++ [Colored
          "Invalid selection. Please enter an index number corresponding to one of the contacts listed."
          "red"]) st1)) as [Hs Hr].
        split; [| exact Hr].
        eapply same_store_trans; [| exact Hs]. exact Hst1.
    + unfold bind at 1. unfold print_in_color at 1, emit, modify.
      destruct (IH (set_stdout (stdout st1 ++ [Colored
        "Invalid input. Please enter a valid index number." "red"]) st1))
        as [Hs Hr].
      split; [| exact Hr].
      eapply same_store_trans; [| exact Hs]. exact Hst1.
Qed.

Lemma select_single (c : loc) (st : state) :
  _select_contact_from_results [c] st = (Ok c, st).
Proof. reflexivity. Qed.

Lemma select_empty_raises (st : state) :
  _select_contact_from_results [] st = (Raise IndexError, st).
Proof. reflexivity. Qed.

Lemma select_many (results : list loc) (st : state) :
  (1 <? length results)%nat = true ->
  _select_contact_from_results results st =
  select_on results (stdin st) (printed (enumeration st 0 results) st).
Proof.
  intros Hlen. unfold _select_contact_from_results. rewrite Hlen.
  unfold bind at 1. rewrite print_enumerated_run. reflexivity.
Qed.

Lemma select_same_store (results : list loc) (st : state) :
  same_store st (snd (_select_contact_from_results results st)) /\
  (forall c, fst (_select_contact_from_results results st) = Ok c ->
             In c results).
Proof.
  destruct (1 <? length results)%nat eqn:Hlen.
  - rewrite (select_many _ _ Hlen).
    destruct (select_on_same_store results (stdin st)
                (printed (enumeration st 0 results) st)) as [Hs Hr].
    split; [| exact Hr].
    eapply same_store_trans; [| exact Hs]. repeat split.
  - unfold _select_contact_from_results. rewrite Hlen.
    destruct results as [| c rest]; simpl.
    + split; [apply same_store_refl | discriminate].
    + split; [apply same_store_refl |]. intros c0 [= <-]. left. reflexivity.
Qed.

Lemma select_on_accept (results : list loc) (line : string)
    (rest : list string) (i : Z) (st : state) :
  PyStr.int line = Some i ->
  (1 <= i <= Z.of_nat (length results))%Z ->
  exists c,
    results !! Z.to_nat (i - 1) = Some c /\
    select_on results (line :: rest) st =
    (Ok c, printed [Prompt select_prompt] (set_stdin rest st)).
Proof.
  intros Hint Hrange.
  destruct (lookup_lt_is_Some_2 results (Z.to_nat (i - 1))) as [c Hc]; [lia |].
  exists c. split; [exact Hc |].
  simpl. run_monad. rewrite Hint.
  replace ((0 <=? i - 1)%Z && (i - 1 <? Z.of_nat (length results))%Z) with true
    by (symmetry; apply andb_true_iff; split;
        [apply Z.leb_le | apply Z.ltb_lt]; lia).
  rewrite Hc. reflexivity.
Qed.

Lemma select_on_reject (results : list loc) (line : string)
    (rest : list string) (st : state) :
  (forall i, PyStr.int line = Some i ->
             (i < 1 \/ Z.of_nat (length results) < i)%Z) ->
  select_on results (line :: rest) st =
  select_on results rest
    (printed [Prompt select_prompt; refusal results line] (set_stdin rest st)).
Proof.
  intros Hbad. unfold refusal.
  destruct (PyStr.int line) as [i |] eqn:Hint.
  - simpl. run_monad. rewrite Hint.
    replace ((0 <=? i - 1)%Z && (i - 1 <? Z.of_nat (length results))%Z) with false
      by (symmetry; apply andb_false_iff; destruct (Hbad i eq_refl);
          [left; apply Z.leb_gt | right; apply Z.ltb_ge]; lia).
    rewrite <- app_assoc. reflexivity.
  - simpl. run_monad. rewrite Hint. rewrite <- app_assoc. reflexivity.
Qed.

Lemma select_on_accepts (results : list loc) (bad : list string)
    (line : string) (rest : list string) (i : Z) :
  Forall (index_refused (length results)) bad ->
  PyStr.int line = Some i ->
  (1 <= i <= Z.of_nat (length results))%Z ->
  forall st,
    exists c,
      results !! Z.to_nat (i - 1) = Some c /\
      select_on results (bad ++ line :: rest) st =
      (Ok c,
       printed (refusals results bad ++ [Prompt select_prompt])
               (set_stdin rest st)).
Proof.
  intros Hbad Hint Hrange.
  induction Hbad as [| b bad Hb _ IH]; intros st.
  - apply (select_on_accept results line rest i st Hint Hrange).
  - cbn [app]. rewrite (select_on_reject results b _ st Hb).
    destruct (IH (printed [Prompt select_prompt; refusal results b]
                          (set_stdin (bad ++ line :: rest) st)))
      as (c & Hc & Hrun).
    exists c. split; [exact Hc |]. rewrite Hrun. f_equal.
    unfold refusals, printed, set_stdout, set_stdin.
    cbn [file stdin stdout heap contacts flat_map].
    rewrite <- !List.app_assoc. reflexivity.
Qed.

Lemma select_on_runs_out (results : list loc) (bad : list string) :
  Forall (index_refused (length results)) bad ->
  forall st,
    stdin st = bad ->
    select_on results bad st =
    (Raise EOFError,
     printed (refusals results bad ++ [Prompt select_prompt])
             (set_stdin [] st)).
Proof.
  intros Hbad. induction Hbad as [| b bad Hb _ IH]; intros st Hin.
  - simpl. unfold bind, emit, modify, raise. simpl.
    rewrite <- Hin, set_stdin_same. reflexivity.
  - rewrite (select_on_reject results b _ st Hb).
    rewrite IH by reflexivity. f_equal.
    unfold refusals, printed, set_stdout, set_stdin.
    cbn [file stdin stdout heap contacts flat_map].
    rewrite <- !List.app_assoc. reflexivity.
Qed.

Section SelectionFacts.
Context {J : JsonLib}.

Lemma modify_contact_no_match (q : string) (st : state) :
  fst (search_contact q false st) = Ok [] ->
  modify_contact q st = (Ok tt, printed [Colored "No contacts found." "red"] st).
Proof.
  rewrite search_contact_quiet. simpl. intros [= Hnone].
  unfold modify_contact, bind at 1. rewrite search_contact_quiet, Hnone.
  reflexivity.
Qed.

Lemma delete_contact_no_match (q : string) (st : state) :
  fst (search_contact q false st) = Ok [] ->
  delete_contact q st = (Ok tt, printed [Colored "No contacts found." "red"] st).
Proof.
  rewrite search_contact_quiet. simpl. intros [= Hnone].
  unfold delete_contact, bind at 1. rewrite search_contact_quiet, Hnone.
  reflexivity.
Qed.

End SelectionFacts.

(** C9, as the specification states it, fails on the empty result set:
    [_select_contact_from_results] called on no result signals nothing,
    it raises [IndexError]. *)
Lemma C9_empty_selection_raises :
  _select_contact_from_results [] blank_state = (Raise IndexError, blank_state).
Proof. reflexivity. Qed.

(** C9, amended: selection from the results.  (1) A result set of one
    element gives that element at once: nothing is printed and no line
    is read.  (2) With n > 1 results the numbered list is printed, then,
    for each line read, the prompt.  Every line that is not a number, or
    is a number outside 1..n, is refused with a message and the next line
    is asked for, however many such lines there are; the first line that
    [int] reads as i, 1 <= i <= n, selects the i-th result, and the lines
    after it are left unread.  No element is ever taken for a line that
    is refused: (3) when every line left is refused the selection ends by
    [EOFError] without a result.  (4) The selection is made on result
    sets that are not empty only: when the search finds nothing, [modify]
    and [delete] do not call it, print [No contacts found.] and return
    normally. *)
Theorem C9_selection_from_results {J : JsonLib} :
  (forall (c : loc) (st : state),
     _select_contact_from_results [c] st = (Ok c, st)) /\
  (forall (results : list loc) (bad : list string) (line : string)
          (rest : list string) (i : Z) (st : state),
     (1 < length results)%nat ->
     stdin st = bad ++ line :: rest ->
     Forall (index_refused (length results)) bad ->
     PyStr.int line = Some i ->
     (1 <= i <= Z.of_nat (length results))%Z ->
     exists c,
       results !! Z.to_nat (i - 1) = Some c /\
       _select_contact_from_results results st =
       (Ok c,
        printed (enumeration st 0 results ++ refusals results bad
                 ++ [Prompt select_prompt])
                (set_stdin rest st))) /\
  (forall (results : list loc) (bad : list string) (st : state),
     (1 < length results)%nat ->
     stdin st = bad ->
     Forall (index_refused (length results)) bad ->
     _select_contact_from_results results st =
     (Raise EOFError,
      printed (enumeration st 0 results ++ refusals results bad
               ++ [Prompt select_prompt])
              (set_stdin [] st))) /\
  (forall (q : string) (st : state),
     fst (search_contact q false st) = Ok [] ->
     modify_contact q st
       = (Ok tt, printed [Colored "No contacts found." "red"] st) /\
     delete_contact q st
       = (Ok tt, printed [Colored "No contacts found." "red"] st)).
Proof.
  split; [exact select_single |]. split; [| split].
  - intros results bad line rest i st Hlen Hstdin Hbad Hint Hrange.
    apply Nat.ltb_lt in Hlen. rewrite (select_many _ _ Hlen), Hstdin.
    destruct (select_on_accepts results bad line rest i Hbad Hint Hrange
                (printed (enumeration st 0 results) st))
      as [c [Hc Hrun]].
    exists c. split; [exact Hc |]. rewrite Hrun. f_equal.
    unfold printed, set_stdout, set_stdin.
    cbn [file stdin stdout heap contacts].
    rewrite <- !List.app_assoc. reflexivity.
  - intros results bad st Hlen Hstdin Hbad.
    apply Nat.ltb_lt in Hlen. rewrite (select_many _ _ Hlen), Hstdin.
    rewrite (select_on_runs_out results bad Hbad) by (subst bad; reflexivity).
    f_equal. unfold printed, set_stdout, set_stdin.
    cbn [file stdin stdout heap contacts].
    rewrite <- !List.app_assoc. reflexivity.
  - intros q st Hnone. split;
      [apply modify_contact_no_match | apply delete_contact_no_match];
      exact Hnone.
Qed.

Lemma C9_witness :
  let janes := [jane_a; jane_b] in
  let st := state_of None ["x"; "0"; "3"; " 2 "; "y"] janes in
  let st' := state_of None ["x"; "7"] janes in
  ((1 < length [0; 1])%nat /\
   stdin st = ["x"; "0"; "3"] ++ " 2 " :: ["y"] /\
   Forall (index_refused (length [0; 1])) ["x"; "0"; "3"] /\
   PyStr.int " 2 " = Some 2%Z /\
   (1 <= 2 <= Z.of_nat (length [0; 1]))%Z) /\
  (exists c,
     [0; 1] !! Z.to_nat (2 - 1) = Some c /\
     _select_contact_from_results [0; 1] st =
     (Ok c,
      printed (enumeration st 0 [0; 1] ++ refusals [0; 1] ["x"; "0"; "3"]
               ++ [Prompt select_prompt])
              (set_stdin ["y"] st))) /\
  (stdin st' = ["x"; "7"] /\
   Forall (index_refused (length [0; 1])) ["x"; "7"]) /\
  (_select_contact_from_results [0; 1] st' =
   (Raise EOFError,
    printed (enumeration st' 0 [0; 1] ++ refusals [0; 1] ["x"; "7"]
             ++ [Prompt select_prompt])
            (set_stdin [] st'))) /\
  fst (search_contact "zzz" false st) = Ok [] /\
  modify_contact (J := python_json) "zzz" st
    = (Ok tt, printed [Colored "No contacts found." "red"] st).
Proof.
  intros janes st st'.
  destruct (C9_selection_from_results (J := python_json))
    as (_ & Hmany & Hout & Hnone).
  assert (H1 : (1 < length [0; 1])%nat) by (simpl; lia).
  assert (H2 : stdin st = ["x"; "0"; "3"] ++ " 2 " :: ["y"]) by reflexivity.
  assert (H3 : Forall (index_refused (length [0; 1])) ["x"; "0"; "3"])
    by (repeat (constructor;
                [intros i Hi; vm_compute in Hi;
                 first [discriminate | injection Hi as <-; simpl; lia] |]);
        constructor).
  assert (H4 : PyStr.int " 2 " = Some 2%Z) by reflexivity.
  assert (H5 : (1 <= 2 <= Z.of_nat (length [0; 1]))%Z) by (simpl; lia).
  assert (H6 : stdin st' = ["x"; "7"]) by reflexivity.
  assert (H7 : Forall (index_refused (length [0; 1])) ["x"; "7"])
    by (repeat (constructor;
                [intros i Hi; vm_compute in Hi;
                 first [discriminate | injection Hi as <-; simpl; lia] |]);
        constructor).
  assert (H8 : fst (search_contact "zzz" false st) = Ok []) by reflexivity.
  split; [auto |].
  split; [exact (Hmany [0; 1] ["x"; "0"; "3"] " 2 " ["y"] 2%Z st H1 H2 H3 H4 H5) |].
  split; [auto |].
  split; [exact (Hout [0; 1] ["x"; "7"] st' H1 H6 H7) |].
  split; [exact H8 |].
  exact (proj1 (Hnone "zzz" st H8)).
Defined.

(** ** Modification *)

Lemma bind_ok {A B} (m : M A) (f : A -> M B) (a : A) (st st' : state) :
  m st = (Ok a, st') -> bind m f st = f a st'.
Proof. intros H. unfold bind. rewrite H. reflexivity. Qed.

Lemma index_of_lookup (c : loc) (l : list loc) :
  forall i, index_of c l = Some i -> l !! i = Some c.
Proof.
  induction l as [| x l IH]; intros i; simpl; [discriminate |].
  destruct (Nat.eqb x c) eqn:Hx.
  - intros [= <-]. apply Nat.eqb_eq in Hx. subst. reflexivity.
  - destruct (index_of c l) as [j |]; simpl; [| discriminate].
    intros [= <-]. simpl. apply IH. reflexivity.
Qed.

Lemma index_of_In (c : loc) (l : list loc) :
  In c l -> exists i, index_of c l = Some i.
Proof.
  induction l as [| x l IH]; simpl; [intros [] |].
  intros Hin. destruct (Nat.eqb x c) eqn:Hx; [eauto |].
  destruct Hin as [-> | Hin]; [rewrite Nat.eqb_refl in Hx; discriminate |].
  destruct (IH Hin) as [i ->]. simpl. eauto.
Qed.

Lemma get_new_value_accept (prompt error_message current line : string)
    (validation_func : string -> bool) (rest : list string) (st : state) :
  stdin st = line :: rest ->
  blank_or_valid validation_func line = true ->
  get_new_value prompt validation_func error_message current st =
  (Ok (kept_or_new current line), printed [Prompt prompt] (set_stdin rest st)).
Proof.
  intros Hstdin Hok. unfold get_new_value, blank_or_valid, kept_or_new in *.
  unfold bind at 1, get. rewrite Hstdin. simpl. run_monad.
  destruct (String.eqb (PyStr.strip line) ""); [reflexivity |].
  simpl in Hok. rewrite Hok. reflexivity.
Qed.

Lemma get_new_value_reject (prompt error_message current line : string)
    (validation_func : string -> bool) (rest : list string) (st : state) :
  stdin st = line :: rest ->
  blank_or_valid validation_func line = false ->
  get_new_value prompt validation_func error_message current st =
  get_new_value prompt validation_func error_message current
    (printed [Prompt prompt; Colored error_message "red"] (set_stdin rest st)).
Proof.
  intros Hstdin Hbad. unfold get_new_value, blank_or_valid in *.
  apply orb_false_iff in Hbad as [Hblank Hvalid].
  unfold bind at 1, get. rewrite Hstdin. simpl.
  unfold bind at 1, emit at 1, modify at 1. unfold bind at 1, modify at 1.
  rewrite Hblank, Hvalid. simpl.
  unfold bind at 1, print_in_color at 1, emit at 1, modify at 1.
  unfold bind. simpl.
  unfold printed, set_stdout, set_stdin. simpl. rewrite <- app_assoc.
  reflexivity.
Qed.

Lemma get_new_value_on_accepts (prompt error_message current : string)
    (validation_func : string -> bool) (bad : list string) (good : string)
    (rest : list string) :
  Forall (fun l => blank_or_valid validation_func l = false) bad ->
  blank_or_valid validation_func good = true ->
  forall st,
    get_new_value_on prompt validation_func error_message current
      (bad ++ good :: rest) st =
    (Ok (kept_or_new current good),
     printed (rejections prompt error_message bad ++ [Prompt prompt])
             (set_stdin rest st)).
Proof.
  intros Hbad Hgood. unfold blank_or_valid, kept_or_new in *.
  induction Hbad as [| line bad Hline _ IH]; intros st; simpl.
  - unfold bind, emit, modify, ret. simpl.
    destruct (String.eqb (PyStr.strip good) ""); [reflexivity |].
    simpl in Hgood. rewrite Hgood. reflexivity.
  - apply orb_false_iff in Hline as [Hblank Hvalid].
    unfold bind at 1, emit at 1, modify at 1. unfold bind at 1, modify at 1.
    rewrite Hblank, Hvalid. change (negb false) with true. cbv iota.
    unfold bind at 1, print_in_color at 1, emit at 1, modify at 1.
    rewrite IH. f_equal.
    unfold printed, set_stdout, set_stdin. simpl.
    rewrite <- !List.app_assoc. reflexivity.
Qed.

Lemma get_new_value_on_runs_out (prompt error_message current : string)
    (validation_func : string -> bool) (bad : list string) :
  Forall (fun l => blank_or_valid validation_func l = false) bad ->
  forall st,
    stdin st = bad ->
    get_new_value_on prompt validation_func error_message current bad st =
    (Raise EOFError,
     printed (rejections prompt error_message bad ++ [Prompt prompt])
             (set_stdin [] st)).
Proof.
  intros Hbad. unfold blank_or_valid in *.
  induction Hbad as [| line bad Hline _ IH]; intros st Hin; simpl.
  - unfold bind, emit, modify, raise. simpl.
    rewrite <- Hin, set_stdin_same. reflexivity.
  - apply orb_false_iff in Hline as [Hblank Hvalid].
    unfold bind at 1, emit at 1, modify at 1. unfold bind at 1, modify at 1.
    rewrite Hblank, Hvalid. change (negb false) with true. cbv iota.
    unfold bind at 1, print_in_color at 1, emit at 1, modify at 1.
    rewrite IH by reflexivity. f_equal.
    unfold printed, set_stdout, set_stdin. simpl.
    rewrite <- !List.app_assoc. reflexivity.
Qed.

Lemma get_new_value_accepts (prompt error_message current : string)
    (validation_func : string -> bool) (bad : list string) (good : string)
    (rest : list string) (st : state) :
  stdin st = bad ++ good :: rest ->
  Forall (fun l => blank_or_valid validation_func l = false) bad ->
  blank_or_valid validation_func good = true ->
  get_new_value prompt validation_func error_message current st =
  (Ok (kept_or_new current good),
   printed (rejections prompt error_message bad ++ [Prompt prompt])
           (set_stdin rest st)).
Proof.
  intros Hin Hbad Hgood. unfold get_new_value, bind, get.
  rewrite Hin. apply get_new_value_on_accepts; assumption.
Qed.

Lemma lines_refused_Forall (validation_func : string -> bool)
    (bad : list string) :
  lines_refused validation_func bad = true ->
  Forall (fun l => blank_or_valid validation_func l = false) bad.
Proof.
  unfold lines_refused. intros H. apply andb_true_iff in H as [H _].
  rewrite forallb_forall in H. apply List.Forall_forall. intros l Hl.
  apply negb_true_iff. apply H. exact Hl.
Qed.

Lemma assign_at_run (index : nat) (c : loc) (update : Contact -> Contact)
    (st : state) :
  contacts st !! index = Some c ->
  assign_at index update st = (Ok tt, rewritten c (update (deref st c)) st).
Proof.
  intros Hc. unfold assign_at, bind, get. rewrite Hc. reflexivity.
Qed.

Lemma rewritten_rewritten (c : loc) (r1 r2 : Contact) (st : state) :
  rewritten c r2 (rewritten c r1 st) = rewritten c r2 st.
Proof.
  unfold rewritten, set_heap. simpl. rewrite insert_insert_eq. reflexivity.
Qed.

Lemma deref_rewritten (c : loc) (r : Contact) (st : state) :
  deref (rewritten c r st) c = r.
Proof. unfold deref, rewritten. simpl. apply lookup_total_insert_eq. Qed.

Lemma deref_rewritten_other (c l : loc) (r : Contact) (st : state) :
  l <> c -> deref (rewritten c r st) l = deref st l.
Proof.
  intros Hne. unfold deref, rewritten. simpl.
  apply lookup_total_insert_ne. congruence.
Qed.

Section ModifyFacts.
Context {J : JsonLib}.

Lemma write_contact_run (index : nat) (c : loc) (f l p e : string) (st : state) :
  contacts st !! index = Some c ->
  write_contact index f l p e st =
  (Ok tt,
   printed [Colored "Contact modified successfully." "green"]
     (saved (rewritten c (mkContact f l p e) st))).
Proof.
  intros Hc. unfold write_contact.
  erewrite bind_ok by (apply assign_at_run; exact Hc).
  erewrite bind_ok by (apply assign_at_run; exact Hc).
  erewrite bind_ok by (apply assign_at_run; exact Hc).
  erewrite bind_ok by (apply assign_at_run; exact Hc).
  rewrite !deref_rewritten, !rewritten_rewritten.
  reflexivity.
Qed.

Lemma contacts_index_run (c : loc) (i : nat) (st : state) :
  index_of c (contacts st) = Some i -> contacts_index c st = (Ok i, st).
Proof. intros H. unfold contacts_index, bind, get. rewrite H. reflexivity. Qed.

Lemma is_duplicate_run (f l p e : string) (st : state) :
  _is_duplicate f l p e st = (Ok (existsb (is_same f l p e) (records st)), st).
Proof. reflexivity. Qed.

Lemma check_and_write_fresh (index : nat) (f l p e : string) (st : state) :
  existsb (is_same f l p e) (records st) = false ->
  check_and_write index f l p e st = write_contact index f l p e st.
Proof.
  intros Hdup. unfold check_and_write.
  rewrite (bind_ok _ _ _ _ _ (is_duplicate_run f l p e st)), Hdup. reflexivity.
Qed.

Lemma check_and_write_asks (index : nat) (f l p e answer : string)
    (rest : list string) (st : state) :
  existsb (is_same f l p e) (records st) = true ->
  stdin st = answer :: rest ->
  check_and_write index f l p e st =
  if says_yes answer
  then write_contact index f l p e (printed [override_question] (set_stdin rest st))
  else (Ok tt,
        printed [override_question; duplicate_cancel_message] (set_stdin rest st)).
Proof.
  intros Hdup Hstdin. unfold check_and_write.
  rewrite (bind_ok _ _ _ _ _ (is_duplicate_run f l p e st)), Hdup.
  unfold bind at 1, print_in_color at 1, emit at 1, modify at 1.
  erewrite bind_ok by (apply read_answer_cons; simpl; exact Hstdin).
  unfold says_yes. destruct (String.eqb _ "y"); simpl.
  - reflexivity.
  - unfold print_in_color, emit, modify, printed, set_stdout, set_stdin. simpl.
    rewrite <- app_assoc. reflexivity.
Qed.

Lemma edit_contact_run (c : loc) (index : nat) (l1 l2 l3 l4 : string)
    (rest : list string) (st : state) :
  index_of c (contacts st) = Some index ->
  stdin st = l1 :: l2 :: l3 :: l4 :: rest ->
  lines_accepted l1 l2 l3 l4 = true ->
  edit_contact c st =
  check_and_write index
    (first_name (candidate (deref st c) l1 l2 l3 l4))
    (last_name (candidate (deref st c) l1 l2 l3 l4))
    (phone_number (candidate (deref st c) l1 l2 l3 l4))
    (email (candidate (deref st c) l1 l2 l3 l4))
    (printed edit_prompts (set_stdin rest st)).
Proof.
  intros Hindex Hstdin Hok. unfold lines_accepted in Hok.
  apply andb_true_iff in Hok as [Hok H4].
  apply andb_true_iff in Hok as [Hok H3].
  apply andb_true_iff in Hok as [H1 H2].
  unfold edit_contact.
  erewrite bind_ok by (apply contacts_index_run; exact Hindex).
  unfold bind at 1, get.
  erewrite bind_ok by (eapply get_new_value_accept; [exact Hstdin | exact H1]).
  erewrite bind_ok by (eapply get_new_value_accept; [reflexivity | exact H2]).
  erewrite bind_ok by (eapply get_new_value_accept; [reflexivity | exact H3]).
  erewrite bind_ok by (eapply get_new_value_accept; [reflexivity | exact H4]).
  simpl. f_equal.
  unfold printed, set_stdout, set_stdin, edit_prompts. simpl.
  rewrite <- !app_assoc. reflexivity.
Qed.

Lemma modify_selected_run (c : loc) (confirm : string) (lines : list string)
    (st : state) :
  stdin st = confirm :: lines ->
  modify_selected c st =
  if says_yes confirm
  then edit_contact c (printed (modify_banner st c) (set_stdin lines st))
  else (Ok tt,
        printed (modify_banner st c ++ [Colored "Modification cancelled." "red"])
                (set_stdin lines st)).
Proof.
  intros Hstdin. unfold modify_selected.
  unfold bind at 1, print at 1, emit at 1, modify at 1.
  unfold bind at 1, get.
  unfold bind at 1, print at 1, emit at 1, modify at 1.
  unfold bind at 1, print_in_color at 1, emit at 1, modify at 1.
  erewrite bind_ok by (apply read_answer_cons; simpl; exact Hstdin).
  unfold says_yes. destruct (String.eqb _ "y"); simpl.
  - f_equal. unfold printed, set_stdout, set_stdin, modify_banner. simpl.
    rewrite <- !app_assoc. reflexivity.
  - unfold print_in_color, emit, modify, printed, set_stdout, set_stdin,
      modify_banner. simpl. rewrite <- !app_assoc. reflexivity.
Qed.

Lemma modify_contact_selected (q : string) (c : loc) (st st1 : state) :
  _select_contact_from_results
    (List.filter (fun l => matches_query (PyStr.lower q) (deref st l))
                 (contacts st)) st = (Ok c, st1) ->
  modify_contact q st = modify_selected c st1.
Proof.
  intros Hsel. unfold modify_contact.
  rewrite (bind_ok _ _ _ _ _ (search_contact_quiet q st)).
  destruct (List.filter _ (contacts st)) as [| x results] eqn:Hres.
  - rewrite select_empty_raises in Hsel. discriminate.
  - rewrite (bind_ok _ _ _ _ _ Hsel). reflexivity.
Qed.

Lemma modify_selected_commits (c : loc) (confirm l1 l2 l3 l4 : string)
    (rest rest' : list string) (events : list event) (st : state) :
  In c (contacts st) ->
  stdin st = confirm :: l1 :: l2 :: l3 :: l4 :: rest ->
  says_yes confirm = true ->
  lines_accepted l1 l2 l3 l4 = true ->
  override_given (in_store (candidate (deref st c) l1 l2 l3 l4) st) rest
    = Some (events, rest') ->
  modify_selected c st =
  (Ok tt,
   committed c (candidate (deref st c) l1 l2 l3 l4)
     (modify_banner st c ++ edit_prompts ++ events ++ [modified_message])
     rest' st).
Proof.
  intros Hin Hstdin Hyes Hlines Hgo.
  destruct (index_of_In c (contacts st) Hin) as [index Hindex].
  pose proof (index_of_lookup _ _ _ Hindex) as Hlookup.
  rewrite (modify_selected_run c confirm _ st Hstdin), Hyes.
  erewrite edit_contact_run by (try exact Hlines; try reflexivity; exact Hindex).
  change (deref (printed (modify_banner st c) (set_stdin _ st)) c)
    with (deref st c).
  set (r := candidate (deref st c) l1 l2 l3 l4) in *.
  unfold override_given, in_store in Hgo.
  destruct (existsb _ (records st)) eqn:Hdup.
  - destruct rest as [| answer rest0]; [discriminate |].
    destruct (says_yes answer) eqn:Hanswer; [| discriminate].
    injection Hgo as <- <-.
    erewrite check_and_write_asks by (try reflexivity; exact Hdup).
    rewrite Hanswer.
    erewrite write_contact_run by exact Hlookup.
    f_equal. unfold committed, saved, rewritten, printed, records, deref,
      set_file, set_heap, set_stdout, set_stdin. simpl.
    rewrite <- !app_assoc. reflexivity.
  - injection Hgo as <- <-.
    erewrite check_and_write_fresh by exact Hdup.
    erewrite write_contact_run by exact Hlookup.
    f_equal. unfold committed, saved, rewritten, printed, records, deref,
      set_file, set_heap, set_stdout, set_stdin. simpl.
    rewrite <- !app_assoc. reflexivity.
Qed.

Lemma same_store_deref (st st' : state) (l : loc) :
  same_store st st' -> deref st' l = deref st l.
Proof. intros (Hh & _ & _). unfold deref. rewrite Hh. reflexivity. Qed.

Lemma same_store_records (st st' : state) :
  same_store st st' -> records st' = records st.
Proof.
  intros (Hh & Hc & _). unfold records, deref. rewrite Hh, Hc. reflexivity.
Qed.

Lemma In_filter_results (q : string) (c : loc) (st : state) :
  In c (List.filter (fun l => matches_query (PyStr.lower q) (deref st l))
                    (contacts st)) ->
  In c (contacts st).
Proof. intros H. apply filter_In in H. tauto. Qed.

(** A modification that goes through, from the search on. *)
Lemma modify_contact_commits (q : string) (c : loc)
    (confirm l1 l2 l3 l4 : string) (rest rest' : list string)
    (events : list event) (st st1 : state) :
  _select_contact_from_results
    (List.filter (fun l => matches_query (PyStr.lower q) (deref st l))
                 (contacts st)) st = (Ok c, st1) ->
  stdin st1 = confirm :: l1 :: l2 :: l3 :: l4 :: rest ->
  says_yes confirm = true ->
  lines_accepted l1 l2 l3 l4 = true ->
  override_given (in_store (candidate (deref st c) l1 l2 l3 l4) st) rest
    = Some (events, rest') ->
  In c (contacts st) /\
  same_store st st1 /\
  modify_contact q st =
  (Ok tt,
   committed c (candidate (deref st c) l1 l2 l3 l4)
     (modify_banner st c ++ edit_prompts ++ events ++ [modified_message])
     rest' st1).
Proof.
  intros Hsel Hstdin Hyes Hlines Hgo.
  destruct (select_same_store
              (List.filter (fun l => matches_query (PyStr.lower q) (deref st l))
                           (contacts st)) st) as [Hsame Hres].
  rewrite Hsel in Hsame, Hres. simpl in Hsame, Hres.
  assert (Hin : In c (contacts st))
    by (eapply In_filter_results; apply Hres; reflexivity).
  split; [exact Hin |]. split; [exact Hsame |].
  rewrite (modify_contact_selected q c st st1 Hsel).
  assert (Hd : deref st1 c = deref st c) by (apply same_store_deref; exact Hsame).
  assert (Hb : modify_banner st1 c = modify_banner st c)
    by (unfold modify_banner; rewrite Hd; reflexivity).
  rewrite <- Hd, <- Hb.
  apply (modify_selected_commits c confirm l1 l2 l3 l4 rest rest' events st1);
    try assumption.
  - destruct Hsame as (_ & Hc & _). rewrite Hc. exact Hin.
  - rewrite Hd. unfold in_store in *.
    rewrite (same_store_records st st1 Hsame). exact Hgo.
Qed.

(** The four fields typed, the lines refused on the way included. *)
Lemma edit_contact_typed (c : loc) (index : nat) (l1 l2 l3 l4 : string)
    (bad1 bad2 bad3 bad4 rest : list string) (st : state) :
  index_of c (contacts st) = Some index ->
  stdin st = bad1 ++ l1 :: bad2 ++ l2 :: bad3 ++ l3 :: bad4 ++ l4 :: rest ->
  lines_refused _is_valid_name bad1 = true ->
  lines_refused _is_valid_name bad2 = true ->
  lines_refused _is_valid_phone bad3 = true ->
  lines_refused _is_valid_email bad4 = true ->
  lines_accepted l1 l2 l3 l4 = true ->
  edit_contact c st =
  check_and_write index
    (first_name (candidate (deref st c) l1 l2 l3 l4))
    (last_name (candidate (deref st c) l1 l2 l3 l4))
    (phone_number (candidate (deref st c) l1 l2 l3 l4))
    (email (candidate (deref st c) l1 l2 l3 l4))
    (printed (edit_events bad1 bad2 bad3 bad4) (set_stdin rest st)).
Proof.
  intros Hindex Hstdin Hb1 Hb2 Hb3 Hb4 Hok. unfold lines_accepted in Hok.
  apply lines_refused_Forall in Hb1, Hb2, Hb3, Hb4.
  apply andb_true_iff in Hok as [Hok H4].
  apply andb_true_iff in Hok as [Hok H3].
  apply andb_true_iff in Hok as [H1 H2].
  unfold edit_contact.
  erewrite bind_ok by (apply contacts_index_run; exact Hindex).
  unfold bind at 1, get.
  erewrite bind_ok
    by (eapply get_new_value_accepts; [exact Hstdin | exact Hb1 | exact H1]).
  erewrite bind_ok
    by (eapply get_new_value_accepts; [reflexivity | exact Hb2 | exact H2]).
  erewrite bind_ok
    by (eapply get_new_value_accepts; [reflexivity | exact Hb3 | exact H3]).
  erewrite bind_ok
    by (eapply get_new_value_accepts; [reflexivity | exact Hb4 | exact H4]).
  cbn [candidate first_name last_name phone_number email]. f_equal.
  unfold edit_events, printed, set_stdout, set_stdin.
  cbn [file stdin stdout heap contacts].
  rewrite <- !List.app_assoc. reflexivity.
Qed.

Lemma modify_selected_typed (c : loc) (confirm l1 l2 l3 l4 : string)
    (bad1 bad2 bad3 bad4 rest rest' : list string) (events : list event)
    (st : state) :
  In c (contacts st) ->
  stdin st
    = confirm :: bad1 ++ l1 :: bad2 ++ l2 :: bad3 ++ l3 :: bad4 ++ l4 :: rest ->
  says_yes confirm = true ->
  lines_refused _is_valid_name bad1 = true ->
  lines_refused _is_valid_name bad2 = true ->
  lines_refused _is_valid_phone bad3 = true ->
  lines_refused _is_valid_email bad4 = true ->
  lines_accepted l1 l2 l3 l4 = true ->
  override_given (in_store (candidate (deref st c) l1 l2 l3 l4) st) rest
    = Some (events, rest') ->
  modify_selected c st =
  (Ok tt,
   committed c (candidate (deref st c) l1 l2 l3 l4)
     (modify_banner st c ++ edit_events bad1 bad2 bad3 bad4 ++ events
      ++ [modified_message])
     rest' st).
Proof.
  intros Hin Hstdin Hyes Hb1 Hb2 Hb3 Hb4 Hlines Hgo.
  destruct (index_of_In c (contacts st) Hin) as [index Hindex].
  pose proof (index_of_lookup _ _ _ Hindex) as Hlookup.
  rewrite (modify_selected_run c confirm _ st Hstdin), Hyes.
  erewrite (edit_contact_typed c index l1 l2 l3 l4 bad1 bad2 bad3 bad4 rest);
    [| exact Hindex | reflexivity | assumption ..].
  change (deref (printed (modify_banner st c) (set_stdin _ st)) c)
    with (deref st c).
  set (r := candidate (deref st c) l1 l2 l3 l4) in *.
  unfold override_given, in_store in Hgo.
  destruct (existsb _ (records st)) eqn:Hdup.
  - destruct rest as [| answer rest0]; [discriminate |].
    destruct (says_yes answer) eqn:Hanswer; [| discriminate].
    injection Hgo as <- <-.
    erewrite check_and_write_asks by (try reflexivity; exact Hdup).
    rewrite Hanswer.
    erewrite write_contact_run by exact Hlookup.
    f_equal. unfold committed, saved, rewritten, printed, records, deref,
      set_file, set_heap, set_stdout, set_stdin.
    cbn [file stdin stdout heap contacts].
    rewrite <- !List.app_assoc. reflexivity.
  - injection Hgo as <- <-.
    erewrite check_and_write_fresh by exact Hdup.
    erewrite write_contact_run by exact Hlookup.
    f_equal. unfold committed, saved, rewritten, printed, records, deref,
      set_file, set_heap, set_stdout, set_stdin.
    cbn [file stdin stdout heap contacts].
    rewrite <- !List.app_assoc. reflexivity.
Qed.

(** A modification that goes through, from the search on, the lines
    refused on the way included. *)
Lemma modify_contact_typed (q : string) (c : loc)
    (confirm l1 l2 l3 l4 : string)
    (bad1 bad2 bad3 bad4 rest rest' : list string)
    (events : list event) (st st1 : state) :
  _select_contact_from_results
    (List.filter (fun l => matches_query (PyStr.lower q) (deref st l))
                 (contacts st)) st = (Ok c, st1) ->
  stdin st1
    = confirm :: bad1 ++ l1 :: bad2 ++ l2 :: bad3 ++ l3 :: bad4 ++ l4 :: rest ->
  says_yes confirm = true ->
  lines_refused _is_valid_name bad1 = true ->
  lines_refused _is_valid_name bad2 = true ->
  lines_refused _is_valid_phone bad3 = true ->
  lines_refused _is_valid_email bad4 = true ->
  lines_accepted l1 l2 l3 l4 = true ->
  override_given (in_store (candidate (deref st c) l1 l2 l3 l4) st) rest
    = Some (events, rest') ->
  In c (contacts st) /\
  same_store st st1 /\
  modify_contact q st =
  (Ok tt,
   committed c (candidate (deref st c) l1 l2 l3 l4)
     (modify_banner st c ++ edit_events bad1 bad2 bad3 bad4 ++ events
      ++ [modified_message])
     rest' st1).
Proof.
  intros Hsel Hstdin Hyes Hb1 Hb2 Hb3 Hb4 Hlines Hgo.
  destruct (select_same_store
              (List.filter (fun l => matches_query (PyStr.lower q) (deref st l))
                           (contacts st)) st) as [Hsame Hres].
  rewrite Hsel in Hsame, Hres. simpl in Hsame, Hres.
  assert (Hin : In c (contacts st))
    by (eapply In_filter_results; apply Hres; reflexivity).
  split; [exact Hin |]. split; [exact Hsame |].
  rewrite (modify_contact_selected q c st st1 Hsel).
  assert (Hd : deref st1 c = deref st c) by (apply same_store_deref; exact Hsame).
  assert (Hb : modify_banner st1 c = modify_banner st c)
    by (unfold modify_banner; rewrite Hd; reflexivity).
  rewrite <- Hd, <- Hb.
  apply (modify_selected_typed c confirm l1 l2 l3 l4 bad1 bad2 bad3 bad4
           rest rest' events st1); try assumption.
  - destruct Hsame as (_ & Hc & _). rewrite Hc. exact Hin.
  - rewrite Hd. unfold in_store in *.
    rewrite (same_store_records st st1 Hsame). exact Hgo.
Qed.



End ModifyFacts.

(** C7: in [modify], each of the four fields is kept or replaced on its
    own.  Take any modification that goes through: the target selected,
    the change confirmed, at each field any number of lines refused
    (neither blank nor valid once stripped; fewer than the interpreter
    allows nested calls) and then a line accepted (blank, or valid once
    stripped), no duplicate or the override granted.  Then the target
    ends with, in each field, its former value if the line accepted for
    that field is blank and that line stripped otherwise, whatever was
    refused before it; the list of the store is the same and every other
    object keeps its four fields.  So a valid phone number typed with the
    three other lines blank changes the phone number of the target only,
    also when it comes after phone numbers that were refused. *)
Theorem C7_fields_kept_or_replaced {J : JsonLib} (q : string) (c : loc)
    (confirm l1 l2 l3 l4 : string)
    (bad1 bad2 bad3 bad4 rest rest' : list string)
    (events : list event) (st st1 : state) :
  _select_contact_from_results
    (List.filter (fun l => matches_query (PyStr.lower q) (deref st l))
                 (contacts st)) st = (Ok c, st1) ->
  stdin st1
    = confirm :: bad1 ++ l1 :: bad2 ++ l2 :: bad3 ++ l3 :: bad4 ++ l4 :: rest ->
  says_yes confirm = true ->
  lines_refused _is_valid_name bad1 = true ->
  lines_refused _is_valid_name bad2 = true ->
  lines_refused _is_valid_phone bad3 = true ->
  lines_refused _is_valid_email bad4 = true ->
  lines_accepted l1 l2 l3 l4 = true ->
  override_given (in_store (candidate (deref st c) l1 l2 l3 l4) st) rest
    = Some (events, rest') ->
  exists st',
    modify_contact q st = (Ok tt, st') /\
    deref st' c =
      {| first_name :=
           if String.eqb (PyStr.strip l1) "" then first_name (deref st c)
           else PyStr.strip l1;
         last_name :=
           if String.eqb (PyStr.strip l2) "" then last_name (deref st c)
           else PyStr.strip l2;
         phone_number :=
           if String.eqb (PyStr.strip l3) "" then phone_number (deref st c)
           else PyStr.strip l3;
         email :=
           if String.eqb (PyStr.strip l4) "" then email (deref st c)
           else PyStr.strip l4 |} /\
    contacts st' = contacts st /\
    (forall l, l <> c -> deref st' l = deref st l) /\
    (PyStr.strip l1 = "" -> PyStr.strip l2 = "" -> PyStr.strip l4 = "" ->
     PyStr.strip l3 <> "" ->
     deref st' c = set_phone_number (PyStr.strip l3) (deref st c)) /\
    stdin st' = rest'.
Proof.
  intros Hsel Hstdin Hyes Hb1 Hb2 Hb3 Hb4 Hlines Hgo.
  destruct (modify_contact_typed q c confirm l1 l2 l3 l4 bad1 bad2 bad3 bad4
              rest rest' events st st1 Hsel Hstdin Hyes Hb1 Hb2 Hb3 Hb4
              Hlines Hgo) as (Hin & Hsame & Hrun).
  destruct Hsame as (Hheap & Hcontacts & Hfile).
  eexists. split; [exact Hrun |].
  assert (Hc : deref (committed c (candidate (deref st c) l1 l2 l3 l4)
                        (modify_banner st c ++ edit_events bad1 bad2 bad3 bad4
                         ++ events ++ [modified_message]) rest' st1) c
               = candidate (deref st c) l1 l2 l3 l4).
  { unfold committed, saved, printed, set_stdout, set_file. simpl.
    apply deref_rewritten. }
  split; [exact Hc |]. split; [exact Hcontacts |]. split; [| split].
  - intros l Hl. unfold committed, saved, printed, set_stdout, set_file,
      rewritten, set_heap, set_stdin, deref. simpl.
    rewrite lookup_total_insert_ne by congruence. rewrite Hheap. reflexivity.
  - intros H1 H2 H4 H3. rewrite Hc. unfold candidate, kept_or_new.
    rewrite H1, H2, H4. simpl.
    destruct (String.eqb (PyStr.strip l3) "") eqn:Hb;
      [apply String.eqb_eq in Hb; contradiction | reflexivity].
  - reflexivity.
Qed.

Lemma C7_witness :
  let st := state_of None ["2"; "y"; ""; "R0e"; ""; "abc"; "12-34"; " 777 "; ""]
                     [jane_a; jane_b] in
  let results :=
    List.filter (fun l => matches_query (PyStr.lower "jane") (deref st l))
                (contacts st) in
  let st1 := snd (_select_contact_from_results results st) in
  (_select_contact_from_results results st = (Ok 1, st1) /\
   stdin st1 = "y" :: [] ++ "" :: ["R0e"] ++ "" :: ["abc"; "12-34"] ++ " 777 "
                   :: [] ++ "" :: [] /\
   says_yes "y" = true /\
   lines_refused _is_valid_name [] = true /\
   lines_refused _is_valid_name ["R0e"] = true /\
   lines_refused _is_valid_phone ["abc"; "12-34"] = true /\
   lines_refused _is_valid_email [] = true /\
   lines_accepted "" "" " 777 " "" = true /\
   override_given (in_store (candidate (deref st 1) "" "" " 777 " "") st) []
     = Some ([], [])) /\
  exists st',
    modify_contact (J := python_json) "jane" st = (Ok tt, st') /\
    deref st' 1 = mkContact "Jane" "Doe" "777" "jane2@x.com" /\
    deref st' 0 = jane_a.
Proof.
  intros st results st1.
  assert (H1 : _select_contact_from_results results st = (Ok 1, st1))
    by reflexivity.
  assert (H2 : stdin st1 = "y" :: [] ++ "" :: ["R0e"] ++ ""
                 :: ["abc"; "12-34"] ++ " 777 " :: [] ++ "" :: [])
    by reflexivity.
  assert (H3 : says_yes "y" = true) by reflexivity.
  assert (B1 : lines_refused _is_valid_name [] = true) by reflexivity.
  assert (B2 : lines_refused _is_valid_name ["R0e"] = true) by reflexivity.
  assert (B3 : lines_refused _is_valid_phone ["abc"; "12-34"] = true)
    by reflexivity.
  assert (B4 : lines_refused _is_valid_email [] = true) by reflexivity.
  assert (H4 : lines_accepted "" "" " 777 " "" = true) by reflexivity.
  assert (H5 : override_given
                 (in_store (candidate (deref st 1) "" "" " 777 " "") st) []
               = Some ([], [])) by reflexivity.
  split; [auto 10 |].
  destruct (C7_fields_kept_or_replaced (J := python_json) "jane" 1 "y" "" ""
              " 777 " "" [] ["R0e"] ["abc"; "12-34"] [] [] [] [] st st1
              H1 H2 H3 B1 B2 B3 B4 H4 H5)
    as (st' & Hrun & Htarget & _ & Hothers & _).
  exists st'. split; [exact Hrun |]. split.
  - rewrite Htarget. reflexivity.
  - rewrite Hothers by discriminate. reflexivity.
Defined.




(** ** Deletion *)

Lemma without_absent (c : loc) (l : list loc) : ~ In c l -> without c l = l.
Proof.
  induction l as [| x l IH]; simpl; [reflexivity |].
  intros Hnot. destruct (Nat.eqb x c) eqn:Hx; simpl.
  - apply Nat.eqb_eq in Hx. subst. tauto.
  - rewrite IH by tauto. reflexivity.
Qed.

Lemma remove_first_NoDup (c : loc) (l : list loc) :
  NoDup l -> In c l -> remove_first c l = Some (without c l).
Proof.
  induction 1 as [| x l Hx Hnd IH]; simpl; [intros [] |].
  intros Hin. destruct (Nat.eqb x c) eqn:Hxc; simpl.
  - apply Nat.eqb_eq in Hxc. subst.
    rewrite without_absent by (rewrite <- list_elem_of_In; exact Hx).
    reflexivity.
  - destruct Hin as [-> | Hin]; [rewrite Nat.eqb_refl in Hxc; discriminate |].
    rewrite (IH Hin). reflexivity.
Qed.

Lemma without_length (c : loc) (l : list loc) :
  NoDup l -> In c l -> (length (without c l) + 1 = length l)%nat.
Proof.
  induction 1 as [| x l Hx Hnd IH]; simpl; [intros [] |].
  intros Hin. destruct (Nat.eqb x c) eqn:Hxc; simpl.
  - apply Nat.eqb_eq in Hxc. subst.
    rewrite without_absent by (rewrite <- list_elem_of_In; exact Hx). lia.
  - destruct Hin as [-> | Hin]; [rewrite Nat.eqb_refl in Hxc; discriminate |].
    rewrite (IH Hin). reflexivity.
Qed.

Lemma In_without (c x : loc) (l : list loc) :
  In x (without c l) <-> In x l /\ x <> c.
Proof.
  unfold without. rewrite filter_In, negb_true_iff, Nat.eqb_neq. tauto.
Qed.

Section DeleteFacts.
Context {J : JsonLib}.

Lemma delete_contact_selected (q : string) (c : loc) (st st1 : state) :
  _select_contact_from_results
    (List.filter (fun l => matches_query (PyStr.lower q) (deref st l))
                 (contacts st)) st = (Ok c, st1) ->
  delete_contact q st = delete_selected c st1.
Proof.
  intros Hsel. unfold delete_contact.
  rewrite (bind_ok _ _ _ _ _ (search_contact_quiet q st)).
  destruct (List.filter _ (contacts st)) as [| x results] eqn:Hres.
  - rewrite select_empty_raises in Hsel. discriminate.
  - rewrite (bind_ok _ _ _ _ _ Hsel). reflexivity.
Qed.

Lemma delete_selected_run (c : loc) (confirm : string) (rest : list string)
    (left : list loc) (st : state) :
  stdin st = confirm :: rest ->
  says_yes confirm = true ->
  remove_first c (contacts st) = Some left ->
  delete_selected c st =
  (Ok tt,
   printed (delete_banner st c ++ [deleted_message])
     (saved (set_contacts left (set_stdin rest st)))).
Proof.
  intros Hstdin Hyes Hrem. unfold delete_selected.
  unfold bind at 1, print at 1, emit at 1, modify at 1.
  unfold bind at 1, get.
  unfold bind at 1, print at 1, emit at 1, modify at 1.
  unfold bind at 1, print_in_color at 1, emit at 1, modify at 1.
  erewrite bind_ok by (apply read_answer_cons; simpl; exact Hstdin).
  unfold says_yes in Hyes. rewrite Hyes.
  unfold contacts_remove. unfold bind at 1. unfold bind at 1, get. simpl.
  rewrite Hrem. unfold modify, bind, save_contacts, modify, print_in_color,
    emit, modify. simpl.
  f_equal. unfold printed, saved, set_file, set_stdout, set_contacts, set_stdin,
    delete_banner, records, deref. simpl. rewrite <- !app_assoc. reflexivity.
Qed.

End DeleteFacts.

(** C10: [modify] and [delete] act on the object selected, whatever the
    fields of the other records, equal to its own or not.  The store
    holding each object once: a confirmed [delete] takes the reference
    selected, and no other, out of the list (one element less, the objects
    untouched, every other reference still there with its fields).  A
    [modify] that goes through, after any number of lines refused at each
    field (fewer than the interpreter allows nested calls), rewrites the
    fields of the object selected, which are then those of the lines
    accepted, and leaves the list and the fields of every other object,
    value-equal ones included, as they were. *)
Theorem C10_target_by_identity {J : JsonLib} :
  (forall (q : string) (c : loc) (confirm : string) (rest : list string)
          (st st1 : state),
     NoDup (contacts st) ->
     _select_contact_from_results
       (List.filter (fun l => matches_query (PyStr.lower q) (deref st l))
                    (contacts st)) st = (Ok c, st1) ->
     stdin st1 = confirm :: rest ->
     says_yes confirm = true ->
     exists st',
       delete_contact q st = (Ok tt, st') /\
       contacts st' = without c (contacts st) /\
       (length (contacts st') + 1 = length (contacts st))%nat /\
       ~ In c (contacts st') /\
       heap st' = heap st /\
       (forall other,
          In other (contacts st) -> other <> c ->
          In other (contacts st') /\ deref st' other = deref st other)) /\
  (forall (q : string) (c : loc) (confirm l1 l2 l3 l4 : string)
          (bad1 bad2 bad3 bad4 rest rest' : list string)
          (events : list event) (st st1 : state),
     _select_contact_from_results
       (List.filter (fun l => matches_query (PyStr.lower q) (deref st l))
                    (contacts st)) st = (Ok c, st1) ->
     stdin st1
       = confirm :: bad1 ++ l1 :: bad2 ++ l2 :: bad3 ++ l3
                 :: bad4 ++ l4 :: rest ->
     says_yes confirm = true ->
     lines_refused _is_valid_name bad1 = true ->
     lines_refused _is_valid_name bad2 = true ->
     lines_refused _is_valid_phone bad3 = true ->
     lines_refused _is_valid_email bad4 = true ->
     lines_accepted l1 l2 l3 l4 = true ->
     override_given (in_store (candidate (deref st c) l1 l2 l3 l4) st) rest
       = Some (events, rest') ->
     exists st',
       modify_contact q st = (Ok tt, st') /\
       contacts st' = contacts st /\
       deref st' c = candidate (deref st c) l1 l2 l3 l4 /\
       (forall other, other <> c -> deref st' other = deref st other)).
Proof.
  split.
  - intros q c confirm rest st st1 Hnd Hsel Hstdin Hyes.
    destruct (select_same_store
                (List.filter (fun l => matches_query (PyStr.lower q) (deref st l))
                             (contacts st)) st) as [Hsame Hres].
    rewrite Hsel in Hsame, Hres. simpl in Hsame, Hres.
    assert (Hin : In c (contacts st))
      by (eapply In_filter_results; apply Hres; reflexivity).
    destruct Hsame as (Hheap & Hcontacts & Hfile).
    rewrite (delete_contact_selected q c st st1 Hsel).
    erewrite delete_selected_run;
      [| exact Hstdin | exact Hyes
       | rewrite Hcontacts; apply remove_first_NoDup; assumption].
    eexists. split; [reflexivity |]. simpl.
    split; [reflexivity |].
    split; [apply without_length; assumption |].
    split; [rewrite In_without; tauto |].
    split; [exact Hheap |].
    intros other Ho Hne. split; [apply In_without; tauto |].
    unfold deref. simpl. rewrite Hheap. reflexivity.
  - intros q c confirm l1 l2 l3 l4 bad1 bad2 bad3 bad4 rest rest' events st st1
      Hsel Hstdin Hyes Hb1 Hb2 Hb3 Hb4 Hlines Hgo.
    destruct (modify_contact_typed q c confirm l1 l2 l3 l4 bad1 bad2 bad3 bad4
                rest rest' events st st1 Hsel Hstdin Hyes Hb1 Hb2 Hb3 Hb4
                Hlines Hgo) as (Hin & Hsame & Hrun).
    destruct Hsame as (Hheap & Hcontacts & Hfile).
    eexists. split; [exact Hrun |].
    split; [exact Hcontacts |].
    split.
    + unfold committed, saved, printed, set_stdout, set_file. simpl.
      apply deref_rewritten.
    + intros other Hne. unfold committed, saved, printed, set_stdout, set_file,
        rewritten, set_heap, set_stdin, deref. simpl.
      rewrite lookup_total_insert_ne by congruence. rewrite Hheap. reflexivity.
Qed.

Lemma C10_witness :
  let twins := [jane_a; jane_a] in
  let st := state_of None ["2"; "y"] twins in
  let results :=
    List.filter (fun l => matches_query (PyStr.lower "jane") (deref st l))
                (contacts st) in
  let st1 := snd (_select_contact_from_results results st) in
  let sm := state_of None ["2"; "y"; "J4ne"; ""; ""; "abc"; "777"; ""] twins in
  let sm1 := snd (_select_contact_from_results results sm) in
  (deref st 0 = deref st 1 /\
   NoDup (contacts st) /\
   _select_contact_from_results results st = (Ok 1, st1) /\
   stdin st1 = ["y"] /\
   says_yes "y" = true) /\
  (exists st',
     delete_contact (J := python_json) "jane" st = (Ok tt, st') /\
     contacts st' = [0] /\ deref st' 0 = jane_a) /\
  (_select_contact_from_results results sm = (Ok 1, sm1) /\
   stdin sm1 = "y" :: ["J4ne"] ++ "" :: [] ++ "" :: ["abc"] ++ "777"
                   :: [] ++ "" :: [] /\
   lines_refused _is_valid_name ["J4ne"] = true /\
   lines_refused _is_valid_name [] = true /\
   lines_refused _is_valid_phone ["abc"] = true /\
   lines_refused _is_valid_email [] = true /\
   lines_accepted "" "" "777" "" = true /\
   override_given (in_store (candidate (deref sm 1) "" "" "777" "") sm) []
     = Some ([], [])) /\
  (exists sm',
     modify_contact (J := python_json) "jane" sm = (Ok tt, sm') /\
     contacts sm' = [0; 1] /\
     deref sm' 1 = mkContact "Jane" "Roe" "777" "jane@x.com" /\
     deref sm' 0 = jane_a).
Proof.
  intros twins st results st1 sm sm1.
  destruct (C10_target_by_identity (J := python_json)) as [Hdelete Hmodify].
  assert (H0 : deref st 0 = deref st 1) by reflexivity.
  assert (H1 : NoDup (contacts st))
    by (change (NoDup [0; 1]);
        constructor;
          [apply not_elem_of_cons; split;
             [discriminate | apply not_elem_of_nil] |];
        constructor; [apply not_elem_of_nil | constructor]).
  assert (H2 : _select_contact_from_results results st = (Ok 1, st1))
    by reflexivity.
  assert (H3 : stdin st1 = ["y"]) by reflexivity.
  assert (H4 : says_yes "y" = true) by reflexivity.
  assert (H5 : _select_contact_from_results results sm = (Ok 1, sm1))
    by reflexivity.
  assert (H6 : stdin sm1 = "y" :: ["J4ne"] ++ "" :: [] ++ "" :: ["abc"] ++ "777"
                               :: [] ++ "" :: []) by reflexivity.
  assert (B1 : lines_refused _is_valid_name ["J4ne"] = true) by reflexivity.
  assert (B2 : lines_refused _is_valid_name [] = true) by reflexivity.
  assert (B3 : lines_refused _is_valid_phone ["abc"] = true) by reflexivity.
  assert (B4 : lines_refused _is_valid_email [] = true) by reflexivity.
  assert (H7 : lines_accepted "" "" "777" "" = true) by reflexivity.
  assert (H8 : override_given
                 (in_store (candidate (deref sm 1) "" "" "777" "") sm) []
               = Some ([], [])) by reflexivity.
  split; [auto |]. split.
  - destruct (Hdelete "jane" 1 "y" [] st st1 H1 H2 H3 H4)
      as (st' & Hrun & Hlist & _ & _ & _ & Hothers).
    exists st'. split; [exact Hrun |]. split; [rewrite Hlist; reflexivity |].
    destruct (Hothers 0) as [_ Hd];
      [vm_compute; left; reflexivity | discriminate |].
    rewrite Hd. reflexivity.
  - split; [auto 10 |].
    destruct (Hmodify "jane" 1 "y" "" "" "777" "" ["J4ne"] [] ["abc"] [] [] []
                [] sm sm1 H5 H6 H4 B1 B2 B3 B4 H7 H8)
      as (sm' & Hrun & Hlist & Htarget & Hothers).
    exists sm'. split; [exact Hrun |]. split; [rewrite Hlist; reflexivity |].
    split; [rewrite Htarget; reflexivity |].
    rewrite Hothers by discriminate. reflexivity.
Defined.

(** ** Loading and saving *)

Lemma Contact_of_data_dict (c : Contact) : Contact_of_data (Contact_dict c) = Ok c.
Proof. destruct c. reflexivity. Qed.

Lemma Contacts_of_list_dicts (cs : list Contact) :
  Contacts_of_list (map Contact_dict cs) = Ok cs.
Proof.
  induction cs as [| c cs IH]; [reflexivity |].
  cbn [map Contacts_of_list]. rewrite Contact_of_data_dict, IH. reflexivity.
Qed.

Lemma alloc_all_spec (cs : list Contact) :
  forall h ls h',
    alloc_all cs h = (ls, h') ->
    map (fun l => h' !!! l) ls = cs /\
    NoDup ls /\
    (forall l, l ∈ ls -> l ∉ dom h) /\
    (forall l, l ∈ dom h -> h' !! l = h !! l) /\
    (forall l, l ∈ ls -> l ∈ dom h').
Proof.
  induction cs as [| c cs IH]; intros h ls h' Halloc; simpl in Halloc.
  - injection Halloc as <- <-. simpl.
    split; [reflexivity |]. split; [constructor |].
    split; [intros l Hl; inversion Hl |].
    split; [reflexivity | intros l Hl; inversion Hl].
  - destruct (alloc_all cs (<[fresh (dom h) := c]> h)) as [ls0 h0] eqn:Hrest.
    injection Halloc as <- <-.
    destruct (IH _ _ _ Hrest) as (Hmap & Hnd & Hfresh & Hkeep & Hdom).
    assert (Hnew : fresh (dom h) ∉ dom h) by apply is_fresh.
    assert (Hsub : forall l, l ∈ dom h -> l ∈ dom (<[fresh (dom h) := c]> h))
      by (intros l Hl; apply (dom_insert_subseteq h (fresh (dom h)) c); exact Hl).
    assert (Hself : fresh (dom h) ∈ dom (<[fresh (dom h) := c]> h))
      by (apply elem_of_dom; rewrite lookup_insert_eq; eauto).
    assert (Hl0 : h0 !! fresh (dom h) = Some c)
      by (rewrite (Hkeep _ Hself); apply lookup_insert_eq).
    split; [| split; [| split; [| split]]].
    + simpl. rewrite Hmap. f_equal.
      unfold lookup_total, map_lookup_total. rewrite Hl0. reflexivity.
    + constructor; [| exact Hnd].
      intros Hin. apply Hfresh in Hin. contradiction.
    + intros l Hl. apply elem_of_cons in Hl as [-> | Hl]; [exact Hnew |].
      apply Hfresh in Hl. intros Hd. apply Hl, Hsub, Hd.
    + intros l Hl. rewrite (Hkeep _ (Hsub _ Hl)).
      apply lookup_insert_ne. intros <-. contradiction.
    + intros l Hl. apply elem_of_cons in Hl as [-> | Hl].
      * apply elem_of_dom. eauto.
      * apply Hdom. exact Hl.
Qed.

Section LoadFacts.
Context {J : JsonLib}.

Lemma load_contacts_absent (st : state) :
  file st = None -> load_contacts st = (Ok tt, set_contacts [] st).
Proof. intros H. unfold load_contacts. rewrite H. reflexivity. Qed.

Lemma load_contacts_undecodable (text : string) (st : state) :
  file st = Some text ->
  json_loads text = Raise JSONDecodeError ->
  load_contacts st =
  (Ok tt,
   set_contacts []
     (printed [Colored "Error reading the contacts file." "red"] st)).
Proof.
  intros Hfile Hparse. unfold load_contacts. rewrite Hfile, Hparse. reflexivity.
Qed.

Lemma load_contacts_wrong_shape (text : string) (v : Json.json) (e : exn)
    (st : state) :
  file st = Some text ->
  json_loads text = Ok v ->
  Contacts_of_json v = Raise e ->
  load_contacts st = (Raise e, st).
Proof.
  intros Hfile Hparse Hshape. unfold load_contacts.
  rewrite Hfile, Hparse, Hshape. reflexivity.
Qed.

Lemma load_contacts_records (text : string) (v : Json.json)
    (cs : list Contact) (st : state) :
  file st = Some text ->
  json_loads text = Ok v ->
  Contacts_of_json v = Ok cs ->
  exists st',
    load_contacts st = (Ok tt, st') /\
    records st' = cs /\
    NoDup (contacts st') /\
    file st' = file st /\ stdin st' = stdin st /\ stdout st' = stdout st.
Proof.
  intros Hfile Hparse Hshape. unfold load_contacts.
  rewrite Hfile, Hparse, Hshape.
  destruct (alloc_all cs (heap st)) as [ls h] eqn:Halloc.
  destruct (alloc_all_spec _ _ _ _ Halloc) as (Hmap & Hnd & _).
  eexists. split; [reflexivity |]. simpl.
  split; [exact Hmap |]. split; [exact Hnd |]. auto.
Qed.

Lemma save_contacts_run (st : state) : save_contacts st = (Ok tt, saved st).
Proof. reflexivity. Qed.

Lemma Contacts_of_list_raises (items : list Json.json) (e : exn) :
  Contacts_of_list items = Raise e -> e = TypeError.
Proof.
  revert e. induction items as [| data items IH]; intros e; simpl;
    [discriminate |].
  destruct (Contact_of_data data) as [c | e0 |] eqn:Hd.
  - destruct (Contacts_of_list items); simpl; try discriminate.
    intros [= <-]. apply IH. reflexivity.
  - intros [= <-]. destruct data; simpl in Hd; try congruence.
    unfold Contact_of_kwargs in Hd.
    destruct (forallb _ _ && forallb _ _); [| congruence].
    repeat match type of Hd with
           | context [match ?x with _ => _ end] => destruct x
           end; discriminate.
  - destruct (Contacts_of_list items); try discriminate.
    intros [= <-]. apply IH. reflexivity.
Qed.

Lemma Contacts_of_json_raises (v : Json.json) (e : exn) :
  Contacts_of_json v = Raise e -> e = TypeError.
Proof.
  destruct v as [| b | n | f | s | items | members]; simpl;
    try (intros [= <-]; reflexivity).
  - destruct s; [discriminate | intros [= <-]; reflexivity].
  - apply Contacts_of_list_raises.
  - destruct members; [discriminate | intros [= <-]; reflexivity].
Qed.

(** Saving, then loading in a state that has the file saved (the same
    process, or a later one), for a library that reads back what it
    wrote for this store. *)
Lemma save_load_round_trip (st st0 : state) :
  json_loads (json_dumps (Json.JArr (map Contact_dict (records st))))
    = Ok (Json.JArr (map Contact_dict (records st))) ->
  file st0 = file (saved st) ->
  exists st',
    load_contacts st0 = (Ok tt, st') /\ records st' = records st /\
    NoDup (contacts st').
Proof.
  intros Hlib Hfile.
  destruct (load_contacts_records _ _ (records st) st0 Hfile Hlib)
    as (st' & Hrun & Hrec & Hnd & _).
  - simpl. apply Contacts_of_list_dicts.
  - exists st'. auto.
Qed.

End LoadFacts.

(** The outcomes of [load_contacts] by what [json.load] gives: no file,
    the empty store and nothing printed; [JSONDecodeError], the empty
    store and the warning, the file being left as it was; a value that is
    not a list of records, [TypeError], store and file being left as
    they were. *)
Lemma load_contacts_outcomes {J : JsonLib} (st : state) :
  (file st = None ->
   load_contacts st = (Ok tt, set_contacts [] st)) /\
  (forall text,
     file st = Some text ->
     json_loads text = Raise JSONDecodeError ->
     exists st',
       load_contacts st = (Ok tt, st') /\
       contacts st' = [] /\
       stdout st' =
         stdout st ++ [Colored "Error reading the contacts file." "red"] /\
       file st' = Some text) /\
  (forall text v e,
     file st = Some text ->
     json_loads text = Ok v ->
     Contacts_of_json v = Raise e ->
     e = TypeError /\ load_contacts st = (Raise TypeError, st)).
Proof.
  split; [apply load_contacts_absent |]. split.
  - intros text Hfile Hparse.
    rewrite (load_contacts_undecodable text st Hfile Hparse).
    eexists. split; [reflexivity |]. simpl. auto.
  - intros text v e Hfile Hparse Hshape.
    pose proof (Contacts_of_json_raises v e Hshape) as ->.
    split; [reflexivity |].
    apply (load_contacts_wrong_shape text v TypeError st Hfile Hparse Hshape).
Qed.

(** C4: [load] raises on a file that is JSON but no record sequence, and
    the process ends there.  A file holding [[1]] is read by [json.load]
    as the list of the number 1, which cannot be turned into a record
    sequence: the call of [Contact] on the number raises [TypeError].
    The specification asks for the empty store and a warning.  The code
    prints nothing and lets the exception out of [load_contacts] and out
    of the constructor, so that [main] ends by it before the menu,
    whatever is typed: of the exceptions of the [try] block only
    [FileNotFoundError] and [JSONDecodeError] have a handler.  The handler
    beside it does what the specification asks for on a file that is not
    JSON, such as [[1]: empty store, warning, file untouched. *)
Lemma C4_wrong_shape_raises :
  let st := state_of (Some "[1]") ["6"] [] in
  let st' := state_of (Some "[1") ["6"] [] in
  Json.load "[1]" = Ok (Json.JArr [Json.JInt 1]) /\
  load_contacts (J := python_json) st = (Raise TypeError, st) /\
  init (J := python_json) st = (Raise TypeError, st) /\
  main (J := python_json) st = (Raise TypeError, st) /\
  init (J := python_json) st' =
    (Ok tt, printed [Colored "Error reading the contacts file." "red"] st').
Proof. repeat split; vm_compute; reflexivity. Qed.

(** ** What [add] and [load] admit *)

Section AdmissionFacts.
Context {J : JsonLib}.

Lemma get_valid_input_on_spec (prompt error_message : string)
    (validation_func : string -> bool) (lines : list string) :
  forall st,
    same_store st
      (snd (get_valid_input_on prompt validation_func error_message lines st)) /\
    (forall v,
       fst (get_valid_input_on prompt validation_func error_message lines st)
         = Ok v ->
       validation_func v = true).
Proof.
  induction lines as [| line rest IH]; intros st; simpl.
  - run_monad. split; [repeat split | discriminate].
  - unfold bind at 1, emit at 1, modify at 1. unfold bind at 1, modify at 1.
    destruct (validation_func (PyStr.strip line)) eqn:Hv.
    + simpl. split; [repeat split |]. intros v [= <-]. exact Hv.
    + unfold bind at 1, print_in_color at 1, emit at 1, modify at 1.
      match goal with |- context [get_valid_input_on _ _ _ rest ?s] =>
        destruct (IH s) as [Hs Hr] end.
      split; [| exact Hr].
      eapply same_store_trans; [| exact Hs]. repeat split.
Qed.

Lemma given_or_asked_spec (arg : option string) (prompt error_message : string)
    (validation_func : string -> bool) (st : state) :
  arg_ok validation_func arg = true ->
  same_store st
    (snd (given_or_asked arg prompt validation_func error_message st)) /\
  (forall v,
     fst (given_or_asked arg prompt validation_func error_message st) = Ok v ->
     validation_func v = true).
Proof.
  intros Harg. destruct arg as [v0 |]; simpl in *.
  - split; [apply same_store_refl |]. intros v [= <-]. exact Harg.
  - unfold get_valid_input, bind, get.
    apply get_valid_input_on_spec.
Qed.

Lemma append_contact_run (f l p e : string) (st : state) :
  exists st',
    append_contact f l p e st = (Ok tt, st') /\
    appended (mkContact f l p e) st st'.
Proof.
  unfold append_contact. eexists. split; [reflexivity |].
  exists (fresh (dom (heap st))). simpl.
  split; [apply is_fresh |]. split; reflexivity.
Qed.

Lemma appended_same_store (c : Contact) (st st1 st' : state) :
  same_store st st1 -> appended c st1 st' -> appended c st st'.
Proof.
  intros (Hh & Hc & _) (l & Hl & Hlist & Hheap).
  exists l. rewrite <- Hh, <- Hc. auto.
Qed.

(** Whatever is typed, and however the call ends, [add_contact] leaves
    the store as it was or appends one record passing the four
    validators, as long as the arguments given pass theirs. *)
Lemma add_contact_admits_valid (f l p e : option string) (st : state) :
  arg_ok _is_valid_name f = true ->
  arg_ok _is_valid_name l = true ->
  arg_ok _is_valid_phone p = true ->
  arg_ok _is_valid_email e = true ->
  same_store st (snd (add_contact f l p e st)) \/
  exists c,
    valid_contact c = true /\ appended c st (snd (add_contact f l p e st)).
Proof.
  intros Hf Hl Hp He.
  destruct (add_contact f l p e st) as [r st'] eqn:Hrun. simpl.
  unfold add_contact in Hrun.
  unfold bind at 1 in Hrun.
  destruct (given_or_asked_spec f "First name: "
    "Invalid first name. Only letters and spaces are allowed."
    _is_valid_name st Hf) as [S1 V1].
  destruct (given_or_asked f _ _ _ st) as [[vf | x |] st1];
    simpl in S1, V1; [| injection Hrun as <- <-; left; exact S1 ..].
  specialize (V1 vf eq_refl).
  unfold bind at 1 in Hrun.
  destruct (given_or_asked_spec l "Last name: "
    "Invalid last name. Only letters and spaces are allowed."
    _is_valid_name st1 Hl) as [S2 V2].
  pose proof (same_store_trans _ _ _ S1 S2) as S12.
  destruct (given_or_asked l _ _ _ st1) as [[vl | x |] st2];
    simpl in S12, V2; [| injection Hrun as <- <-; left; exact S12 ..].
  specialize (V2 vl eq_refl).
  unfold bind at 1 in Hrun.
  destruct (given_or_asked_spec p "Phone number: "
    "Invalid phone number. Only numbers and optionally a plus sign are allowed."
    _is_valid_phone st2 Hp) as [S3 V3].
  pose proof (same_store_trans _ _ _ S12 S3) as S13.
  destruct (given_or_asked p _ _ _ st2) as [[vp | x |] st3];
    simpl in S13, V3; [| injection Hrun as <- <-; left; exact S13 ..].
  specialize (V3 vp eq_refl).
  unfold bind at 1 in Hrun.
  destruct (given_or_asked_spec e "Email: "
    "Invalid email. Please enter a valid email address."
    _is_valid_email st3 He) as [S4 V4].
  pose proof (same_store_trans _ _ _ S13 S4) as S14.
  destruct (given_or_asked e _ _ _ st3) as [[ve | x |] st4];
    simpl in S14, V4; [| injection Hrun as <- <-; left; exact S14 ..].
  specialize (V4 ve eq_refl).
  assert (Hvalid : valid_contact (mkContact vf vl vp ve) = true)
    by (unfold valid_contact; simpl; rewrite V1, V2, V3, V4; reflexivity).
  rewrite (bind_ok _ _ _ _ _ (is_duplicate_run vf vl vp ve st4)) in Hrun.
  destruct S14 as (H1 & H2 & H3).
  destruct (existsb _ (records st4)).
  - unfold bind at 1, print_in_color at 1, emit at 1, modify at 1 in Hrun.
    unfold bind at 1, read_answer, bind, read_line in Hrun. simpl in Hrun.
    destruct (stdin st4) as [| answer rest]; simpl in Hrun.
    + injection Hrun as <- <-. left. repeat split; assumption.
    + destruct (String.eqb (PyStr.lower (PyStr.strip answer)) "y");
        simpl in Hrun.
      * right. exists (mkContact vf vl vp ve). split; [exact Hvalid |].
        match type of Hrun with append_contact _ _ _ _ ?s = _ =>
          destruct (append_contact_run vf vl vp ve s) as (st5 & Hrun5 & Happ);
          rewrite Hrun5 in Hrun; injection Hrun as <- <-;
          apply (appended_same_store _ st s st5); [| exact Happ] end.
        repeat split; assumption.
      * injection Hrun as <- <-. left. repeat split; assumption.
  - right. exists (mkContact vf vl vp ve). split; [exact Hvalid |].
    destruct (append_contact_run vf vl vp ve st4) as (st5 & Hrun5 & Happ).
    rewrite Hrun5 in Hrun. injection Hrun as <- <-.
    apply (appended_same_store _ st st4 st5); [| exact Happ].
    repeat split; assumption.
Qed.

End AdmissionFacts.

(** [add_contact] takes the arguments it is given as they are: only the
    fields it asks for go through a validator. *)
Lemma add_contact_given_is_not_validated :
  valid_contact digit_name = false /\
  records (snd (add_contact (J := python_json) (Some "1") (Some "Doe")
                  (Some "555") (Some "a@b.c") blank_state)) = [digit_name].
Proof. split; vm_compute; reflexivity. Qed.

(** C3, as the specification states it, fails: [load] populates the store
    with a record whose first name, [1], fails the name validator. *)
Lemma C3_load_admits_invalid_record :
  let text := Json.dumps (Json.JArr [Contact_dict digit_name]) in
  let st := state_of (Some text) [] [] in
  _is_valid_name (first_name digit_name) = false /\
  fst (init (J := python_json) st) = Ok tt /\
  records (snd (init (J := python_json) st)) = [digit_name].
Proof. repeat split; vm_compute; reflexivity. Qed.

(** C3, amended: [add] validates the fields it asks for.  Whatever is
    typed and however the call ends, [add] with every field either asked
    for or given valid leaves the store as it was or appends exactly one
    record whose four fields pass their validators.  [load] does not
    validate: it populates the store with the records of the file as they
    are, valid or not. *)
Theorem C3_admission {J : JsonLib} :
  (forall (f l p e : option string) (st : state),
     arg_ok _is_valid_name f = true ->
     arg_ok _is_valid_name l = true ->
     arg_ok _is_valid_phone p = true ->
     arg_ok _is_valid_email e = true ->
     same_store st (snd (add_contact f l p e st)) \/
     exists c,
       valid_contact c = true /\
       appended c st (snd (add_contact f l p e st))) /\
  (forall (st : state),
     same_store st (snd (add_contact None None None None st)) \/
     exists c,
       valid_contact c = true /\
       appended c st (snd (add_contact None None None None st))) /\
  (forall (text : string) (cs : list Contact) (st : state),
     file st = Some text ->
     json_loads text = Ok (Json.JArr (map Contact_dict cs)) ->
     exists st', load_contacts st = (Ok tt, st') /\ records st' = cs).
Proof.
  split; [exact add_contact_admits_valid |]. split.
  - intros st. apply add_contact_admits_valid; reflexivity.
  - intros text cs st Hfile Hparse.
    destruct (load_contacts_records text _ cs st Hfile Hparse)
      as (st' & Hrun & Hrec & _).
    + simpl. apply Contacts_of_list_dicts.
    + exists st'. auto.
Qed.

Lemma C3_witness :
  let typed := state_of None [" Jane "; "R0e"; "Roe"; "555"; "jane@x.com"] [] in
  let text := Json.dumps (Json.JArr [Contact_dict digit_name]) in
  let st := state_of (Some text) [] [] in
  (arg_ok _is_valid_name None = true /\
   arg_ok _is_valid_name (Some "Roe") = true /\
   arg_ok _is_valid_phone None = true /\
   arg_ok _is_valid_email None = true) /\
  (exists c,
     valid_contact c = true /\
     appended c typed
       (snd (add_contact (J := python_json) None (Some "Roe") None None typed))) /\
  (file st = Some text /\
   json_loads (JsonLib := python_json) text
     = Ok (Json.JArr (map Contact_dict [digit_name]))) /\
  exists st',
    load_contacts (J := python_json) st = (Ok tt, st') /\
    records st' = [digit_name].
Proof.
  intros typed text st.
  destruct (C3_admission (J := python_json)) as (Hadd & _ & Hload).
  assert (H1 : arg_ok _is_valid_name None = true) by reflexivity.
  assert (H2 : arg_ok _is_valid_name (Some "Roe") = true) by reflexivity.
  assert (H3 : arg_ok _is_valid_phone None = true) by reflexivity.
  assert (H4 : arg_ok _is_valid_email None = true) by reflexivity.
  assert (H5 : file st = Some text) by reflexivity.
  assert (H6 : json_loads (JsonLib := python_json) text
               = Ok (Json.JArr (map Contact_dict [digit_name])))
    by (vm_compute; reflexivity).
  split; [auto |]. split.
  - destruct (Hadd None (Some "Roe") None None typed H1 H2 H3 H4)
      as [(_ & Hsame & _) | Hnew]; [| exact Hnew].
    vm_compute in Hsame. discriminate.
  - split; [auto |]. exact (Hload text [digit_name] st H5 H6).
Defined.

(** C5 for any library that reads back what it wrote for this store:
    saving and then loading, in the same process or in a new one, yields
    the records saved, field by field and in the same order. *)
Lemma round_trip_for_faithful_library {J : JsonLib} (st st0 : state) :
  json_loads (json_dumps (Json.JArr (map Contact_dict (records st))))
    = Ok (Json.JArr (map Contact_dict (records st))) ->
  file st0 = file (snd (save_contacts st)) ->
  fst (save_contacts st) = Ok tt /\
  records (snd (save_contacts st)) = records st /\
  exists st',
    load_contacts st0 = (Ok tt, st') /\ records st' = records st.
Proof.
  intros Hlib Hfile. rewrite save_contacts_run in *. simpl in Hfile.
  split; [reflexivity |]. split; [reflexivity |].
  destruct (save_load_round_trip st st0 Hlib Hfile) as (st' & Hrun & Hrec & _).
  exists st'. auto.
Qed.

(** ** The store stays well formed *)

Lemma keeps_ret {A} (a : A) : keeps_well_formed (ret a).
Proof. intros st H. exact H. Qed.

Lemma keeps_raise {A} (e : exn) : keeps_well_formed (@raise A e).
Proof. intros st H. exact H. Qed.

Lemma keeps_get : keeps_well_formed get.
Proof. intros st H. exact H. Qed.

Lemma keeps_bind {A B} (m : M A) (f : A -> M B) :
  keeps_well_formed m -> (forall a, keeps_well_formed (f a)) ->
  keeps_well_formed (bind m f).
Proof.
  intros Hm Hf st Hwf. unfold bind. specialize (Hm st Hwf).
  destruct (m st) as [[a | e |] st1]; simpl in *; try exact Hm.
  apply Hf. exact Hm.
Qed.

Lemma keeps_modify (f : state -> state) :
  (forall st, heap (f st) = heap st /\ contacts (f st) = contacts st) ->
  keeps_well_formed (modify f).
Proof.
  intros Hf st [Hnd Hdom]. destruct (Hf st) as [Hh Hc].
  unfold modify, well_formed. simpl. rewrite Hh, Hc. auto.
Qed.

Lemma keeps_emit (e : event) : keeps_well_formed (emit e).
Proof. apply keeps_modify. intros st. split; reflexivity. Qed.

Lemma keeps_read_line : keeps_well_formed read_line.
Proof.
  intros st H. unfold read_line. destruct (stdin st); simpl; exact H.
Qed.

Lemma keeps_read_answer : keeps_well_formed read_answer.
Proof.
  apply keeps_bind; [apply keeps_read_line | intros; apply keeps_ret].
Qed.

Ltac keeps_step :=
  first
    [ apply keeps_ret | apply keeps_raise | apply keeps_get
    | apply keeps_emit | apply keeps_read_line | apply keeps_read_answer
    | apply keeps_bind; [| intros ?]
    | apply keeps_modify; intros ?; split; reflexivity
    | match goal with
      | |- keeps_well_formed (if ?b then _ else _) => destruct b
      | |- keeps_well_formed (match ?r with _ => _ end) => destruct r
      end ].

(** [keeps_with tac] runs through a method, [tac] closing the calls that
    have a lemma of their own. *)
Ltac keeps_with tac := repeat first [ tac | keeps_step ].

Lemma keeps_get_valid_input_on (prompt error_message : string)
    (validation_func : string -> bool) (lines : list string) :
  keeps_well_formed
    (get_valid_input_on prompt validation_func error_message lines).
Proof.
  induction lines as [| line rest IH]; simpl; keeps_with ltac:(exact IH).
Qed.

Lemma keeps_get_new_value_on (prompt error_message current : string)
    (validation_func : string -> bool) (lines : list string) :
  keeps_well_formed
    (get_new_value_on prompt validation_func error_message current lines).
Proof.
  induction lines as [| line rest IH]; simpl; keeps_with ltac:(exact IH).
Qed.

Lemma keeps_select (results : list loc) :
  keeps_well_formed (_select_contact_from_results results).
Proof.
  intros st [Hnd Hdom].
  destruct (select_same_store results st) as [(Hh & Hc & _) _].
  unfold well_formed. rewrite Hh, Hc. auto.
Qed.

Lemma keeps_search (q : string) (display : bool) :
  keeps_well_formed (search_contact q display).
Proof. unfold search_contact. keeps_with fail. Qed.

Lemma keeps_assign_at (index : nat) (update : Contact -> Contact) :
  keeps_well_formed (assign_at index update).
Proof.
  intros st [Hnd Hdom]. unfold assign_at, bind, get.
  destruct (contacts st !! index) as [l |] eqn:Hl; simpl; [| split; auto].
  split; [exact Hnd |]. intros x Hx.
  apply (dom_insert_subseteq (heap st) l _). apply Hdom. exact Hx.
Qed.

Lemma remove_first_sublist (c : loc) (l l' : list loc) :
  remove_first c l = Some l' -> sublist l' l.
Proof.
  revert l'. induction l as [| x l IH]; intros l'; simpl; [discriminate |].
  destruct (Nat.eqb x c).
  - intros [= <-]. apply sublist_cons. reflexivity.
  - destruct (remove_first c l) as [l0 |]; simpl; [| discriminate].
    intros [= <-]. apply sublist_skip. apply IH. reflexivity.
Qed.

Lemma keeps_contacts_remove (c : loc) : keeps_well_formed (contacts_remove c).
Proof.
  intros st [Hnd Hdom]. unfold contacts_remove, bind, get.
  destruct (remove_first c (contacts st)) as [l' |] eqn:Hrem; simpl;
    [| split; auto].
  pose proof (remove_first_sublist _ _ _ Hrem) as Hsub.
  split; [eapply sublist_NoDup; eassumption |].
  intros x Hx. apply Hdom. eapply elem_of_sublist; eassumption.
Qed.

Section WellFormed.
Context {J : JsonLib}.

Lemma keeps_save_contacts : keeps_well_formed save_contacts.
Proof. unfold save_contacts. keeps_with fail. Qed.

Lemma keeps_alloc_append (c : Contact) :
  keeps_well_formed
    (modify (fun st =>
       let '(l, h) := alloc c (heap st) in
       set_contacts (contacts st ++ [l]) (set_heap h st))).
Proof.
  intros st [Hnd Hdom]. unfold modify, well_formed. simpl.
  pose proof (is_fresh (dom (heap st))) as Hnew.
  split.
  - apply NoDup_app. split; [exact Hnd |]. split.
    + intros x Hx Hx'. apply list_elem_of_singleton in Hx'. subst.
      apply Hnew, Hdom, Hx.
    + apply NoDup_singleton.
  - intros x Hx. apply elem_of_app in Hx as [Hx | Hx].
    + apply (dom_insert_subseteq (heap st) _ _). apply Hdom. exact Hx.
    + apply list_elem_of_singleton in Hx. subst.
      apply elem_of_dom. rewrite lookup_insert_eq. eauto.
Qed.

Lemma keeps_append_contact (f l p e : string) :
  keeps_well_formed (append_contact f l p e).
Proof.
  unfold append_contact.
  keeps_with ltac:(first [apply keeps_alloc_append | apply keeps_save_contacts]).
Qed.

Lemma keeps_given_or_asked (arg : option string) (prompt error_message : string)
    (validation_func : string -> bool) :
  keeps_well_formed (given_or_asked arg prompt validation_func error_message).
Proof.
  destruct arg; simpl; [keeps_step |]. unfold get_valid_input.
  keeps_with ltac:(apply keeps_get_valid_input_on).
Qed.

Lemma keeps_add_contact (f l p e : option string) :
  keeps_well_formed (add_contact f l p e).
Proof.
  unfold add_contact, _is_duplicate.
  keeps_with ltac:(first [apply keeps_given_or_asked
                         | apply keeps_append_contact]).
Qed.

Lemma keeps_write_contact (index : nat) (f l p e : string) :
  keeps_well_formed (write_contact index f l p e).
Proof.
  unfold write_contact.
  keeps_with ltac:(first [apply keeps_assign_at | apply keeps_save_contacts]).
Qed.

Lemma keeps_get_new_value (prompt error_message current : string)
    (validation_func : string -> bool) :
  keeps_well_formed
    (get_new_value prompt validation_func error_message current).
Proof.
  unfold get_new_value. keeps_with ltac:(apply keeps_get_new_value_on).
Qed.

Lemma keeps_modify_contact (q : string) : keeps_well_formed (modify_contact q).
Proof.
  unfold modify_contact, modify_selected, edit_contact, contacts_index,
    check_and_write, _is_duplicate.
  keeps_with ltac:(first [apply keeps_search | apply keeps_select
                         | apply keeps_get_new_value
                         | apply keeps_write_contact]).
Qed.

Lemma keeps_delete_contact (q : string) : keeps_well_formed (delete_contact q).
Proof.
  unfold delete_contact, delete_selected.
  keeps_with ltac:(first [apply keeps_search | apply keeps_select
                         | apply keeps_contacts_remove
                         | apply keeps_save_contacts]).
Qed.

(** The constructor yields a well-formed store from any state. *)
Lemma init_well_formed (st : state) : well_formed (snd (init st)).
Proof.
  unfold init, bind, modify. simpl. unfold load_contacts. simpl.
  assert (Hempty : forall h f i o, well_formed (mkState f i o h []))
    by (intros; split; [constructor | intros l Hl; inversion Hl]).
  destruct (file st) as [text |]; simpl; [| apply Hempty].
  destruct (json_loads text) as [v | e |]; simpl; [| | apply Hempty].
  - destruct (Contacts_of_json v) as [cs | e |]; simpl; try apply Hempty.
    destruct (alloc_all cs (heap st)) as [ls h] eqn:Halloc.
    destruct (alloc_all_spec _ _ _ _ Halloc) as (_ & Hnd & _ & _ & Hdom).
    split; simpl; assumption.
  - destruct e; simpl; apply Hempty.
Qed.

End WellFormed.

(** ** The store of valid records *)

Lemma appended_records (c : Contact) (st st' : state) :
  well_formed st -> appended c st st' -> records st' = records st ++ [c].
Proof.
  intros [Hnd Hdom] (l & Hnew & Hlist & Hheap).
  unfold records, deref. rewrite Hlist, Hheap, map_app. simpl.
  rewrite lookup_total_insert_eq. f_equal.
  apply map_ext_in. intros x Hx. apply lookup_total_insert_ne.
  intros <-. apply Hnew, Hdom, list_elem_of_In, Hx.
Qed.

(** From a well-formed store of valid records, [add] with every field
    asked for or given valid yields a store of valid records: the same
    records, or the same followed by one valid record. *)
Lemma add_contact_keeps_valid_store {J : JsonLib} (f l p e : option string)
    (st : state) :
  arg_ok _is_valid_name f = true ->
  arg_ok _is_valid_name l = true ->
  arg_ok _is_valid_phone p = true ->
  arg_ok _is_valid_email e = true ->
  well_formed st ->
  forallb valid_contact (records st) = true ->
  forallb valid_contact (records (snd (add_contact f l p e st))) = true.
Proof.
  intros Hf Hl Hp He Hwf Hvalid.
  destruct (add_contact_admits_valid f l p e st Hf Hl Hp He)
    as [Hsame | (c & Hc & Happ)].
  - rewrite (same_store_records _ _ Hsame). exact Hvalid.
  - rewrite (appended_records c _ _ Hwf Happ), forallb_app, Hvalid. simpl.
    rewrite Hc. reflexivity.
Qed.

(** ** The text format reads back what it wrote *)

Module JsonFacts.
Import Json.

Lemma string_app_assoc (a b c : string) : (a +:+ b) +:+ c = a +:+ (b +:+ c).
Proof.
  induction a as [| x a IH]; [reflexivity |].
  change (String x ((a +:+ b) +:+ c) = String x (a +:+ (b +:+ c))).
  f_equal. exact IH.
Qed.

Lemma string_app_assoc_nil (a : string) : a +:+ "" = a.
Proof.
  induction a as [| x a IH]; [reflexivity |].
  change (String x (a +:+ "") = String x a). f_equal. exact IH.
Qed.

Lemma string_length_app (a b : string) :
  String.length (a +:+ b) = (String.length a + String.length b)%nat.
Proof.
  induction a as [| x a IH]; [reflexivity |].
  change (S (String.length (a +:+ b)) = S (String.length a + String.length b)).
  f_equal. exact IH.
Qed.

Lemma scan_escape_char (c : ascii) (t : string) :
  scan_string (escape_char c +:+ t) = cons_char c (scan_string t).
Proof. destruct c as [[] [] [] [] [] [] [] []]; reflexivity. Qed.

Lemma scan_string_escape (s rest : string) :
  scan_string (escape s +:+ String dquote rest) = Ok (s, rest).
Proof.
  induction s as [| c s IH]; [reflexivity |].
  cbn [escape]. rewrite string_app_assoc, scan_escape_char, IH. reflexivity.
Qed.

Lemma encode_string_app (s t : string) :
  encode_string s +:+ t = String dquote (escape s +:+ String dquote t).
Proof.
  unfold encode_string.
  change (String dquote ((escape s +:+ String dquote "") +:+ t)
          = String dquote (escape s +:+ String dquote t)).
  rewrite string_app_assoc. reflexivity.
Qed.

Lemma skip_ws_spaces (n : nat) (t : string) :
  skip_ws (spaces n +:+ t) = skip_ws t.
Proof. induction n as [| n IH]; [reflexivity | exact IH]. Qed.

Lemma skip_ws_newline_indent (level : nat) (t : string) :
  skip_ws (newline_indent level +:+ t) = skip_ws t.
Proof. unfold newline_indent. exact (skip_ws_spaces (4 * level) t). Qed.

Lemma parse_value_string (depth fuel : nat) (v t : string) :
  parse_value depth (S fuel) (encode_string v +:+ t) = Ok (JStr v, t).
Proof.
  rewrite encode_string_app. cbn [parse_value].
  change (Ascii.eqb dquote dquote) with true. cbv iota.
  rewrite scan_string_escape. reflexivity.
Qed.

Lemma skip_ws_encode_string (v t : string) :
  skip_ws (encode_string v +:+ t) = encode_string v +:+ t.
Proof. rewrite encode_string_app. reflexivity. Qed.

Lemma skip_ws_colon (x : string) :
  skip_ws (": " +:+ x) = String ":" (String " " x).
Proof. reflexivity. Qed.

Lemma skip_ws_comma (x : string) : skip_ws ("," +:+ x) = String "," x.
Proof. reflexivity. Qed.

(** A member followed by a comma. *)
Lemma parse_members_more (depth fuel level : nat) (k v k' t : string) :
  parse_members depth (S (S fuel))
    (encode_string k +:+ ": " +:+ encode_string v +:+ ","
     +:+ newline_indent level +:+ encode_string k' +:+ t)
  = result_map (fun p => ((k, JStr v) :: fst p, snd p))
      (parse_members depth (S fuel) (encode_string k' +:+ t)).
Proof.
  remember (S fuel) as f1 eqn:Hf1.
  rewrite (encode_string_app k). cbn [parse_members].
  change (Ascii.eqb dquote dquote) with true. cbv iota.
  rewrite scan_string_escape, skip_ws_colon.
  change (skip_ws (String " " ?x)) with (skip_ws x).
  rewrite skip_ws_encode_string. subst f1. rewrite parse_value_string.
  rewrite skip_ws_comma, skip_ws_newline_indent, skip_ws_encode_string.
  reflexivity.
Qed.

(** The last member of an object. *)
Lemma parse_members_last (depth fuel level : nat) (k v t : string) :
  parse_members depth (S (S fuel))
    (encode_string k +:+ ": " +:+ encode_string v
     +:+ newline_indent level +:+ "}" +:+ t)
  = Ok ([(k, JStr v)], t).
Proof.
  remember (S fuel) as f1 eqn:Hf1.
  rewrite (encode_string_app k). cbn [parse_members].
  change (Ascii.eqb dquote dquote) with true. cbv iota.
  rewrite scan_string_escape, skip_ws_colon.
  change (skip_ws (String " " ?x)) with (skip_ws x).
  rewrite skip_ws_encode_string. subst f1. rewrite parse_value_string.
  rewrite skip_ws_newline_indent. reflexivity.
Qed.

Lemma dump_Contact_dict (level : nat) (c : Contact) (t : string) :
  dump level (Contact_dict c) +:+ t =
  "{" +:+ newline_indent (S level)
  +:+ encode_string "first_name" +:+ ": " +:+ encode_string (first_name c)
  +:+ "," +:+ newline_indent (S level)
  +:+ encode_string "last_name" +:+ ": " +:+ encode_string (last_name c)
  +:+ "," +:+ newline_indent (S level)
  +:+ encode_string "phone_number" +:+ ": " +:+ encode_string (phone_number c)
  +:+ "," +:+ newline_indent (S level)
  +:+ encode_string "email" +:+ ": " +:+ encode_string (email c)
  +:+ newline_indent level +:+ "}" +:+ t.
Proof.
  unfold Contact_dict. cbn [dump map join fst snd].
  rewrite !string_app_assoc. reflexivity.
Qed.

Lemma parse_value_open_brace (depth fuel level : nat) (k t : string) :
  parse_value (S depth) (S fuel)
    ("{" +:+ newline_indent level +:+ encode_string k +:+ t)
  = result_map (fun p => (JObj (dict_of_pairs (fst p)), snd p))
      (parse_members depth fuel (encode_string k +:+ t)).
Proof.
  change ("{" +:+ ?x) with (String "{" x). cbn [parse_value].
  change (Ascii.eqb "{" dquote) with false.
  change (Ascii.eqb "{" "{") with true. cbv iota.
  rewrite skip_ws_newline_indent, skip_ws_encode_string, encode_string_app.
  reflexivity.
Qed.

Lemma parse_value_Contact_dict (depth fuel : nat) (c : Contact) (t : string) :
  parse_value (S depth) (6 + fuel) (dump 1 (Contact_dict c) +:+ t)
  = Ok (Contact_dict c, t).
Proof.
  rewrite dump_Contact_dict.
  change (6 + fuel)%nat with (S (S (S (S (S (S fuel)))))).
  rewrite parse_value_open_brace.
  rewrite !parse_members_more, parse_members_last.
  reflexivity.
Qed.

Lemma items_text_head (c : Contact) (cs : list Contact) (t : string) :
  exists x, items_text (c :: cs) +:+ t = String "{" x.
Proof.
  unfold items_text. destruct cs as [| c' cs]; cbn [map join].
  - rewrite dump_Contact_dict. eexists. reflexivity.
  - rewrite string_app_assoc, dump_Contact_dict. eexists. reflexivity.
Qed.

Lemma items_text_cons (c c' : Contact) (cs : list Contact) :
  items_text (c :: c' :: cs)
  = dump 1 (Contact_dict c) +:+ ("," +:+ newline_indent 1)
    +:+ items_text (c' :: cs).
Proof. reflexivity. Qed.

Lemma parse_items_contacts (depth : nat) (cs : list Contact) :
  forall fuel t,
    cs <> [] ->
    parse_items (S depth) (length cs + 6 + fuel)
      (items_text cs +:+ newline_indent 0 +:+ "]" +:+ t)
    = Ok (map Contact_dict cs, t).
Proof.
  induction cs as [| c cs IH]; intros fuel t Hne; [congruence |].
  change (length (c :: cs) + 6 + fuel)%nat with (S (length cs + 6 + fuel)).
  destruct cs as [| c' cs].
  - change (items_text [c]) with (dump 1 (Contact_dict c)).
    change (length [] + 6 + fuel)%nat with (6 + fuel)%nat.
    remember (6 + fuel)%nat as f1 eqn:Hf1. cbn [parse_items]. subst f1.
    rewrite parse_value_Contact_dict, skip_ws_newline_indent.
    reflexivity.
  - rewrite items_text_cons, !string_app_assoc.
    remember (length (c' :: cs) + 6 + fuel)%nat as f1 eqn:Hf1.
    cbn [parse_items].
    replace f1 with (6 + (length (c' :: cs) + fuel))%nat at 1 by lia.
    rewrite parse_value_Contact_dict, skip_ws_comma, skip_ws_newline_indent.
    destruct (items_text_head c' cs (newline_indent 0 +:+ "]" +:+ t))
      as [x Hx].
    rewrite Hx. change (skip_ws (String "{" x)) with (String "{" x).
    rewrite <- Hx. subst f1. rewrite IH by discriminate. reflexivity.
Qed.

Lemma items_text_length (cs : list Contact) :
  (length cs <= String.length (items_text cs))%nat.
Proof.
  induction cs as [| c cs IH]; [apply Nat.le_0_l |].
  destruct cs as [| c' cs].
  - change (items_text [c]) with (dump 1 (Contact_dict c)).
    rewrite <- (string_app_assoc_nil (dump 1 (Contact_dict c))).
    rewrite dump_Contact_dict. cbn [length].
    change ("{" +:+ ?x) with (String "{" x). cbn [String.length]. lia.
  - rewrite items_text_cons, !string_length_app.
    cbn [length] in *. change (String.length ",") with 1%nat. lia.
Qed.

Lemma dumps_contacts (c : Contact) (cs : list Contact) :
  dumps (JArr (map Contact_dict (c :: cs)))
  = "[" +:+ newline_indent 1 +:+ items_text (c :: cs)
    +:+ newline_indent 0 +:+ "]" +:+ "".
Proof. reflexivity. Qed.

Lemma parse_value_open_bracket (depth fuel : nat) (x : string) :
  parse_value (S depth) (S fuel) ("[" +:+ newline_indent 1 +:+ String "{" x)
  = result_map (fun p => (JArr (fst p), snd p))
      (parse_items depth fuel (String "{" x)).
Proof.
  change ("[" +:+ ?y) with (String "[" y). cbn [parse_value].
  change (Ascii.eqb "[" dquote) with false.
  change (Ascii.eqb "[" "{") with false.
  change (Ascii.eqb "[" "[") with true. cbv iota.
  rewrite skip_ws_newline_indent. reflexivity.
Qed.

Lemma loads_dumps_contacts (cs : list Contact) :
  loads (dumps (JArr (map Contact_dict cs))) = Ok (JArr (map Contact_dict cs)).
Proof.
  destruct cs as [| c cs]; [reflexivity |].
  unfold loads. change nesting_margin with (S (S 198)).
  rewrite dumps_contacts.
  set (tail := newline_indent 0 +:+ "]" +:+ "").
  destruct (items_text_head c cs tail) as [x Hx].
  assert (Hlen : (length (c :: cs) + 8
                  <= String.length ("[" +:+ newline_indent 1
                                    +:+ items_text (c :: cs) +:+ tail))%nat).
  { rewrite !string_length_app.
    pose proof (items_text_length (c :: cs)) as Hitems.
    change (String.length "[") with 1%nat.
    change (String.length (newline_indent 1)) with 5%nat.
    change (String.length tail) with 2%nat. lia. }
  set (L := String.length _) in *.
  replace (2 * L + 2)%nat
    with (S (length (c :: cs) + 6 + (2 * L + 1 - length (c :: cs) - 6)))%nat
    by lia.
  change (skip_ws ("[" +:+ ?y)) with ("[" +:+ y).
  rewrite Hx, (parse_value_open_bracket _ _ x), <- Hx.
  unfold tail. rewrite parse_items_contacts by discriminate.
  reflexivity.
Qed.

End JsonFacts.

(** ** The text written is plain ASCII, and is read back as it is *)

Module PlainFacts.
Import Json.

Lemma chars_app (a b : string) :
  list_ascii_of_string (a +:+ b)
  = list_ascii_of_string a ++ list_ascii_of_string b.
Proof.
  induction a as [| x a IH]; [reflexivity |].
  change (x :: list_ascii_of_string (a +:+ b)
          = x :: (list_ascii_of_string a ++ list_ascii_of_string b)).
  f_equal. exact IH.
Qed.

Lemma plain_app (a b : string) :
  plain_text (a +:+ b) = plain_text a && plain_text b.
Proof. unfold plain_text. rewrite chars_app. apply forallb_app. Qed.

Lemma plain_escape_char (c : ascii) : plain_text (escape_char c) = true.
Proof. destruct c as [[] [] [] [] [] [] [] []]; reflexivity. Qed.

Lemma plain_escape (s : string) : plain_text (escape s) = true.
Proof.
  induction s as [| c s IH]; [reflexivity |].
  cbn [escape]. rewrite plain_app, plain_escape_char, IH. reflexivity.
Qed.

Lemma plain_encode_string (s : string) : plain_text (encode_string s) = true.
Proof.
  unfold encode_string.
  change (String dquote (escape s +:+ String dquote ""))
    with (String dquote "" +:+ (escape s +:+ String dquote "")).
  rewrite !plain_app, plain_escape. reflexivity.
Qed.

Lemma plain_spaces (n : nat) : plain_text (spaces n) = true.
Proof. induction n as [| n IH]; [reflexivity | exact IH]. Qed.

Lemma plain_newline_indent (level : nat) :
  plain_text (newline_indent level) = true.
Proof. unfold newline_indent. apply (plain_spaces (4 * level)). Qed.

Lemma plain_Contact_dict (level : nat) (c : Contact) :
  plain_text (dump level (Contact_dict c)) = true.
Proof.
  rewrite <- (JsonFacts.string_app_assoc_nil (dump level (Contact_dict c))).
  rewrite JsonFacts.dump_Contact_dict.
  rewrite !plain_app, !plain_encode_string, !plain_newline_indent. reflexivity.
Qed.

Lemma plain_items_text (c : Contact) (cs : list Contact) :
  plain_text (items_text (c :: cs)) = true.
Proof.
  revert c. induction cs as [| c' cs IH]; intros c.
  - apply (plain_Contact_dict 1).
  - rewrite JsonFacts.items_text_cons.
    rewrite !plain_app, plain_Contact_dict, plain_newline_indent, IH.
    reflexivity.
Qed.

Lemma plain_dumps_contacts (cs : list Contact) :
  plain_text (dumps (JArr (map Contact_dict cs))) = true.
Proof.
  destruct cs as [| c cs]; [reflexivity |].
  rewrite JsonFacts.dumps_contacts.
  rewrite !plain_app, plain_items_text, !plain_newline_indent. reflexivity.
Qed.

End PlainFacts.

Module FileFacts.
Import Json.

Lemma plain_text_cons (c : ascii) (s : string) :
  plain_text (String c s) = plain_char c && plain_text s.
Proof. reflexivity. Qed.

Lemma plain_char_ascii (c : ascii) :
  plain_char c = true ->
  (PyStr.code c <? 128)%N = true /\ (PyStr.code c =? 13)%N = false.
Proof. destruct c as [[] [] [] [] [] [] [] []]; simpl; auto; discriminate. Qed.

Lemma utf8_decode_plain (s : string) :
  plain_text s = true -> utf8_decode s = Ok s.
Proof.
  induction s as [| c s IH]; [reflexivity |].
  rewrite plain_text_cons. intros H. apply andb_true_iff in H as [Hc Hs].
  destruct (plain_char_ascii c Hc) as [Hlow _].
  cbn [utf8_decode]. rewrite Hlow, (IH Hs). reflexivity.
Qed.

Lemma universal_newlines_plain (s : string) :
  plain_text s = true -> universal_newlines s = s.
Proof.
  induction s as [| c s IH]; [reflexivity |].
  rewrite plain_text_cons. intros H. apply andb_true_iff in H as [Hc Hs].
  destruct (plain_char_ascii c Hc) as [_ Hcr].
  cbn [universal_newlines]. rewrite Hcr, (IH Hs). reflexivity.
Qed.

(** A plain text is read as it is. *)
Lemma load_plain (s : string) : plain_text s = true -> load s = loads s.
Proof.
  intros H. unfold load, read_text.
  rewrite (utf8_decode_plain s H). cbn [result_map].
  rewrite (universal_newlines_plain s H). reflexivity.
Qed.

Lemma load_dumps_contacts (cs : list Contact) :
  load (dumps (JArr (map Contact_dict cs))) = Ok (JArr (map Contact_dict cs)).
Proof.
  rewrite (load_plain _ (PlainFacts.plain_dumps_contacts cs)).
  apply JsonFacts.loads_dumps_contacts.
Qed.

End FileFacts.

(** C5: round trip.  For every store, whatever its records (valid ones
    in particular), [save] returns normally and a [load] from the file it
    wrote, in the same process or in a new one, returns normally with a
    store whose records are equal, field by field and in the same order,
    to those saved. *)
Theorem C5_save_load_round_trip (st : state) (lines : list string)
    (out : list event) (h : gmap loc Contact) (cs0 : list loc) :
  let st1 := snd (save_contacts (J := python_json) st) in
  fst (save_contacts (J := python_json) st) = Ok tt /\
  records st1 = records st /\
  file st1 = Some (Json.dumps (Json.JArr (map Contact_dict (records st)))) /\
  exists st',
    load_contacts (J := python_json) (mkState (file st1) lines out h cs0)
      = (Ok tt, st') /\
    records st' = records st /\
    length (records st') = length (records st).
Proof.
  destruct (round_trip_for_faithful_library (J := python_json) st
              (mkState (file (snd (save_contacts (J := python_json) st)))
                       lines out h cs0))
    as (Hsave & Hrec & st' & Hload & Hsame).
  - apply FileFacts.load_dumps_contacts.
  - reflexivity.
  - simpl. split; [exact Hsave |]. split; [exact Hrec |].
    split; [reflexivity |].
    exists st'. split; [exact Hload |]. split; [exact Hsame |].
    rewrite Hsame. reflexivity.
Qed.

(** ** The scenarios of the specification, run on the embedding *)

Example scenario_search_is_case_insensitive :
  fst (search_contact "jo" false (state_of None [] [john])) = Ok [0] /\
  fst (search_contact "JO" false (state_of None [] [john])) = Ok [0].
Proof. split; vm_compute; reflexivity. Qed.

Example scenario_search_by_phone :
  fst (search_contact "555" false (state_of None [] [john])) = Ok [0] /\
  fst (search_contact "ABC" false (state_of None [] [john])) = Ok [].
Proof. split; vm_compute; reflexivity. Qed.

Example scenario_add_then_save_and_load :
  let st := snd (add_contact (J := python_json) (Some "John") (Some "Doe")
                   (Some "+15551234") (Some "john@x.com") blank_state) in
  records st = [john] /\
  records (snd (init (J := python_json) (mkState (file st) [] [] ∅ [])))
    = [john].
Proof. split; vm_compute; reflexivity. Qed.

Example scenario_search_then_select_second :
  let st := state_of None ["2"] [jane_a; jane_b] in
  fst (search_contact "jane" false st) = Ok [0; 1] /\
  fst (_select_contact_from_results [0; 1] st) = Ok 1 /\
  deref st 1 = jane_b.
Proof. repeat split; vm_compute; reflexivity. Qed.

Example scenario_delete_without_match :
  let st := state_of None [] [jane_a; jane_b] in
  fst (delete_contact (J := python_json) "zzz" st) = Ok tt /\
  records (snd (delete_contact (J := python_json) "zzz" st)) = [jane_a; jane_b] /\
  stdout (snd (delete_contact (J := python_json) "zzz" st))
    = [Colored "No contacts found." "red"].
Proof. repeat split; vm_compute; reflexivity. Qed.

(* ===================================================================== *)
(** * Further properties of the code *)
(* ===================================================================== *)

(** ** The phone and email validators *)

Module ShapeFacts.
Import Regex.

Lemma lang_cat_inv a b s :
  lang (Cat a b) s <-> exists s1 s2, s = s1 ++ s2 /\ lang a s1 /\ lang b s2.
Proof.
  split.
  - intros H. inversion H; subst. eauto.
  - intros (s1 & s2 & -> & H1 & H2). constructor; assumption.
Qed.

Lemma lang_chr c s : lang (Chr c) s <-> s = [c].
Proof.
  unfold Chr. split.
  - intros H. inversion H as [| p x Hx | | | | |]; subst.
    apply Ascii.eqb_eq in Hx. subst. reflexivity.
  - intros ->. constructor. apply Ascii.eqb_refl.
Qed.

Lemma lang_opt r s : lang (Opt r) s <-> s = [] \/ lang r s.
Proof.
  unfold Opt. split.
  - intros H. inversion H as [| | | a b s0 Hl | a b s0 Hr | |]; subst.
    + inversion Hl. auto.
    + auto.
  - intros [-> | H]; [apply lang_alt_l; constructor | apply lang_alt_r; exact H].
Qed.

Lemma re_match_lang r s :
  re_match r s = true <->
  exists body tail,
    list_ascii_of_string s = body ++ tail /\ lang r body /\
    (tail = [] \/ tail = ["010"%char]).
Proof.
  unfold re_match. rewrite RegexFacts.matches_lang, lang_cat_inv.
  split; intros (body & tail & Hs & Hb & Ht); exists body, tail;
    (split; [exact Hs |]; split; [exact Hb |]); apply RegexFacts.lang_dollar, Ht.
Qed.

End ShapeFacts.

Lemma valid_phone_chars (s : string) :
  _is_valid_phone s = true <->
  exists sign digits tail,
    list_ascii_of_string s = sign ++ digits ++ tail /\
    (sign = [] \/ sign = ["+"%char]) /\
    Forall (fun c => PyStr.is_digit_09 c = true) digits /\
    (tail = [] \/ tail = ["010"%char]).
Proof.
  unfold _is_valid_phone, phone_re. rewrite ShapeFacts.re_match_lang. split.
  - intros (body & tail & Hs & Hb & Ht).
    apply ShapeFacts.lang_cat_inv in Hb as (sign & digits & -> & Hsign & Hdigits).
    apply ShapeFacts.lang_opt in Hsign. apply RegexFacts.lang_star_class in Hdigits.
    exists sign, digits, tail. rewrite Hs, <- List.app_assoc.
    split; [reflexivity |]. split; [| auto].
    destruct Hsign as [-> | Hsign]; [auto |].
    apply ShapeFacts.lang_chr in Hsign. auto.
  - intros (sign & digits & tail & Hs & Hsign & Hdigits & Ht).
    exists (sign ++ digits), tail. rewrite Hs, List.app_assoc.
    split; [reflexivity |]. split; [| exact Ht].
    apply ShapeFacts.lang_cat_inv. exists sign, digits.
    split; [reflexivity |]. split.
    + apply ShapeFacts.lang_opt. destruct Hsign as [-> | ->]; [auto |].
      right. apply ShapeFacts.lang_chr. reflexivity.
    + apply RegexFacts.lang_star_class. exact Hdigits.
Qed.

(** X1: the phone validator.  [_is_valid_phone] accepts exactly the
    strings made of an optional plus sign, then any number of the digits
    0 to 9, none included, then nothing or one final newline.  So it
    accepts the empty string. *)
Theorem X1_valid_phone_iff (s : string) :
  (_is_valid_phone s = true <->
   exists sign digits tail,
     list_ascii_of_string s = sign ++ digits ++ tail /\
     (sign = [] \/ sign = ["+"%char]) /\
     Forall (fun c => PyStr.is_digit_09 c = true) digits /\
     (tail = [] \/ tail = ["010"%char])) /\
  _is_valid_phone "" = true.
Proof. split; [apply valid_phone_chars | reflexivity]. Qed.

(** X2: the email validator.  [_is_valid_email] accepts exactly the
    strings of the shape local part, [@], domain, dot, last label, then
    nothing or one final newline, where the local part and the domain are
    not empty and made of word characters, dots and hyphens, and the last
    label is not empty and made of word characters. *)
Theorem X2_valid_email_iff (s : string) :
  _is_valid_email s = true <->
  exists local domain tld tail,
    list_ascii_of_string s
      = local ++ "@"%char :: domain ++ "."%char :: tld ++ tail /\
    local <> [] /\ Forall (fun c => is_email_char c = true) local /\
    domain <> [] /\ Forall (fun c => is_email_char c = true) domain /\
    tld <> [] /\ Forall (fun c => PyStr.is_word c = true) tld /\
    (tail = [] \/ tail = ["010"%char]).
Proof.
  unfold _is_valid_email, email_re. rewrite ShapeFacts.re_match_lang. split.
  - intros (body & tail & Hs & Hb & Ht).
    apply ShapeFacts.lang_cat_inv in Hb as (local & r1 & -> & Hlocal & Hb).
    apply ShapeFacts.lang_cat_inv in Hb as (at_ & r2 & -> & Hat & Hb).
    apply ShapeFacts.lang_cat_inv in Hb as (domain & r3 & -> & Hdomain & Hb).
    apply ShapeFacts.lang_cat_inv in Hb as (dot & tld & -> & Hdot & Htld).
    apply ShapeFacts.lang_chr in Hat, Hdot. subst at_ dot.
    apply RegexFacts.lang_plus_class in Hlocal as [? ?], Hdomain as [? ?],
      Htld as [? ?].
    exists local, domain, tld, tail. rewrite Hs.
    split; [| auto 10].
    rewrite <- !List.app_assoc. simpl. rewrite <- ?List.app_assoc. reflexivity.
  - intros (local & domain & tld & tail & Hs & ? & ? & ? & ? & ? & ? & Ht).
    exists (local ++ ["@"%char] ++ domain ++ ["."%char] ++ tld), tail.
    split; [rewrite Hs, <- !List.app_assoc; simpl; rewrite <- ?List.app_assoc; reflexivity |].
    split; [| exact Ht].
    repeat (apply ShapeFacts.lang_cat_inv; eexists _, _;
            split; [reflexivity |]; split);
      try (apply RegexFacts.lang_plus_class; auto);
      apply ShapeFacts.lang_chr; reflexivity.
Qed.

(** ** What is typed is stripped before it is validated *)

Lemma chars_rev_app (s1 s2 : string) :
  list_ascii_of_string (String.rev_app s1 s2)
  = List.rev (list_ascii_of_string s1) ++ list_ascii_of_string s2.
Proof.
  revert s2. induction s1 as [| c s1 IH]; intros s2; simpl; [reflexivity |].
  rewrite IH. simpl. rewrite <- List.app_assoc. reflexivity.
Qed.

Lemma chars_rev (s : string) :
  list_ascii_of_string (String.rev s) = List.rev (list_ascii_of_string s).
Proof. unfold String.rev. rewrite chars_rev_app. apply app_nil_r. Qed.

Lemma lstrip_by_head (p : ascii -> bool) (s : string) (c : ascii) (t : string) :
  PyStr.lstrip_by p s = String c t -> p c = false.
Proof.
  induction s as [| x s IH]; simpl; [discriminate |].
  destruct (p x) eqn:Hx; [exact IH |]. intros [= <- _]. exact Hx.
Qed.

(** A stripped string does not end with a character of the class. *)
Lemma strip_by_last (p : ascii -> bool) (s : string) (body : list ascii)
    (c : ascii) :
  list_ascii_of_string (PyStr.strip_by p s) = body ++ [c] -> p c = false.
Proof.
  unfold PyStr.strip_by, PyStr.rstrip_by. rewrite chars_rev.
  destruct (PyStr.lstrip_by p (String.rev (PyStr.lstrip_by p s)))
    as [| x t] eqn:Hstrip; simpl.
  - intros H. destruct body; discriminate.
  - intros H. apply lstrip_by_head in Hstrip.
    apply (f_equal (@List.rev ascii)) in H.
    rewrite !List.rev_app_distr, List.rev_involutive in H. simpl in H.
    injection H as <- _. exact Hstrip.
Qed.

(** X19: a phone number typed at a prompt.  The line read is stripped
    before it is given to the validator, so the final newline that the
    pattern lets through cannot be there: a stripped line is accepted as
    a phone number exactly when it is an optional plus sign followed by
    digits only, the empty line included. *)
Theorem X19_typed_phone_shape (line : string) :
  _is_valid_phone (PyStr.strip line) = true <->
  exists sign digits,
    list_ascii_of_string (PyStr.strip line) = sign ++ digits /\
    (sign = [] \/ sign = ["+"%char]) /\
    Forall (fun c => PyStr.is_digit_09 c = true) digits.
Proof.
  rewrite valid_phone_chars. split.
  - intros (sign & digits & tail & Hs & Hsign & Hdigits & [-> | ->]).
    + exists sign, digits. rewrite app_nil_r in Hs. auto.
    + rewrite List.app_assoc in Hs.
      apply strip_by_last in Hs. discriminate.
  - intros (sign & digits & Hs & Hsign & Hdigits).
    exists sign, digits, []. rewrite app_nil_r. auto.
Qed.

(** ** Outcomes of the methods *)

Lemma console_step_refl (st : state) : console_step st st.
Proof. split; exists []; [reflexivity | symmetry; apply app_nil_r]. Qed.

Lemma console_step_trans (a b c : state) :
  console_step a b -> console_step b c -> console_step a c.
Proof.
  intros [[u1 H1] [e1 H2]] [[u2 H3] [e2 H4]]. split.
  - exists (u1 ++ u2). rewrite H1, H3. apply List.app_assoc.
  - exists (e1 ++ e2). rewrite H4, H2. symmetry. apply List.app_assoc.
Qed.

Lemma console_step_printed (events : list event) (st : state) :
  console_step st (printed events st).
Proof. split; [exists [] | exists events]; reflexivity. Qed.

Lemma console_step_read (line : string) (rest : list string) (st : state) :
  stdin st = line :: rest -> console_step st (set_stdin rest st).
Proof.
  intros H. split; [exists [line]; exact H | exists []].
  symmetry. apply app_nil_r.
Qed.

Lemma atomic_ret {A} (a : A) (st : state) (Q : A -> state -> Prop) :
  Q a st -> atomic (ret a) st Q.
Proof. intros H. split; [apply console_step_refl | exact H]. Qed.

Lemma atomic_get (st : state) (Q : state -> state -> Prop) :
  Q st st -> atomic get st Q.
Proof. intros H. split; [apply console_step_refl | exact H]. Qed.

Lemma atomic_emit (e : event) (st : state) (Q : unit -> state -> Prop) :
  Q tt (printed [e] st) -> atomic (emit e) st Q.
Proof. intros H. split; [apply (console_step_printed [e]) | exact H]. Qed.

Lemma atomic_read_line (st : state) (Q : string -> state -> Prop) :
  (forall line rest, stdin st = line :: rest -> Q line (set_stdin rest st)) ->
  atomic read_line st Q.
Proof.
  intros H. unfold atomic, read_line.
  destruct (stdin st) as [| line rest] eqn:Hin; simpl.
  - split; [apply console_step_refl |].
    split; [reflexivity |]. split; [apply same_store_refl | exact Hin].
  - split; [eapply console_step_read; exact Hin | apply H; reflexivity].
Qed.

Lemma atomic_read_answer (st : state) (Q : string -> state -> Prop) :
  (forall line rest,
     stdin st = line :: rest ->
     Q (PyStr.lower (PyStr.strip line)) (set_stdin rest st)) ->
  atomic read_answer st Q.
Proof.
  intros H. unfold atomic, read_answer, bind, read_line, ret.
  destruct (stdin st) as [| line rest] eqn:Hin; simpl.
  - split; [apply console_step_refl |].
    split; [reflexivity |]. split; [apply same_store_refl | exact Hin].
  - split; [eapply console_step_read; exact Hin | apply H; reflexivity].
Qed.

Lemma atomic_conseq {A} (m : M A) (st : state) (Q Q' : A -> state -> Prop) :
  atomic m st Q ->
  (forall a st', console_step st st' -> Q a st' -> Q' a st') ->
  atomic m st Q'.
Proof.
  unfold atomic. intros [Hc H] Himp. split; [exact Hc |].
  destruct (fst (m st)); auto.
Qed.

(** Sequencing: what comes after a part that left the store alone. *)
Lemma atomic_bind {A B} (m : M A) (f : A -> M B) (st : state)
    (P : A -> Prop) (Q : B -> state -> Prop) :
  quiet m st P ->
  (forall a st1,
     same_store st st1 -> console_step st st1 -> P a -> atomic (f a) st1 Q) ->
  atomic (bind m f) st Q.
Proof.
  unfold quiet, atomic, bind. intros [Hc Hm] Hf.
  destruct (m st) as [[a | e |] st1]; simpl in *; [| auto | contradiction].
  destruct Hm as [Hs HP]. specialize (Hf a st1 Hs Hc HP) as [Hc2 Hf].
  destruct (f a st1) as [r st2]; simpl in *.
  split; [eapply console_step_trans; eassumption |].
  destruct r as [b | e |]; [exact Hf | | exact Hf].
  destruct Hf as (-> & Hs2 & Hin).
  split; [reflexivity |]. split; [| exact Hin].
  eapply same_store_trans; eassumption.
Qed.

Lemma quiet_bind {A B} (m : M A) (f : A -> M B) (st : state)
    (P : A -> Prop) (Q : B -> Prop) :
  quiet m st P ->
  (forall a st1,
     same_store st st1 -> console_step st st1 -> P a -> quiet (f a) st1 Q) ->
  quiet (bind m f) st Q.
Proof.
  intros Hm Hf. unfold quiet at 1. eapply atomic_bind; [exact Hm |].
  intros a st1 Hs Hc HP. eapply atomic_conseq; [apply (Hf a st1 Hs Hc HP) |].
  intros b st' _ [Hs' HQ]. split; [| exact HQ].
  eapply same_store_trans; eassumption.
Qed.

Lemma quiet_ret {A} (a : A) (st : state) (P : A -> Prop) :
  P a -> quiet (ret a) st P.
Proof. intros H. apply atomic_ret. split; [apply same_store_refl | exact H]. Qed.

Lemma quiet_get (st : state) (P : state -> Prop) : P st -> quiet get st P.
Proof. intros H. apply atomic_get. split; [apply same_store_refl | exact H]. Qed.

Lemma quiet_emit (e : event) (st : state) (P : unit -> Prop) :
  P tt -> quiet (emit e) st P.
Proof. intros H. apply atomic_emit. split; [repeat split | exact H]. Qed.

Lemma quiet_read_line (st : state) (P : string -> Prop) :
  (forall line, P line) -> quiet read_line st P.
Proof.
  intros H. apply atomic_read_line. intros line rest _.
  split; [repeat split | apply H].
Qed.

Lemma quiet_read_answer (st : state) (P : string -> Prop) :
  (forall line, P (PyStr.lower (PyStr.strip line))) -> quiet read_answer st P.
Proof.
  intros H. apply atomic_read_answer. intros line rest _.
  split; [repeat split | apply H].
Qed.

Lemma quiet_conseq {A} (m : M A) (st : state) (P P' : A -> Prop) :
  quiet m st P -> (forall a, P a -> P' a) -> quiet m st P'.
Proof.
  intros Hm Himp. eapply atomic_conseq; [exact Hm |].
  intros a st' _ [Hs HP]. auto.
Qed.

(** A step that sets the lines left to the end of those there are. *)
Lemma quiet_take_line (line : string) (rest : list string) (st : state)
    (P : unit -> Prop) :
  stdin st = line :: rest -> P tt -> quiet (modify (set_stdin rest)) st P.
Proof.
  intros Hin HP. split; [eapply console_step_read; exact Hin |].
  simpl. split; [repeat split | exact HP].
Qed.

Lemma quiet_eof {A} (st : state) (P : A -> Prop) :
  stdin st = [] -> quiet (raise EOFError) st P.
Proof.
  intros Hin. split; [apply console_step_refl |]. simpl.
  split; [reflexivity |]. split; [apply same_store_refl | exact Hin].
Qed.

(** Sequencing after a step whose run is known. *)
Lemma atomic_step {A B} (m : M A) (f : A -> M B) (st st1 : state) (a : A)
    (Q : B -> state -> Prop) :
  m st = (Ok a, st1) -> same_store st st1 -> console_step st st1 ->
  atomic (f a) st1 Q -> atomic (bind m f) st Q.
Proof.
  intros Hrun Hs Hc [Hc2 Hf]. unfold atomic, bind in *. rewrite Hrun.
  destruct (f a st1) as [r st2]; simpl in *.
  split; [eapply console_step_trans; eassumption |].
  destruct r as [b | e |]; [exact Hf | | exact Hf].
  destruct Hf as (-> & Hs2 & Hin).
  split; [reflexivity |]. split; [| exact Hin].
  eapply same_store_trans; eassumption.
Qed.

Lemma quiet_step {A B} (m : M A) (f : A -> M B) (st st1 : state) (a : A)
    (P : B -> Prop) :
  m st = (Ok a, st1) -> same_store st st1 -> console_step st st1 ->
  quiet (f a) st1 P -> quiet (bind m f) st P.
Proof.
  intros Hrun Hs Hc Hf. unfold quiet. eapply atomic_step; try eassumption.
  eapply atomic_conseq; [exact Hf |].
  intros b st' _ [Hs' HP]. split; [| exact HP].
  eapply same_store_trans; eassumption.
Qed.

Ltac quiet_emit_step :=
  eapply quiet_step;
  [ reflexivity | repeat split | apply (console_step_printed [_]) | ].

Ltac quiet_take_step Hin :=
  eapply quiet_step;
  [ reflexivity | repeat split | eapply console_step_read; exact Hin | ].

(** The loops that read until a line is accepted. *)
Lemma quiet_get_valid_input_on (prompt error_message : string)
    (validation_func : string -> bool) (lines : list string) :
  forall st,
    stdin st = lines ->
    quiet (get_valid_input_on prompt validation_func error_message lines) st
          (fun v => validation_func v = true).
Proof.
  induction lines as [| line rest IH]; intros st Hin; simpl.
  - quiet_emit_step. apply quiet_eof. exact Hin.
  - quiet_emit_step. quiet_take_step Hin.
    destruct (validation_func (PyStr.strip line)) eqn:Hv.
    + apply quiet_ret. exact Hv.
    + quiet_emit_step. apply IH. reflexivity.
Qed.

Lemma quiet_get_valid_input (prompt error_message : string)
    (validation_func : string -> bool) (st : state) :
  quiet (get_valid_input prompt validation_func error_message) st
        (fun v => validation_func v = true).
Proof.
  unfold get_valid_input.
  eapply quiet_step; [reflexivity | apply same_store_refl
                     | apply console_step_refl |].
  apply quiet_get_valid_input_on. reflexivity.
Qed.

Lemma quiet_get_new_value_on (prompt error_message current : string)
    (validation_func : string -> bool) (lines : list string) :
  forall st,
    stdin st = lines ->
    quiet (get_new_value_on prompt validation_func error_message current lines)
          st (fun v => v = current \/ validation_func v = true).
Proof.
  induction lines as [| line rest IH]; intros st Hin; simpl.
  - quiet_emit_step. apply quiet_eof. exact Hin.
  - quiet_emit_step. quiet_take_step Hin.
    destruct (String.eqb (PyStr.strip line) ""); [apply quiet_ret; auto |].
    destruct (validation_func (PyStr.strip line)) eqn:Hv; simpl.
    + apply quiet_ret. auto.
    + quiet_emit_step. apply IH. reflexivity.
Qed.

Lemma quiet_get_new_value (prompt error_message current : string)
    (validation_func : string -> bool) (st : state) :
  quiet (get_new_value prompt validation_func error_message current) st
        (fun v => v = current \/ validation_func v = true).
Proof.
  unfold get_new_value.
  eapply quiet_step; [reflexivity | apply same_store_refl
                     | apply console_step_refl |].
  apply quiet_get_new_value_on. reflexivity.
Qed.

Lemma quiet_select_on (results : list loc) (lines : list string) :
  forall st,
    stdin st = lines ->
    quiet (select_on results lines) st (fun c => In c results).
Proof.
  induction lines as [| line rest IH]; intros st Hin; simpl.
  - quiet_emit_step. apply quiet_eof. exact Hin.
  - quiet_emit_step. quiet_take_step Hin.
    destruct (PyStr.int line) as [n |].
    + destruct ((0 <=? n - 1)%Z && (n - 1 <? Z.of_nat (length results))%Z)
        eqn:Hrange.
      * apply andb_true_iff in Hrange as [Hlo Hhi].
        apply Z.leb_le in Hlo. apply Z.ltb_lt in Hhi.
        destruct (lookup_lt_is_Some_2 results (Z.to_nat (n - 1))) as [c Hc];
          [lia |].
        rewrite Hc. apply quiet_ret. apply list_elem_of_In.
        eapply list_elem_of_lookup_2. exact Hc.
      * quiet_emit_step. apply IH. reflexivity.
    + quiet_emit_step. apply IH. reflexivity.
Qed.

Lemma quiet_select (results : list loc) (st : state) :
  results <> [] ->
  quiet (_select_contact_from_results results) st (fun c => In c results).
Proof.
  intros Hne. destruct (1 <? length results)%nat eqn:Hlen.
  - unfold _select_contact_from_results. rewrite Hlen.
    eapply quiet_step; [apply print_enumerated_run | repeat split
                       | apply console_step_printed |].
    eapply quiet_step; [reflexivity | apply same_store_refl
                       | apply console_step_refl |].
    apply quiet_select_on. reflexivity.
  - unfold _select_contact_from_results. rewrite Hlen.
    destruct results as [| c rest]; [congruence |].
    apply quiet_ret. left. reflexivity.
Qed.

Lemma quiet_search (q : string) (display : bool) (st : state) :
  quiet (search_contact q display) st
    (fun results =>
       results = List.filter (fun l => matches_query (PyStr.lower q) (deref st l))
                             (contacts st)).
Proof.
  unfold search_contact.
  eapply quiet_step; [reflexivity | apply same_store_refl
                     | apply console_step_refl |].
  destruct display.
  - destruct (List.filter _ _) eqn:Hres.
    + quiet_emit_step. apply quiet_ret. reflexivity.
    + quiet_emit_step. apply quiet_ret. reflexivity.
  - eapply quiet_step; [reflexivity | apply same_store_refl
                       | apply console_step_refl |].
    apply quiet_ret. reflexivity.
Qed.

Lemma quiet_display (st : state) : quiet display_contacts st (fun _ => True).
Proof.
  unfold display_contacts.
  eapply quiet_step; [reflexivity | apply same_store_refl
                     | apply console_step_refl |].
  destruct (contacts st); apply quiet_emit; exact I.
Qed.

Ltac chain_store :=
  repeat match goal with
  | H1 : same_store ?a ?b, H2 : same_store ?b ?c |- _ =>
      lazymatch goal with
      | _ : same_store a c |- _ => fail
      | _ => pose proof (same_store_trans a b c H1 H2)
      end
  end.

Ltac atomic_emit_step :=
  eapply atomic_step;
  [ reflexivity | repeat split | apply (console_step_printed [_]) | ].

Ltac atomic_get_step :=
  eapply atomic_step;
  [ reflexivity | apply same_store_refl | apply console_step_refl | ].

Section Outcomes.
Context {J : JsonLib}.

Lemma quiet_given_or_asked (arg : option string) (prompt error_message : string)
    (validation_func : string -> bool) (st : state) :
  quiet (given_or_asked arg prompt validation_func error_message) st
        (given_or_valid validation_func arg).
Proof.
  destruct arg as [a |]; simpl.
  - apply quiet_ret. reflexivity.
  - apply quiet_get_valid_input.
Qed.

Lemma append_contact_outcome (f l p e : string) (st0 st : state) :
  same_store st0 st ->
  appended (mkContact f l p e) st0 (snd (append_contact f l p e st)) /\
  in_sync (snd (append_contact f l p e st)) /\
  fst (append_contact f l p e st) = Ok tt /\
  console_step st (snd (append_contact f l p e st)).
Proof.
  intros Hs. destruct (append_contact_run f l p e st) as (st' & Hrun & Happ).
  split; [rewrite Hrun; eapply appended_same_store; eassumption |].
  split; [reflexivity |]. split; [reflexivity |].
  split; [exists [] | eexists]; reflexivity.
Qed.

Lemma add_contact_outcome (f l p e : option string) (st : state) :
  atomic (add_contact f l p e) st
    (fun _ st' =>
       same_store st st' \/
       exists c,
         given_or_valid _is_valid_name f (first_name c) /\
         given_or_valid _is_valid_name l (last_name c) /\
         given_or_valid _is_valid_phone p (phone_number c) /\
         given_or_valid _is_valid_email e (email c) /\
         appended c st st' /\ in_sync st').
Proof.
  unfold add_contact.
  eapply atomic_bind; [apply quiet_given_or_asked |]. intros vf st1 Hs1 _ Hf.
  eapply atomic_bind; [apply quiet_given_or_asked |]. intros vl st2 Hs2 _ Hl.
  eapply atomic_bind; [apply quiet_given_or_asked |]. intros vp st3 Hs3 _ Hp.
  eapply atomic_bind; [apply quiet_given_or_asked |]. intros ve st4 Hs4 _ He.
  chain_store.
  assert (Hgo : forall st5, same_store st st5 ->
            atomic (append_contact vf vl vp ve) st5
              (fun _ st' =>
                 same_store st st' \/
                 exists c,
                   given_or_valid _is_valid_name f (first_name c) /\
                   given_or_valid _is_valid_name l (last_name c) /\
                   given_or_valid _is_valid_phone p (phone_number c) /\
                   given_or_valid _is_valid_email e (email c) /\
                   appended c st st' /\ in_sync st')).
  { intros st5 Hs5.
    destruct (append_contact_outcome vf vl vp ve st st5 Hs5)
      as (Happ & Hsync & Hok & Hc).
    split; [exact Hc |]. rewrite Hok. right.
    exists (mkContact vf vl vp ve). auto 10. }
  eapply atomic_step; [reflexivity | apply same_store_refl
                      | apply console_step_refl |].
  destruct (existsb _ _); [| apply Hgo; assumption].
  eapply atomic_step; [reflexivity | repeat split
                      | apply (console_step_printed [_]) |].
  eapply atomic_bind with (P := fun _ => True);
    [apply quiet_read_answer; intros; exact I |].
  intros answer st6 Hs6 _ _.
  assert (Hs : same_store st st6).
  { apply (same_store_trans st st4); [assumption |].
    eapply same_store_trans; [| exact Hs6]. repeat split. }
  destruct (negb _); [| apply Hgo; exact Hs].
  apply atomic_emit. left.
  eapply same_store_trans; [exact Hs |]. repeat split.
Qed.

Lemma remove_first_In (c : loc) (l : list loc) :
  In c l -> exists left, remove_first c l = Some left.
Proof.
  induction l as [| x l IH]; simpl; [intros [] |].
  intros Hin. destruct (Nat.eqb x c) eqn:Hx; [eauto |].
  destruct Hin as [-> | Hin]; [rewrite Nat.eqb_refl in Hx; discriminate |].
  destruct (IH Hin) as [left ->]. simpl. eauto.
Qed.

Lemma write_contact_outcome (q : string) (index : nat) (c : loc)
    (f l p e : string) (st0 st : state) :
  same_store st0 st ->
  contacts st !! index = Some c ->
  In c (contacts st0) ->
  matches_query (PyStr.lower q) (deref st0 c) = true ->
  kept_or_valid _is_valid_name (first_name (deref st0 c)) f ->
  kept_or_valid _is_valid_name (last_name (deref st0 c)) l ->
  kept_or_valid _is_valid_phone (phone_number (deref st0 c)) p ->
  kept_or_valid _is_valid_email (email (deref st0 c)) e ->
  atomic (write_contact index f l p e) st
    (fun _ st' => same_store st0 st' \/ modified_from q st0 st').
Proof.
  intros (Hh & Hc & _) Hi Hin Hq Hf Hl Hp He.
  unfold atomic. rewrite (write_contact_run index c f l p e st Hi). simpl.
  split; [split; [exists [] | eexists]; reflexivity |].
  right. exists c, (mkContact f l p e). simpl. rewrite Hh.
  repeat split; assumption.
Qed.

Lemma check_and_write_outcome (q : string) (index : nat) (c : loc)
    (f l p e : string) (st0 st : state) :
  same_store st0 st ->
  contacts st !! index = Some c ->
  In c (contacts st0) ->
  matches_query (PyStr.lower q) (deref st0 c) = true ->
  kept_or_valid _is_valid_name (first_name (deref st0 c)) f ->
  kept_or_valid _is_valid_name (last_name (deref st0 c)) l ->
  kept_or_valid _is_valid_phone (phone_number (deref st0 c)) p ->
  kept_or_valid _is_valid_email (email (deref st0 c)) e ->
  atomic (check_and_write index f l p e) st
    (fun _ st' => same_store st0 st' \/ modified_from q st0 st').
Proof.
  intros Hs Hi Hin Hq Hf Hl Hp He. unfold check_and_write.
  atomic_get_step.
  destruct (existsb _ _);
    [| eapply write_contact_outcome; eassumption].
  atomic_emit_step.
  eapply atomic_bind with (P := fun _ => True);
    [apply quiet_read_answer; intros; exact I |].
  intros answer st1 Hs1 _ _.
  assert (Hs' : same_store st0 st1).
  { apply (same_store_trans st0 st); [exact Hs |].
    eapply same_store_trans; [| exact Hs1]. repeat split. }
  destruct (negb _).
  - apply atomic_emit. left.
    eapply same_store_trans; [exact Hs' |]. repeat split.
  - eapply write_contact_outcome; try eassumption.
    destruct Hs1 as (_ & -> & _). exact Hi.
Qed.

Lemma In_results (q : string) (c : loc) (st : state) :
  In c (List.filter (fun l => matches_query (PyStr.lower q) (deref st l))
                    (contacts st)) ->
  In c (contacts st) /\ matches_query (PyStr.lower q) (deref st c) = true.
Proof. apply filter_In. Qed.

Lemma edit_contact_outcome (q : string) (c : loc) (st0 st : state) :
  same_store st0 st ->
  In c (contacts st0) ->
  matches_query (PyStr.lower q) (deref st0 c) = true ->
  atomic (edit_contact c) st
    (fun _ st' => same_store st0 st' \/ modified_from q st0 st').
Proof.
  intros Hs Hin Hq. unfold edit_contact.
  assert (Hin' : In c (contacts st)) by (destruct Hs as (_ & -> & _); exact Hin).
  destruct (index_of_In c (contacts st) Hin') as [index Hindex].
  eapply atomic_step; [apply contacts_index_run; exact Hindex
                      | apply same_store_refl | apply console_step_refl |].
  atomic_get_step.
  assert (Hcur : deref st c = deref st0 c)
    by (unfold deref; destruct Hs as (-> & _); reflexivity).
  rewrite Hcur.
  eapply atomic_bind; [apply quiet_get_new_value |]. intros f st1 Hs1 _ Hf.
  eapply atomic_bind; [apply quiet_get_new_value |]. intros l st2 Hs2 _ Hl.
  eapply atomic_bind; [apply quiet_get_new_value |]. intros p st3 Hs3 _ Hp.
  eapply atomic_bind; [apply quiet_get_new_value |]. intros e st4 Hs4 _ He.
  chain_store.
  eapply check_and_write_outcome; try eassumption.
  replace (contacts st4) with (contacts st).
  - apply index_of_lookup. exact Hindex.
  - symmetry. match goal with H : same_store st st4 |- _ => apply H end.
Qed.

Lemma modify_contact_outcome (q : string) (st : state) :
  atomic (modify_contact q) st
    (fun _ st' => same_store st st' \/ modified_from q st st').
Proof.
  unfold modify_contact.
  eapply atomic_bind; [apply quiet_search |]. intros results st1 Hs1 _ ->.
  destruct (List.filter _ (contacts st)) as [| x results] eqn:Hres.
  { apply atomic_emit. left.
    eapply same_store_trans; [exact Hs1 |]. repeat split. }
  eapply atomic_bind; [apply quiet_select; discriminate |].
  intros c st2 Hs2 _ Hc. rewrite <- Hres in Hc.
  apply In_results in Hc as [Hin Hq].
  assert (Hs : same_store st st2) by (eapply same_store_trans; eassumption).
  unfold modify_selected.
  atomic_emit_step. atomic_get_step. atomic_emit_step. atomic_emit_step.
  eapply atomic_bind with (P := fun _ => True);
    [apply quiet_read_answer; intros; exact I |].
  intros answer st3 Hs3 _ _.
  assert (Hs' : same_store st st3).
  { apply (same_store_trans st st2); [exact Hs |].
    eapply same_store_trans; [| exact Hs3]. repeat split. }
  destruct (negb _).
  - apply atomic_emit. left.
    eapply same_store_trans; [exact Hs' |]. repeat split.
  - eapply edit_contact_outcome; eassumption.
Qed.

Lemma delete_contact_outcome (q : string) (st : state) :
  atomic (delete_contact q) st
    (fun _ st' => same_store st st' \/ deleted_from q st st').
Proof.
  unfold delete_contact.
  eapply atomic_bind; [apply quiet_search |]. intros results st1 Hs1 _ ->.
  destruct (List.filter _ (contacts st)) as [| x results] eqn:Hres.
  { apply atomic_emit. left.
    eapply same_store_trans; [exact Hs1 |]. repeat split. }
  eapply atomic_bind; [apply quiet_select; discriminate |].
  intros c st2 Hs2 _ Hc. rewrite <- Hres in Hc.
  apply In_results in Hc as [Hin Hq].
  assert (Hs : same_store st st2) by (eapply same_store_trans; eassumption).
  unfold delete_selected.
  atomic_emit_step. atomic_get_step. atomic_emit_step. atomic_emit_step.
  eapply atomic_bind with (P := fun _ => True);
    [apply quiet_read_answer; intros; exact I |].
  intros answer st3 Hs3 _ _.
  assert (Hs' : same_store st st3).
  { apply (same_store_trans st st2); [exact Hs |].
    eapply same_store_trans; [| exact Hs3]. repeat split. }
  destruct (String.eqb answer "y").
  - destruct Hs' as (Hh & Hc & Hf).
    assert (Hin' : In c (contacts st3)) by (rewrite Hc; exact Hin).
    destruct (remove_first_In c (contacts st3) Hin') as [left Hleft].
    unfold atomic, contacts_remove, bind, get. rewrite Hleft. simpl.
    split; [split; [exists [] | eexists]; reflexivity |].
    right. exists c. rewrite <- Hc. rewrite Hleft. repeat split; assumption.
  - apply atomic_emit. left.
    eapply same_store_trans; [exact Hs' |]. repeat split.
Qed.

End Outcomes.

(** ** The menu *)

Lemma console_step_length (st st' : state) :
  console_step st st' -> (length (stdin st') <= length (stdin st))%nat.
Proof. intros [[used ->] _]. rewrite length_app. lia. Qed.

Lemma print_in_color_then {A} (text color : string) (f : unit -> M A)
    (st : state) :
  bind (print_in_color text color) f st = f tt (printed [Colored text color] st).
Proof. reflexivity. Qed.

Lemma menu_run (st : state) : menu st = (Ok tt, printed menu_events st).
Proof.
  unfold menu. rewrite !print_in_color_then.
  change (print_in_color ?t ?c ?s) with (Ok tt, printed [Colored t c] s).
  rewrite !printed_printed. reflexivity.
Qed.

Lemma quiet_read_choice (st : state) : quiet read_choice st (fun _ => True).
Proof.
  unfold read_choice. eapply quiet_bind with (P := fun _ => True).
  - apply quiet_read_line. intros; exact I.
  - intros line st1 _ _ _. apply quiet_ret. exact I.
Qed.

Lemma quiet_ask (prompt : string) (st : state) :
  quiet (ask prompt) st (fun _ => True).
Proof.
  unfold ask. quiet_emit_step. eapply quiet_bind with (P := fun _ => True).
  - apply quiet_read_line. intros; exact I.
  - intros line st1 _ _ _. apply quiet_ret. exact I.
Qed.

Lemma atomic_total {A} (m : M A) (st : state) (Q : A -> state -> Prop) :
  atomic m st Q ->
  console_step st (snd (m st)) /\
  ((exists a, fst (m st) = Ok a) \/
   (fst (m st) = Raise EOFError /\ stdin (snd (m st)) = [])).
Proof.
  intros [Hc H]. split; [exact Hc |].
  destruct (fst (m st)) as [a | e |]; [eauto | | contradiction].
  destruct H as (-> & _ & Hin). auto.
Qed.

Section MenuFacts.
Context {J : JsonLib}.

Lemma atomic_on_existing_file (prompt : string) (method : string -> M unit)
    (st : state) (Q : unit -> state -> Prop) :
  (forall st', same_store st st' -> Q tt st') ->
  (forall query st1, same_store st st1 -> atomic (method query) st1 Q) ->
  atomic (on_existing_file prompt method) st Q.
Proof.
  intros Hsame Hmethod. unfold on_existing_file, file_exists.
  atomic_get_step.
  destruct (file st).
  - eapply atomic_bind; [apply quiet_ask |].
    intros query st1 Hs1 _ _. apply Hmethod. exact Hs1.
  - apply atomic_emit. apply Hsame. repeat split.
Qed.

Lemma seq_cases {A} (m : M A) (st : state) (Q : A -> state -> Prop) :
  atomic m st Q ->
  (fst (m st) = Raise EOFError /\ same_store st (snd (m st)) /\
   stdin (snd (m st)) = [] /\
   forall B (f : A -> M B), bind m f st = (Raise EOFError, snd (m st))) \/
  (exists a, fst (m st) = Ok a /\ Q a (snd (m st)) /\
             forall B (f : A -> M B), bind m f st = f a (snd (m st))).
Proof.
  intros [_ H]. unfold bind.
  destruct (m st) as [[a | e |] st1]; simpl in *; [| | contradiction].
  - right. exists a. auto.
  - left. destruct H as (-> & Hs & Hin). auto.
Qed.

Lemma round_outcome_seq {A} (m : M A) (st0 st : state)
    (Q : A -> state -> Prop) :
  same_store st0 st ->
  atomic m st Q ->
  (forall a st1, Q a st1 -> store_step st0 st1) ->
  forall (round : M unit -> M unit),
    (forall again, round again st0 = bind m (fun _ => again) st) ->
    round_outcome round st0 st.
Proof.
  intros Hs Hm HQ round Hround.
  pose proof Hm as [Hc1 _].
  destruct (seq_cases m st Q Hm) as [(He & Hs1 & Hin & Hrun) | (a & Ha & Hq & Hrun)].
  - left. exists (Raise EOFError), (snd (m st)).
    split; [intros again; rewrite Hround; apply Hrun |].
    split; [exact Hc1 |].
    split; [eapply same_store_trans; eassumption |].
    left. auto.
  - right. exists (snd (m st)).
    split; [intros again; rewrite Hround; apply Hrun |].
    split; [exact Hc1 |].
    eapply HQ; eassumption.
Qed.

Lemma round_outcome_print (text : string) (st0 st : state)
    (round : M unit -> M unit) :
  round_outcome round st0 (printed [Plain text] st) ->
  round_outcome round st0 st.
Proof.
  intros [(r & st' & Hrun & Hc & H) | (st1 & Hrun & Hc & H)]; [left | right].
  - exists r, st'. split; [exact Hrun |]. split; [| exact H].
    eapply console_step_trans; [apply console_step_printed | exact Hc].
  - exists st1. split; [exact Hrun |]. split; [| exact H].
    eapply console_step_trans; [apply console_step_printed | exact Hc].
Qed.

Lemma store_step_same (st0 st st' : state) :
  same_store st0 st -> same_store st st' -> store_step st0 st'.
Proof. intros H1 H2. left. eapply same_store_trans; eassumption. Qed.

Lemma appended_from_same (c : Contact) (st0 st st' : state) :
  same_store st0 st -> appended c st st' -> appended c st0 st'.
Proof. apply appended_same_store. Qed.

Lemma modified_from_same (q : string) (st0 st st' : state) :
  same_store st0 st -> modified_from q st st' -> modified_from q st0 st'.
Proof.
  intros (Hh & Hc & _) (c & r & H). exists c, r.
  unfold deref in *. rewrite Hh, Hc in H. exact H.
Qed.

Lemma deleted_from_same (q : string) (st0 st st' : state) :
  same_store st0 st -> deleted_from q st st' -> deleted_from q st0 st'.
Proof.
  intros (Hh & Hc & _) (c & H). exists c.
  unfold deref in *. rewrite Hh, Hc in H. exact H.
Qed.

Lemma on_choice_outcome (choice : string) (st0 st : state) :
  same_store st0 st ->
  forall (round : M unit -> M unit),
    (forall again, round again st0 = on_choice choice again st) ->
    round_outcome round st0 st.
Proof.
  intros Hs round Hround. unfold on_choice in Hround.
  destruct (String.eqb choice "1").
  { apply (round_outcome_print (String Json.LF "Enter new contact details:")).
    eapply round_outcome_seq;
      [| apply (add_contact_outcome None None None None) | | exact Hround].
    - eapply same_store_trans; [exact Hs | repeat split].
    - intros _ st2 [Hsame | (c & Hf & Hl & Hp & He & Happ & Hsync)].
      + eapply store_step_same; [exact Hs |].
        eapply same_store_trans; [| exact Hsame]. repeat split.
      + right. left. exists c. split.
        * unfold valid_contact. simpl in Hf, Hl, Hp, He.
          rewrite Hf, Hl, Hp, He. reflexivity.
        * split; [| exact Hsync]. eapply appended_from_same; [| exact Happ].
          eapply same_store_trans; [exact Hs | repeat split]. }
  destruct (String.eqb choice "2").
  { apply (round_outcome_print (String Json.LF "Displaying all contacts:")).
    eapply round_outcome_seq; [| apply quiet_display | | exact Hround].
    - eapply same_store_trans; [exact Hs | repeat split].
    - intros _ st2 [Hsame _]. eapply store_step_same; [exact Hs |].
      eapply same_store_trans; [| exact Hsame]. repeat split. }
  destruct (String.eqb choice "3").
  { eapply (round_outcome_seq _ st0 st (fun _ st' => store_step st0 st') Hs);
      [| auto | exact Hround].
    apply atomic_on_existing_file.
    - intros st' Hs'. eapply store_step_same; eassumption.
    - intros query st1 Hs1.
      eapply atomic_conseq; [apply modify_contact_outcome |].
      intros _ st' _ [Hsame | Hmod].
      + left. eapply same_store_trans; [| exact Hsame].
        eapply same_store_trans; eassumption.
      + right. right. left. exists query.
        eapply modified_from_same; [| exact Hmod].
        eapply same_store_trans; eassumption. }
  destruct (String.eqb choice "4").
  { eapply (round_outcome_seq _ st0 st (fun _ st' => store_step st0 st') Hs);
      [| auto | exact Hround].
    apply atomic_on_existing_file.
    - intros st' Hs'. eapply store_step_same; eassumption.
    - intros query st1 Hs1.
      eapply atomic_conseq; [apply delete_contact_outcome |].
      intros _ st' _ [Hsame | Hdel].
      + left. eapply same_store_trans; [| exact Hsame].
        eapply same_store_trans; eassumption.
      + right. right. right. exists query.
        eapply deleted_from_same; [| exact Hdel].
        eapply same_store_trans; eassumption. }
  destruct (String.eqb choice "5").
  { eapply (round_outcome_seq _ st0 st (fun _ st' => store_step st0 st') Hs);
      [| auto | exact Hround].
    apply atomic_on_existing_file.
    - intros st' Hs'. eapply store_step_same; eassumption.
    - intros query st1 Hs1.
      eapply atomic_bind; [apply quiet_search |].
      intros results st2 Hs2 _ _. apply atomic_ret.
      left. eapply same_store_trans; [| exact Hs2].
      eapply same_store_trans; eassumption. }
  destruct (String.eqb choice "6").
  { left. exists (Ok tt), (printed [goodbye] st).
    split; [exact Hround |].
    split; [apply console_step_printed |].
    split; [eapply same_store_trans; [exact Hs | repeat split] |].
    right. split; [reflexivity |]. exists (stdout st). reflexivity. }
  right.
  exists (printed [Plain "Invalid choice. Please enter a number from 1 to 6."] st).
  split; [exact Hround |].
  split; [apply console_step_printed |].
  left. eapply same_store_trans; [exact Hs | repeat split].
Qed.

(** A round ends the run or goes on, one step of the store away, with
    fewer lines left. *)
Lemma main_round_outcome (st : state) :
  (exists r st',
     (forall again, main_round again st = (r, st')) /\
     console_step st st' /\ same_store st st' /\ final r st') \/
  (exists st1,
     (forall again, main_round again st = again st1) /\
     console_step st st1 /\ store_step st st1 /\
     (length (stdin st1) < length (stdin st))%nat).
Proof.
  destruct (stdin st) as [| line rest] eqn:Hlines.
  { left. exists (Raise EOFError), (printed menu_events st).
    split; [| split; [apply console_step_printed |];
              split; [repeat split | left; auto]].
    intros again. unfold main_round.
    rewrite (bind_ok _ _ _ _ _ (menu_run st)).
    unfold bind, read_choice, bind, read_line. simpl. rewrite Hlines.
    reflexivity. }
  set (st_r := set_stdin rest (printed menu_events st)).
  assert (Hs : same_store st st_r) by (repeat split).
  assert (Hc : console_step st st_r).
  { eapply console_step_trans; [apply (console_step_printed menu_events) |].
    eapply console_step_read. exact Hlines. }
  destruct (on_choice_outcome (PyStr.strip line) st st_r Hs main_round)
    as [(r & st' & Hrun & Hc1 & H) | (st1 & Hrun & Hc1 & Hstep)].
  - intros again. unfold main_round.
    rewrite (bind_ok _ _ _ _ _ (menu_run st)).
    unfold bind at 1, read_choice, bind, read_line. simpl. rewrite Hlines.
    reflexivity.
  - left. exists r, st'. split; [exact Hrun |]. split; [| exact H].
    eapply console_step_trans; eassumption.
  - right. exists st1. split; [exact Hrun |].
    split; [eapply console_step_trans; eassumption |].
    split; [exact Hstep |].
    apply console_step_length in Hc1. simpl in Hc1. simpl. lia.
Qed.

(** With more fuel than lines, the loop ends as the program does, and
    the fuel does not matter. *)
Lemma main_loop_ends_well (fuel : nat) :
  forall st, (length (stdin st) < fuel)%nat -> ends_well (main_loop fuel) st.
Proof.
  induction fuel as [| fuel IH]; intros st Hfuel; [lia |].
  simpl.
  destruct (main_round_outcome st)
    as [(r & st' & Hrun & Hc & _ & H) | (st1 & Hrun & Hc & _ & Hlen)].
  - unfold ends_well. rewrite Hrun. auto.
  - unfold ends_well. rewrite Hrun.
    destruct (IH st1 ltac:(lia)) as [Hc1 H].
    split; [eapply console_step_trans; eassumption | exact H].
Qed.

Lemma main_loop_fuel (fuel1 : nat) :
  forall fuel2 st,
    (length (stdin st) < fuel1)%nat -> (length (stdin st) < fuel2)%nat ->
    main_loop fuel1 st = main_loop fuel2 st.
Proof.
  induction fuel1 as [| fuel1 IH]; intros fuel2 st H1 H2; [lia |].
  destruct fuel2 as [| fuel2]; [lia |]. simpl.
  destruct (main_round_outcome st)
    as [(r & st' & Hrun & _) | (st1 & Hrun & _ & _ & Hlen)].
  - rewrite !Hrun. reflexivity.
  - rewrite !Hrun. apply IH; lia.
Qed.

(** What every step of the store keeps, the run of the menu keeps. *)
Lemma main_loop_invariant (I : state -> Prop) :
  (forall st st', store_step st st' -> I st -> I st') ->
  forall fuel st, I st -> I (snd (main_loop fuel st)).
Proof.
  intros Hstep. induction fuel as [| fuel IH]; intros st HI; [exact HI |].
  simpl.
  destruct (main_round_outcome st)
    as [(r & st' & Hrun & _ & Hs & _) | (st1 & Hrun & _ & Hs & _)].
  - rewrite Hrun. simpl. eapply Hstep; [left; exact Hs | exact HI].
  - rewrite Hrun. apply IH. eapply Hstep; eassumption.
Qed.

End MenuFacts.

(** ** The sorted table *)

Module SortFacts.

Section Insertion.
Context {A : Type} (lt : A -> A -> bool).

Lemma insert_sorted_perm (x : A) (l : list A) :
  Permutation (insert_sorted lt x l) (x :: l).
Proof.
  induction l as [| y l IH]; simpl; [reflexivity |].
  destruct (lt y x); [| reflexivity].
  rewrite IH. apply perm_swap.
Qed.

Lemma sorted_perm (l : list A) : Permutation (sorted lt l) l.
Proof.
  induction l as [| x l IH]; simpl; [reflexivity |].
  rewrite insert_sorted_perm, IH. reflexivity.
Qed.

Hypothesis lt_asym : forall a b, lt a b = true -> lt b a = false.
Hypothesis le_trans :
  forall a b c, lt b a = false -> lt c b = false -> lt c a = false.

Lemma insert_sorted_strongly (x : A) (l : list A) :
  StronglySorted (fun a b => lt b a = false) l ->
  StronglySorted (fun a b => lt b a = false) (insert_sorted lt x l).
Proof.
  induction 1 as [| y l Hl IH Hy]; simpl; [repeat constructor |].
  destruct (lt y x) eqn:Hyx.
  - constructor; [exact IH |].
    rewrite insert_sorted_perm. constructor; [| exact Hy].
    apply lt_asym. exact Hyx.
  - constructor; [constructor; assumption |].
    constructor; [exact Hyx |].
    eapply Forall_impl; [exact Hy |].
    intros z Hz. simpl in *. eapply le_trans; eassumption.
Qed.

Lemma sorted_strongly (l : list A) :
  StronglySorted (fun a b => lt b a = false) (sorted lt l).
Proof.
  induction l as [| x l IH]; simpl; [constructor |].
  apply insert_sorted_strongly. exact IH.
Qed.

(** Stability: the elements of a class that no [lt] separates keep their
    order. *)
Lemma insert_sorted_filter (p : A -> bool) (x : A) (l : list A) :
  (forall a b, p a = true -> p b = true -> lt a b = false) ->
  List.filter p (insert_sorted lt x l) = List.filter p (x :: l).
Proof.
  intros Hp. induction l as [| y l IH]; simpl in *; [reflexivity |].
  destruct (lt y x) eqn:Hyx; [| reflexivity].
  simpl. rewrite IH.
  destruct (p x) eqn:Hx, (p y) eqn:Hy; try reflexivity.
  rewrite (Hp y x Hy Hx) in Hyx. discriminate.
Qed.

Lemma sorted_filter (p : A -> bool) (l : list A) :
  (forall a b, p a = true -> p b = true -> lt a b = false) ->
  List.filter p (sorted lt l) = List.filter p l.
Proof.
  intros Hp. induction l as [| x l IH]; simpl; [reflexivity |].
  rewrite insert_sorted_filter by exact Hp. simpl. rewrite IH. reflexivity.
Qed.

End Insertion.

(** The order of strings. *)
Lemma ascii_compare_refl (c : ascii) : Ascii.compare c c = Eq.
Proof. unfold Ascii.compare. apply N.compare_refl. Qed.

Lemma ascii_compare_eq (a b : ascii) : Ascii.compare a b = Eq -> a = b.
Proof.
  unfold Ascii.compare. intros H. apply N.compare_eq in H.
  rewrite <- (ascii_N_embedding a), <- (ascii_N_embedding b), H. reflexivity.
Qed.

Lemma ascii_compare_lt_trans (a b c : ascii) :
  Ascii.compare a b = Lt -> Ascii.compare b c = Lt -> Ascii.compare a c = Lt.
Proof.
  unfold Ascii.compare. rewrite !N.compare_lt_iff. lia.
Qed.

Lemma compare_refl (s : string) : String.compare s s = Eq.
Proof.
  induction s as [| c s IH]; simpl; [reflexivity |].
  rewrite ascii_compare_refl. exact IH.
Qed.

Lemma compare_lt_trans (a : string) :
  forall b c,
    String.compare a b = Lt -> String.compare b c = Lt ->
    String.compare a c = Lt.
Proof.
  induction a as [| x a IH]; intros [| y b] [| z c]; simpl; try congruence.
  destruct (Ascii.compare x y) eqn:Hxy; try discriminate.
  - apply ascii_compare_eq in Hxy. subst y.
    destruct (Ascii.compare x z); try congruence. apply IH.
  - destruct (Ascii.compare y z) eqn:Hyz; try discriminate.
    + apply ascii_compare_eq in Hyz. subst z. rewrite Hxy. reflexivity.
    + rewrite (ascii_compare_lt_trans x y z Hxy Hyz). reflexivity.
Qed.

Lemma key_lt_compare (a b : Contact) :
  key_lt a b = match key_compare a b with Lt => true | _ => false end.
Proof.
  unfold key_lt, key_compare, String.ltb.
  destruct (String.eqb_spec (first_name a) (first_name b)) as [-> | Hne].
  - rewrite compare_refl. reflexivity.
  - destruct (String.compare (first_name a) (first_name b)) eqn:Hc;
      try reflexivity.
    apply String.compare_eq_iff in Hc. contradiction.
Qed.

Lemma key_compare_antisym (a b : Contact) :
  key_compare b a = CompOpp (key_compare a b).
Proof.
  unfold key_compare.
  rewrite (String.compare_antisym (first_name a) (first_name b)).
  rewrite (String.compare_antisym (last_name a) (last_name b)).
  destruct (String.compare (first_name b) (first_name a)); simpl;
    try reflexivity.
  destruct (String.compare (last_name b) (last_name a)); reflexivity.
Qed.

Lemma key_compare_lt_trans (a b c : Contact) :
  key_compare a b = Lt -> key_compare b c = Lt -> key_compare a c = Lt.
Proof.
  unfold key_compare.
  destruct (String.compare (first_name a) (first_name b)) eqn:Hab;
    try discriminate.
  - apply String.compare_eq_iff in Hab. rewrite Hab.
    destruct (String.compare (first_name b) (first_name c)); try congruence.
    apply compare_lt_trans.
  - intros _.
    destruct (String.compare (first_name b) (first_name c)) eqn:Hbc;
      try discriminate.
    + apply String.compare_eq_iff in Hbc. rewrite <- Hbc, Hab. reflexivity.
    + intros _. rewrite (compare_lt_trans _ _ _ Hab Hbc). reflexivity.
Qed.

Lemma key_compare_eq (a b : Contact) :
  key_compare a b = Eq ->
  first_name a = first_name b /\ last_name a = last_name b.
Proof.
  unfold key_compare.
  destruct (String.compare (first_name a) (first_name b)) eqn:Hf;
    try discriminate.
  intros Hl. split; apply String.compare_eq_iff; assumption.
Qed.

Lemma key_compare_same (a b : Contact) :
  first_name a = first_name b -> last_name a = last_name b ->
  key_compare a b = Eq.
Proof.
  intros Hf Hl. unfold key_compare. rewrite Hf, Hl, !compare_refl. reflexivity.
Qed.

Lemma key_lt_asym (a b : Contact) : key_lt a b = true -> key_lt b a = false.
Proof.
  rewrite !key_lt_compare, (key_compare_antisym a b).
  destruct (key_compare a b); simpl; congruence.
Qed.

Lemma key_le_trans (a b c : Contact) :
  key_lt b a = false -> key_lt c b = false -> key_lt c a = false.
Proof.
  rewrite !key_lt_compare. intros Hba Hcb.
  destruct (key_compare c a) eqn:Hca; try reflexivity.
  destruct (key_compare b a) eqn:Hba'; try discriminate.
  - apply key_compare_eq in Hba' as [Hf Hl].
    assert (Hcb' : key_compare c b = Lt).
    { unfold key_compare in *. rewrite Hf, Hl. exact Hca. }
    rewrite Hcb' in Hcb. discriminate.
  - destruct (key_compare c b) eqn:Hcb'; try discriminate.
    + apply key_compare_eq in Hcb' as [Hf Hl].
      assert (Hba2 : key_compare b a = Lt).
      { unfold key_compare in *. rewrite <- Hf, <- Hl. exact Hca. }
      congruence.
    + rewrite (key_compare_antisym a b) in Hba'.
      destruct (key_compare a b) eqn:Hab; try discriminate.
      rewrite (key_compare_antisym b c) in Hcb'.
      destruct (key_compare b c) eqn:Hbc; try discriminate.
      pose proof (key_compare_lt_trans a b c Hab Hbc) as Hac.
      rewrite (key_compare_antisym a c), Hac in Hca. discriminate.
Qed.

Lemma same_key_not_lt (k a b : Contact) :
  same_key k a = true -> same_key k b = true -> key_lt a b = false.
Proof.
  unfold same_key. rewrite !andb_true_iff, !String.eqb_eq.
  intros [Hfa Hla] [Hfb Hlb]. rewrite key_lt_compare, key_compare_same;
    congruence.
Qed.

Lemma StronglySorted_map {A B} (f : A -> B) (R : B -> B -> Prop) (l : list A) :
  StronglySorted (fun a b => R (f a) (f b)) l -> StronglySorted R (map f l).
Proof.
  induction 1 as [| x l Hl IH Hx]; simpl; constructor; [exact IH |].
  apply Forall_map. exact Hx.
Qed.

End SortFacts.

Lemma display_contacts_run (st : state) :
  contacts st <> [] ->
  display_contacts st =
  (Ok tt,
   printed
     [Table table_headers
        (map (fun l => table_row (deref st l))
           (sorted (fun a b => key_lt (deref st a) (deref st b)) (contacts st)))]
     st).
Proof.
  intros Hne. unfold display_contacts, bind, get.
  destruct (contacts st); [congruence | reflexivity].
Qed.

(** X13: the table of [display_contacts].  On a store that is not empty,
    [display_contacts] prints one table and changes nothing else.  Its
    rows are the records of the store, each once, in ascending order of
    the key (first name, last name), strings being compared by code
    point, and the records with the same key come in the order of the
    store.  On an empty store it prints a message instead. *)
Theorem X13_display_contacts_sorted (st : state) :
  (contacts st <> [] ->
   exists shown,
     display_contacts st
       = (Ok tt, printed [Table table_headers (map table_row shown)] st) /\
     Permutation shown (records st) /\
     StronglySorted key_le shown /\
     forall k, List.filter (same_key k) shown
               = List.filter (same_key k) (records st)) /\
  (contacts st = [] ->
   display_contacts st
     = (Ok tt,
        printed [Colored "No contacts available. Please, enter one." "red"] st)).
Proof.
  split.
  - intros Hne.
    set (lt := fun a b => key_lt (deref st a) (deref st b)).
    exists (map (deref st) (sorted lt (contacts st))).
    split; [rewrite display_contacts_run by exact Hne;
            rewrite map_map; reflexivity |].
    split; [apply Permutation_map, SortFacts.sorted_perm |].
    split.
    + apply SortFacts.StronglySorted_map.
      apply (SortFacts.sorted_strongly lt).
      * intros a b. apply SortFacts.key_lt_asym.
      * intros a b c. apply SortFacts.key_le_trans.
    + intros k. unfold records.
      rewrite <- !map_filter_comm.
      rewrite (SortFacts.sorted_filter lt). { reflexivity. }
      intros a b. apply SortFacts.same_key_not_lt.
  - intros Hnil. unfold display_contacts, bind, get. rewrite Hnil. reflexivity.
Qed.

Lemma X13_witness :
  let st := state_of None [] [john; jane_a; jane_b] in
  contacts st <> [] /\
  (exists shown,
     display_contacts st
       = (Ok tt, printed [Table table_headers (map table_row shown)] st) /\
     Permutation shown (records st) /\
     StronglySorted key_le shown) /\
  fst (display_contacts st) = Ok tt /\
  stdout (snd (display_contacts st))
    = [Table table_headers (map table_row [jane_b; jane_a; john])] /\
  contacts blank_state = [] /\
  display_contacts blank_state
    = (Ok tt,
       printed [Colored "No contacts available. Please, enter one." "red"]
               blank_state).
Proof.
  intros st.
  assert (Hne : contacts st <> []) by discriminate.
  assert (Hnil : contacts blank_state = []) by reflexivity.
  destruct (proj1 (X13_display_contacts_sorted st) Hne)
    as (shown & Hrun & Hperm & Hsorted & _).
  split; [exact Hne |].
  split; [exists shown; auto |].
  split; [reflexivity |]. split; [reflexivity |].
  split; [exact Hnil |].
  exact (proj2 (X13_display_contacts_sorted blank_state) Hnil).
Defined.

(** ** The loops that ask again *)

Lemma get_valid_input_on_accepts (prompt error_message : string)
    (validation_func : string -> bool) (bad : list string) (good : string)
    (rest : list string) :
  Forall (fun l => validation_func (PyStr.strip l) = false) bad ->
  validation_func (PyStr.strip good) = true ->
  forall st,
    get_valid_input_on prompt validation_func error_message
      (bad ++ good :: rest) st =
    (Ok (PyStr.strip good),
     printed (rejections prompt error_message bad ++ [Prompt prompt])
             (set_stdin rest st)).
Proof.
  intros Hbad Hgood. induction Hbad as [| line bad Hline _ IH]; intros st; simpl.
  - unfold bind, emit, modify, ret. simpl. rewrite Hgood. reflexivity.
  - unfold bind at 1, emit at 1, modify at 1. unfold bind at 1, modify at 1.
    rewrite Hline.
    unfold bind at 1, print_in_color at 1, emit at 1, modify at 1.
    rewrite IH. f_equal.
    unfold printed, set_stdout, set_stdin. simpl.
    rewrite <- !List.app_assoc. reflexivity.
Qed.

Lemma get_valid_input_on_runs_out (prompt error_message : string)
    (validation_func : string -> bool) (bad : list string) :
  Forall (fun l => validation_func (PyStr.strip l) = false) bad ->
  forall st,
    stdin st = bad ->
    get_valid_input_on prompt validation_func error_message bad st =
    (Raise EOFError,
     printed (rejections prompt error_message bad ++ [Prompt prompt])
             (set_stdin [] st)).
Proof.
  intros Hbad. induction Hbad as [| line bad Hline _ IH]; intros st Hin; simpl.
  - unfold bind, emit, modify, raise. simpl.
    rewrite <- Hin, set_stdin_same. reflexivity.
  - unfold bind at 1, emit at 1, modify at 1. unfold bind at 1, modify at 1.
    rewrite Hline.
    unfold bind at 1, print_in_color at 1, emit at 1, modify at 1.
    rewrite IH by reflexivity. f_equal.
    unfold printed, set_stdout, set_stdin. simpl.
    rewrite <- !List.app_assoc. reflexivity.
Qed.

(** X3: the loop of [get_valid_input].  Each line read is stripped and
    given to the validator.  The lines refused are each answered by the
    error message and the prompt is printed again; the first line
    accepted is returned stripped, the lines after it being left unread.
    When every line left is refused the call ends by [EOFError] at the
    end of the input.  The store and the file are not touched. *)
Theorem X3_get_valid_input_loop (prompt error_message : string)
    (validation_func : string -> bool) (bad : list string) (st : state) :
  Forall (fun l => validation_func (PyStr.strip l) = false) bad ->
  (forall good rest,
     stdin st = bad ++ good :: rest ->
     validation_func (PyStr.strip good) = true ->
     get_valid_input prompt validation_func error_message st =
     (Ok (PyStr.strip good),
      printed (rejections prompt error_message bad ++ [Prompt prompt])
              (set_stdin rest st))) /\
  (stdin st = bad ->
   get_valid_input prompt validation_func error_message st =
   (Raise EOFError,
    printed (rejections prompt error_message bad ++ [Prompt prompt])
            (set_stdin [] st))).
Proof.
  intros Hbad. split.
  - intros good rest Hin Hgood. unfold get_valid_input, bind, get.
    rewrite Hin. apply get_valid_input_on_accepts; assumption.
  - intros Hin. unfold get_valid_input, bind, get.
    rewrite Hin. apply get_valid_input_on_runs_out; assumption.
Qed.

Lemma X3_witness :
  let st := state_of None ["R0e"; " 42 "; " Roe "; "555"] [] in
  Forall (fun l => _is_valid_name (PyStr.strip l) = false) ["R0e"; " 42 "] /\
  stdin st = ["R0e"; " 42 "] ++ " Roe " :: ["555"] /\
  _is_valid_name (PyStr.strip " Roe ") = true /\
  get_valid_input "Last name: " _is_valid_name "Invalid last name." st =
  (Ok "Roe",
   printed (rejections "Last name: " "Invalid last name." ["R0e"; " 42 "]
            ++ [Prompt "Last name: "])
           (set_stdin ["555"] st)) /\
  get_valid_input "Last name: " _is_valid_name "Invalid last name."
    (state_of None ["R0e"; " 42 "] []) =
  (Raise EOFError,
   printed (rejections "Last name: " "Invalid last name." ["R0e"; " 42 "]
            ++ [Prompt "Last name: "])
           (set_stdin [] (state_of None ["R0e"; " 42 "] []))).
Proof.
  intros st.
  assert (Hbad : Forall (fun l => _is_valid_name (PyStr.strip l) = false)
                        ["R0e"; " 42 "])
    by (repeat constructor).
  assert (Hin : stdin st = ["R0e"; " 42 "] ++ " Roe " :: ["555"]) by reflexivity.
  assert (Hgood : _is_valid_name (PyStr.strip " Roe ") = true) by reflexivity.
  split; [exact Hbad |]. split; [exact Hin |]. split; [exact Hgood |].
  split.
  - exact (proj1 (X3_get_valid_input_loop "Last name: " "Invalid last name."
                    _is_valid_name ["R0e"; " 42 "] st Hbad)
             " Roe " ["555"] Hin Hgood).
  - exact (proj2 (X3_get_valid_input_loop "Last name: " "Invalid last name."
                    _is_valid_name ["R0e"; " 42 "]
                    (state_of None ["R0e"; " 42 "] []) Hbad)
             eq_refl).
Defined.

(** X4: the loop of [get_new_value] in [modify_contact], for fewer
    refused lines than the interpreter allows nested calls.  A line is
    accepted when it is blank once stripped, the current value being then
    returned, or when it passes the validator once stripped, the stripped
    line being then returned.  The other lines are each answered by the
    error message and the prompt again; when every line left is refused
    the call ends by [EOFError].  The store and the file are not
    touched. *)
Theorem X4_get_new_value_loop (prompt error_message current : string)
    (validation_func : string -> bool) (bad : list string) (st : state) :
  (length bad < recursion_margin)%nat ->
  Forall (fun l => blank_or_valid validation_func l = false) bad ->
  (forall good rest,
     stdin st = bad ++ good :: rest ->
     blank_or_valid validation_func good = true ->
     get_new_value prompt validation_func error_message current st =
     (Ok (if String.eqb (PyStr.strip good) "" then current
          else PyStr.strip good),
      printed (rejections prompt error_message bad ++ [Prompt prompt])
              (set_stdin rest st))) /\
  (stdin st = bad ->
   get_new_value prompt validation_func error_message current st =
   (Raise EOFError,
    printed (rejections prompt error_message bad ++ [Prompt prompt])
            (set_stdin [] st))).
Proof.
  intros _ Hbad. split.
  - intros good rest Hin Hgood. unfold get_new_value, bind, get.
    rewrite Hin. apply get_new_value_on_accepts; assumption.
  - intros Hin. unfold get_new_value, bind, get.
    rewrite Hin. apply get_new_value_on_runs_out; assumption.
Qed.

Lemma X4_witness :
  let st := state_of None ["12x"; "   "; "555"] [] in
  (length ["12x"] < recursion_margin)%nat /\
  Forall (fun l => blank_or_valid _is_valid_phone l = false) ["12x"] /\
  stdin st = ["12x"] ++ "   " :: ["555"] /\
  blank_or_valid _is_valid_phone "   " = true /\
  get_new_value "Phone: " _is_valid_phone "Invalid phone number." "0123" st =
  (Ok "0123",
   printed (rejections "Phone: " "Invalid phone number." ["12x"]
            ++ [Prompt "Phone: "])
           (set_stdin ["555"] st)) /\
  get_new_value "Phone: " _is_valid_phone "Invalid phone number." "0123"
    (state_of None ["12x"] []) =
  (Raise EOFError,
   printed (rejections "Phone: " "Invalid phone number." ["12x"]
            ++ [Prompt "Phone: "])
           (set_stdin [] (state_of None ["12x"] []))).
Proof.
  intros st.
  assert (Hlen : (length ["12x"] < recursion_margin)%nat)
    by (unfold recursion_margin; simpl; lia).
  assert (Hbad : Forall (fun l => blank_or_valid _is_valid_phone l = false)
                        ["12x"])
    by (repeat constructor).
  assert (Hin : stdin st = ["12x"] ++ "   " :: ["555"]) by reflexivity.
  assert (Hgood : blank_or_valid _is_valid_phone "   " = true) by reflexivity.
  split; [exact Hlen |].
  split; [exact Hbad |]. split; [exact Hin |]. split; [exact Hgood |].
  split.
  - exact (proj1 (X4_get_new_value_loop "Phone: " "Invalid phone number." "0123"
                    _is_valid_phone ["12x"] st Hlen Hbad)
             "   " ["555"] Hin Hgood).
  - exact (proj2 (X4_get_new_value_loop "Phone: " "Invalid phone number." "0123"
                    _is_valid_phone ["12x"] (state_of None ["12x"] [])
                    Hlen Hbad)
             eq_refl).
Defined.

(** ** Selection *)

(** X5: [_select_contact_from_results] on a list of results that is not
    empty.  However many lines are refused, the call changes neither the
    store nor the file and ends in one of two ways: normally, with one of
    the results, or by [EOFError] when the lines have run out.  In
    particular no index is ever taken outside the list. *)
Theorem X5_selection_outcome (results : list loc) (st : state) :
  results <> [] ->
  let r := fst (_select_contact_from_results results st) in
  let st' := snd (_select_contact_from_results results st) in
  same_store st st' /\ console_step st st' /\
  ((exists c, r = Ok c /\ In c results) \/
   (r = Raise EOFError /\ stdin st' = [])).
Proof.
  intros Hne. destruct (quiet_select results st Hne) as [Hc H]. simpl.
  destruct (fst (_select_contact_from_results results st)) as [c | e |].
  - destruct H as [Hs Hin]. eauto 10.
  - destruct H as (-> & Hs & Hin). auto 10.
  - contradiction.
Qed.

Lemma X5_witness :
  let st := state_of None ["7"; "two"] [jane_a; jane_b] in
  [0%nat; 1%nat] <> [] /\
  same_store st (snd (_select_contact_from_results [0; 1]%nat st)) /\
  fst (_select_contact_from_results [0; 1]%nat st) = Raise EOFError.
Proof.
  intros st.
  assert (Hne : [0%nat; 1%nat] <> []) by discriminate.
  destruct (X5_selection_outcome [0; 1]%nat st Hne) as (Hs & _ & _).
  split; [exact Hne |]. split; [exact Hs |]. reflexivity.
Defined.

(** ** Adding *)

Section AddRuns.
Context {J : JsonLib}.

Lemma append_contact_exact (f l p e : string) (st : state) :
  well_formed st ->
  exists st',
    append_contact f l p e st = (Ok tt, st') /\
    records st' = records st ++ [mkContact f l p e] /\
    in_sync st' /\
    stdin st' = stdin st /\
    stdout st' = stdout st ++ [added_message].
Proof.
  intros Hwf. destruct (append_contact_run f l p e st) as (st' & Hrun & Happ).
  exists st'. split; [exact Hrun |].
  split; [apply (appended_records _ _ _ Hwf Happ) |].
  unfold append_contact in Hrun. injection Hrun as <-.
  split; [reflexivity |]. split; reflexivity.
Qed.

Lemma add_contact_typed (lf ll lp le : string) (rest : list string)
    (st : state) :
  stdin st = lf :: ll :: lp :: le :: rest ->
  _is_valid_name (PyStr.strip lf) = true ->
  _is_valid_name (PyStr.strip ll) = true ->
  _is_valid_phone (PyStr.strip lp) = true ->
  _is_valid_email (PyStr.strip le) = true ->
  add_contact None None None None st =
  let st4 := printed add_prompts (set_stdin rest st) in
  let c := mkContact (PyStr.strip lf) (PyStr.strip ll) (PyStr.strip lp)
                     (PyStr.strip le) in
  if in_store c st then
    (print_in_color
       "This contact already exists. Do you want to add it anyway? (y/n): "
       "red" ;;
     overwrite <- read_answer ;
     if negb (String.eqb overwrite "y")
     then print_in_color "Contact not added." "red"
     else append_contact (PyStr.strip lf) (PyStr.strip ll) (PyStr.strip lp)
                         (PyStr.strip le)) st4
  else append_contact (PyStr.strip lf) (PyStr.strip ll) (PyStr.strip lp)
                      (PyStr.strip le) st4.
Proof.
  intros Hstdin Hf Hl Hp He.
  unfold add_contact, given_or_asked, bind at 1.
  erewrite get_valid_input_valid by eassumption.
  unfold bind at 1. erewrite get_valid_input_valid by (simpl; eauto).
  unfold bind at 1. erewrite get_valid_input_valid by (simpl; eauto).
  unfold bind at 1. erewrite get_valid_input_valid by (simpl; eauto).
  match goal with |- bind _ _ ?s = _ => set (stN := s) end.
  assert (HstN : stN = printed add_prompts (set_stdin rest st)).
  { unfold stN, printed, set_stdout, set_stdin, add_prompts. simpl.
    rewrite <- !List.app_assoc. reflexivity. }
  clearbody stN. subst stN.
  cbv zeta. unfold in_store. cbn [first_name last_name phone_number email].
  unfold bind at 1, _is_duplicate, bind at 1, get, ret.
  change (records (printed add_prompts (set_stdin rest st))) with (records st).
  destruct (existsb _ (records st)); reflexivity.
Qed.

End AddRuns.

(** X6: [add_contact] with the four fields typed in and each accepted at
    once, on a well-formed store.  When no record of the store has the
    four fields typed, the record is appended at the end of the store,
    the file is rewritten with the text of the new store, the four
    prompts and the success message are printed and the lines after the
    four are left unread.  When a record of the store has these four
    fields, the same happens provided the next line says yes: the store
    then holds the record twice. *)
Theorem X6_add_typed_contact {J : JsonLib} (lf ll lp le : string)
    (rest : list string) (st : state) :
  well_formed st ->
  stdin st = lf :: ll :: lp :: le :: rest ->
  _is_valid_name (PyStr.strip lf) = true ->
  _is_valid_name (PyStr.strip ll) = true ->
  _is_valid_phone (PyStr.strip lp) = true ->
  _is_valid_email (PyStr.strip le) = true ->
  let c := mkContact (PyStr.strip lf) (PyStr.strip ll) (PyStr.strip lp)
                     (PyStr.strip le) in
  (in_store c st = false ->
   exists st',
     add_contact None None None None st = (Ok tt, st') /\
     records st' = records st ++ [c] /\
     in_sync st' /\
     stdin st' = rest /\
     stdout st' = stdout st ++ add_prompts ++ [added_message]) /\
  (forall answer rest',
     in_store c st = true ->
     rest = answer :: rest' ->
     says_yes answer = true ->
     exists st',
       add_contact None None None None st = (Ok tt, st') /\
       records st' = records st ++ [c] /\
       in_sync st' /\
       stdin st' = rest' /\
       stdout st' = stdout st ++ add_prompts ++ [add_question; added_message]).
Proof.
  intros Hwf Hstdin Hf Hl Hp He c.
  rewrite (add_contact_typed lf ll lp le rest st Hstdin Hf Hl Hp He).
  cbv zeta. fold c. split.
  - intros Hdup. rewrite Hdup.
    destruct (append_contact_exact (PyStr.strip lf) (PyStr.strip ll)
                (PyStr.strip lp) (PyStr.strip le)
                (printed add_prompts (set_stdin rest st)) Hwf)
      as (st' & Hrun & Hrec & Hsync & Hin & Hout).
    exists st'. split; [exact Hrun |]. split; [exact Hrec |].
    split; [exact Hsync |]. split; [exact Hin |].
    rewrite Hout. simpl. rewrite <- List.app_assoc. reflexivity.
  - intros answer rest' Hdup -> Hyes. rewrite Hdup.
    rewrite print_in_color_then.
    erewrite bind_ok by (apply read_answer_cons; reflexivity).
    unfold says_yes in Hyes. rewrite Hyes. simpl negb. cbv iota.
    destruct (append_contact_exact (PyStr.strip lf) (PyStr.strip ll)
                (PyStr.strip lp) (PyStr.strip le)
                (set_stdin rest'
                   (printed [add_question]
                      (printed add_prompts (set_stdin (answer :: rest') st))))
                Hwf)
      as (st' & Hrun & Hrec & Hsync & Hin & Hout).
    exists st'. split; [exact Hrun |]. split; [exact Hrec |].
    split; [exact Hsync |]. split; [exact Hin |].
    rewrite Hout. simpl. rewrite <- !List.app_assoc. reflexivity.
Qed.

Lemma X6_witness :
  let st := state_of None [" John "; "Doe"; "+15551234"; "john@x.com"; "Y"] [john] in
  let st0 := state_of None [" John "; "Doe"; "+15551234"; "john@x.com"] [] in
  (well_formed st0 /\ in_store john st0 = false /\
   exists st',
     add_contact (J := python_json) None None None None st0 = (Ok tt, st') /\
     records st' = [john]) /\
  (well_formed st /\ in_store john st = true /\ says_yes "Y" = true /\
   exists st',
     add_contact (J := python_json) None None None None st = (Ok tt, st') /\
     records st' = [john; john]).
Proof.
  intros st st0.
  assert (Hwf0 : well_formed st0).
  { split; [constructor | intros l Hl; inversion Hl]. }
  assert (Hwf : well_formed st).
  { split.
    - constructor; [apply not_elem_of_nil | constructor].
    - intros l Hl. apply list_elem_of_singleton in Hl. subst l.
      apply (elem_of_dom_2 _ _ john). reflexivity. }
  split.
  - split; [exact Hwf0 |]. split; [reflexivity |].
    destruct (proj1 (X6_add_typed_contact (J := python_json) " John " "Doe"
                       "+15551234" "john@x.com" [] st0 Hwf0 eq_refl eq_refl
                       eq_refl eq_refl eq_refl) eq_refl)
      as (st' & Hrun & Hrec & _).
    exists st'. split; [exact Hrun | exact Hrec].
  - split; [exact Hwf |]. split; [reflexivity |]. split; [reflexivity |].
    destruct (proj2 (X6_add_typed_contact (J := python_json) " John " "Doe"
                       "+15551234" "john@x.com" ["Y"] st Hwf eq_refl eq_refl
                       eq_refl eq_refl eq_refl) "Y" [] eq_refl eq_refl eq_refl)
      as (st' & Hrun & Hrec & _).
    exists st'. split; [exact Hrun | exact Hrec].
Defined.

(** X7: how [add_contact] can end, whatever its arguments and whatever is
    typed.  It ends normally, or by [EOFError] when the lines have run
    out, and in no other way; it only consumes lines and only adds to the
    output.  When it ends by [EOFError] the store and the file are as they
    were.  When it ends normally, either the store and the file are as
    they were, or one record has been appended (each field being the
    argument given, or a typed line that passed its validator) and the
    file holds the text of the new store. *)
Theorem X7_add_outcomes {J : JsonLib} (f l p e : option string) (st : state) :
  let r := fst (add_contact f l p e st) in
  let st' := snd (add_contact f l p e st) in
  console_step st st' /\
  (r = Ok tt \/ (r = Raise EOFError /\ stdin st' = [] /\ same_store st st')) /\
  (same_store st st' \/
   exists c,
     given_or_valid _is_valid_name f (first_name c) /\
     given_or_valid _is_valid_name l (last_name c) /\
     given_or_valid _is_valid_phone p (phone_number c) /\
     given_or_valid _is_valid_email e (email c) /\
     appended c st st' /\ in_sync st').
Proof.
  destruct (add_contact_outcome f l p e st) as [Hc H]. simpl.
  split; [exact Hc |].
  destruct (fst (add_contact f l p e st)) as [[] | ex |].
  - split; [left; reflexivity | exact H].
  - destruct H as (-> & Hs & Hin). split; [right; auto | left; exact Hs].
  - contradiction.
Qed.

(** ** Declining, and how [modify_contact] and [delete_contact] end *)

Section Declined.
Context {J : JsonLib}.

Lemma delete_selected_declined (c : loc) (confirm : string)
    (rest : list string) (st : state) :
  stdin st = confirm :: rest ->
  says_yes confirm = false ->
  delete_selected c st =
  (Ok tt,
   printed (delete_banner st c ++ [Colored "Contact deletion cancelled." "red"])
           (set_stdin rest st)).
Proof.
  intros Hstdin Hno. unfold delete_selected.
  unfold bind at 1, print at 1, emit at 1, modify at 1.
  unfold bind at 1, get.
  unfold bind at 1, print at 1, emit at 1, modify at 1.
  unfold bind at 1, print_in_color at 1, emit at 1, modify at 1.
  erewrite bind_ok by (apply read_answer_cons; simpl; exact Hstdin).
  unfold says_yes in Hno. rewrite Hno.
  unfold print_in_color, emit, modify, printed, set_stdout, set_stdin,
    delete_banner. simpl. rewrite <- !List.app_assoc. reflexivity.
Qed.

End Declined.

(** X8: a deletion that is not confirmed.  When the object [c] has been
    selected among the results of the query and the line read at the
    confirmation is anything but yes (once stripped and lower-cased),
    [delete_contact] returns normally, prints that the deletion is
    cancelled and leaves the list, the objects and the file as they
    were. *)
Theorem X8_delete_declined {J : JsonLib} (q : string) (c : loc)
    (confirm : string) (rest : list string) (st st1 : state) :
  _select_contact_from_results
    (List.filter (fun l => matches_query (PyStr.lower q) (deref st l))
                 (contacts st)) st = (Ok c, st1) ->
  stdin st1 = confirm :: rest ->
  says_yes confirm = false ->
  exists st',
    delete_contact q st = (Ok tt, st') /\
    same_store st st' /\
    records st' = records st /\
    stdin st' = rest /\
    stdout st' =
      stdout st1 ++ delete_banner st c
      ++ [Colored "Contact deletion cancelled." "red"].
Proof.
  intros Hsel Hstdin Hno.
  pose proof (proj1 (select_same_store
                      (List.filter
                         (fun l => matches_query (PyStr.lower q) (deref st l))
                         (contacts st)) st)) as Hs.
  rewrite Hsel in Hs. simpl in Hs.
  rewrite (delete_contact_selected q c st st1 Hsel).
  rewrite (delete_selected_declined c confirm rest st1 Hstdin Hno).
  eexists. split; [reflexivity |].
  assert (Hs' : same_store st
                  (printed (delete_banner st1 c
                            ++ [Colored "Contact deletion cancelled." "red"])
                           (set_stdin rest st1)))
    by (eapply same_store_trans; [exact Hs | repeat split]).
  split; [exact Hs' |].
  split; [apply (same_store_records _ _ Hs') |].
  split; [reflexivity |].
  unfold delete_banner. rewrite (same_store_deref _ _ c Hs). reflexivity.
Qed.

Lemma X8_witness :
  let st := state_of None ["2"; "n"] [jane_a; jane_b] in
  exists st1 st',
    _select_contact_from_results
      (List.filter (fun l => matches_query (PyStr.lower "Jane") (deref st l))
                   (contacts st)) st = (Ok 1%nat, st1) /\
    stdin st1 = ["n"] /\ says_yes "n" = false /\
    delete_contact (J := python_json) "Jane" st = (Ok tt, st') /\
    records st' = [jane_a; jane_b].
Proof.
  intros st.
  eexists. 
  assert (Hsel : _select_contact_from_results
      (List.filter (fun l => matches_query (PyStr.lower "Jane") (deref st l))
                   (contacts st)) st
      = (Ok 1%nat, snd (_select_contact_from_results
      (List.filter (fun l => matches_query (PyStr.lower "Jane") (deref st l))
                   (contacts st)) st))) by reflexivity.
  destruct (X8_delete_declined (J := python_json) "Jane" 1%nat "n" [] st _
              Hsel eq_refl eq_refl) as (st' & Hrun & _ & Hrec & _).
  exists st'. split; [exact Hsel |]. split; [reflexivity |].
  split; [reflexivity |]. split; [exact Hrun | exact Hrec].
Defined.

(** X9: a modification that is not confirmed.  When the object [c] has
    been selected among the results of the query and the line read at the
    confirmation is anything but yes, [modify_contact] asks for no field,
    returns normally, prints that the modification is cancelled and leaves
    the list, the objects and the file as they were. *)
Theorem X9_modify_declined {J : JsonLib} (q : string) (c : loc)
    (confirm : string) (rest : list string) (st st1 : state) :
  _select_contact_from_results
    (List.filter (fun l => matches_query (PyStr.lower q) (deref st l))
                 (contacts st)) st = (Ok c, st1) ->
  stdin st1 = confirm :: rest ->
  says_yes confirm = false ->
  exists st',
    modify_contact q st = (Ok tt, st') /\
    same_store st st' /\
    records st' = records st /\
    stdin st' = rest /\
    stdout st' =
      stdout st1 ++ modify_banner st c
      ++ [Colored "Modification cancelled." "red"].
Proof.
  intros Hsel Hstdin Hno.
  pose proof (proj1 (select_same_store
                      (List.filter
                         (fun l => matches_query (PyStr.lower q) (deref st l))
                         (contacts st)) st)) as Hs.
  rewrite Hsel in Hs. simpl in Hs.
  rewrite (modify_contact_selected q c st st1 Hsel).
  rewrite (modify_selected_run c confirm rest st1 Hstdin), Hno.
  eexists. split; [reflexivity |].
  assert (Hs' : same_store st
                  (printed (modify_banner st1 c
                            ++ [Colored "Modification cancelled." "red"])
                           (set_stdin rest st1)))
    by (eapply same_store_trans; [exact Hs | repeat split]).
  split; [exact Hs' |].
  split; [apply (same_store_records _ _ Hs') |].
  split; [reflexivity |].
  unfold modify_banner. rewrite (same_store_deref _ _ c Hs). reflexivity.
Qed.

Lemma X9_witness :
  let st := state_of None ["2"; "n"; "Zed"] [jane_a; jane_b] in
  exists st1 st',
    _select_contact_from_results
      (List.filter (fun l => matches_query (PyStr.lower "Jane") (deref st l))
                   (contacts st)) st = (Ok 1%nat, st1) /\
    stdin st1 = ["n"; "Zed"] /\ says_yes "n" = false /\
    modify_contact (J := python_json) "Jane" st = (Ok tt, st') /\
    records st' = [jane_a; jane_b] /\ stdin st' = ["Zed"].
Proof.
  intros st.
  eexists.
  assert (Hsel : _select_contact_from_results
      (List.filter (fun l => matches_query (PyStr.lower "Jane") (deref st l))
                   (contacts st)) st
      = (Ok 1%nat, snd (_select_contact_from_results
      (List.filter (fun l => matches_query (PyStr.lower "Jane") (deref st l))
                   (contacts st)) st))) by reflexivity.
  destruct (X9_modify_declined (J := python_json) "Jane" 1%nat "n" ["Zed"] st _
              Hsel eq_refl eq_refl) as (st' & Hrun & _ & Hrec & Hin & _).
  exists st'. split; [exact Hsel |]. split; [reflexivity |].
  split; [reflexivity |]. split; [exact Hrun |]. split; [exact Hrec | exact Hin].
Defined.

(** X10: how [modify_contact] can end, whatever the query and whatever is
    typed, on an input of fewer lines than the interpreter allows nested
    calls.  It ends normally, or by [EOFError] when the lines have run
    out, and in no other way ([ValueError] and [IndexError] included); it
    only consumes lines and only adds to the output.  When it ends by
    [EOFError] the store and the file are as they were: every line is read
    before the first field is assigned.  When it ends normally, either
    the store and the file are as they were, or exactly one object of the
    list, one that the query matches, has been rewritten; each of its new
    fields is the former one or a value that passes the validator of the
    field, the list itself is the same, and the file holds the text of
    the new store. *)
Theorem X10_modify_outcomes {J : JsonLib} (q : string) (st : state) :
  (length (stdin st) < recursion_margin)%nat ->
  let r := fst (modify_contact q st) in
  let st' := snd (modify_contact q st) in
  console_step st st' /\
  (r = Ok tt \/ (r = Raise EOFError /\ stdin st' = [] /\ same_store st st')) /\
  (same_store st st' \/
   exists c new,
     In c (contacts st) /\
     matches_query (PyStr.lower q) (deref st c) = true /\
     (first_name new = first_name (deref st c)
      \/ _is_valid_name (first_name new) = true) /\
     (last_name new = last_name (deref st c)
      \/ _is_valid_name (last_name new) = true) /\
     (phone_number new = phone_number (deref st c)
      \/ _is_valid_phone (phone_number new) = true) /\
     (email new = email (deref st c)
      \/ _is_valid_email (email new) = true) /\
     contacts st' = contacts st /\
     heap st' = <[c := new]> (heap st) /\
     file st' = Some (json_dumps (Json.JArr (map Contact_dict (records st'))))).
Proof.
  intros _.
  destruct (modify_contact_outcome q st) as [Hc H]. simpl.
  split; [exact Hc |].
  destruct (fst (modify_contact q st)) as [[] | ex |].
  - split; [left; reflexivity |].
    destruct H as [Hs | H]; [left; exact Hs | right; exact H].
  - destruct H as (-> & Hs & Hin). split; [right; auto | left; exact Hs].
  - contradiction.
Qed.

Lemma X10_witness :
  let st := state_of None ["y"; ""; "R0e"; "Poe"; "x1"] [jane_a] in
  (length (stdin st) < recursion_margin)%nat /\
  fst (modify_contact (J := python_json) "jane" st) = Raise EOFError /\
  stdin (snd (modify_contact (J := python_json) "jane" st)) = [] /\
  same_store st (snd (modify_contact (J := python_json) "jane" st)).
Proof.
  intros st.
  assert (Hlen : (length (stdin st) < recursion_margin)%nat)
    by (unfold recursion_margin; simpl; lia).
  destruct (X10_modify_outcomes (J := python_json) "jane" st Hlen)
    as (_ & [Hok | Hraise] & _).
  - vm_compute in Hok. discriminate.
  - split; [exact Hlen | exact Hraise].
Defined.

(** X11: how [delete_contact] can end, whatever the query and whatever is
    typed.  It ends normally, or by [EOFError] when the lines have run
    out, and in no other way; when it ends by [EOFError] the store and
    the file are as they were.  When it ends normally, either the store
    and the file are as they were, or the first reference to one object
    that the query matches has been taken out of the list, the objects
    themselves being untouched, and the file holds the text of the new
    store. *)
Theorem X11_delete_outcomes {J : JsonLib} (q : string) (st : state) :
  let r := fst (delete_contact q st) in
  let st' := snd (delete_contact q st) in
  console_step st st' /\
  (r = Ok tt \/ (r = Raise EOFError /\ stdin st' = [] /\ same_store st st')) /\
  (same_store st st' \/
   exists c,
     In c (contacts st) /\
     matches_query (PyStr.lower q) (deref st c) = true /\
     remove_first c (contacts st) = Some (contacts st') /\
     heap st' = heap st /\
     file st' = Some (json_dumps (Json.JArr (map Contact_dict (records st'))))).
Proof.
  destruct (delete_contact_outcome q st) as [Hc H]. simpl.
  split; [exact Hc |].
  destruct (fst (delete_contact q st)) as [[] | ex |].
  - split; [left; reflexivity |].
    destruct H as [Hs | H]; [left; exact Hs | right; exact H].
  - destruct H as (-> & Hs & Hin). split; [right; auto | left; exact Hs].
  - contradiction.
Qed.

(** ** What a session keeps *)

Section SessionFacts.
Context {J : JsonLib}.

Lemma store_step_well_formed (st st' : state) :
  store_step st st' -> well_formed st -> well_formed st'.
Proof.
  intros Hstep [Hnd Hdom].
  destruct Hstep as [(Hh & Hc & _) | [(c & _ & (l & Hnew & Hc & Hh) & _)
    | [(q & c & r & Hin & _ & _ & _ & _ & _ & Hc & Hh & _)
      | (q & c & Hin & _ & Hrem & Hh & _)]]];
    unfold well_formed; rewrite ?Hh, ?Hc.
  - split; assumption.
  - split.
    + apply NoDup_app. split; [exact Hnd |]. split; [| apply NoDup_singleton].
      intros x Hx Hx'. apply list_elem_of_singleton in Hx'. subst.
      apply Hnew, Hdom, Hx.
    + intros x Hx. apply elem_of_app in Hx as [Hx | Hx].
      * apply (dom_insert_subseteq (heap st) _ _). apply Hdom. exact Hx.
      * apply list_elem_of_singleton in Hx. subst.
        apply elem_of_dom. rewrite lookup_insert_eq. eauto.
  - split; [exact Hnd |]. intros x Hx.
    apply (dom_insert_subseteq (heap st) _ _). apply Hdom. exact Hx.
  - apply remove_first_sublist in Hrem. split.
    + eapply sublist_NoDup; eassumption.
    + intros x Hx. apply Hdom. eapply elem_of_sublist; eassumption.
Qed.

Lemma valid_contact_fields (old new : Contact) :
  valid_contact old = true ->
  kept_or_valid _is_valid_name (first_name old) (first_name new) ->
  kept_or_valid _is_valid_name (last_name old) (last_name new) ->
  kept_or_valid _is_valid_phone (phone_number old) (phone_number new) ->
  kept_or_valid _is_valid_email (email old) (email new) ->
  valid_contact new = true.
Proof.
  unfold valid_contact, kept_or_valid. rewrite !andb_true_iff.
  intros [[[Hf Hl] Hp] He] [-> | ->] [-> | ->] [-> | ->] [-> | ->]; auto.
Qed.

Lemma forallb_records (st : state) :
  forallb valid_contact (records st) = true <->
  forall l, In l (contacts st) -> valid_contact (deref st l) = true.
Proof.
  unfold records. rewrite forallb_forall. split.
  - intros H l Hl. apply H. apply in_map. exact Hl.
  - intros H c Hc. apply in_map_iff in Hc as (l & <- & Hl). auto.
Qed.

Lemma store_step_valid (st st' : state) :
  store_step st st' -> well_formed st ->
  forallb valid_contact (records st) = true ->
  forallb valid_contact (records st') = true.
Proof.
  intros Hstep Hwf Hvalid.
  destruct Hstep as [Hs | [(c & Hc & Happ & _)
    | [(q & c & r & Hin & _ & Hf & Hl & Hp & He & Hc & Hh & _)
      | (q & c & Hin & _ & Hrem & Hh & _)]]].
  - rewrite (same_store_records _ _ Hs). exact Hvalid.
  - rewrite (appended_records c _ _ Hwf Happ), forallb_app, Hvalid. simpl.
    rewrite Hc. reflexivity.
  - apply forallb_records. intros x Hx. rewrite Hc in Hx.
    pose proof (proj1 (forallb_records st) Hvalid) as Hall.
    unfold deref. rewrite Hh.
    destruct (Nat.eq_dec x c) as [-> | Hne].
    + rewrite lookup_total_insert_eq.
      eapply valid_contact_fields; [apply (Hall c Hin) | | | |]; assumption.
    + rewrite lookup_total_insert_ne by congruence. apply Hall. exact Hx.
  - apply forallb_records. intros l Hl.
    pose proof (proj1 (forallb_records st) Hvalid) as Hall.
    unfold deref. rewrite Hh. apply Hall.
    apply remove_first_sublist in Hrem.
    apply list_elem_of_In. eapply elem_of_sublist; [| exact Hrem].
    apply list_elem_of_In. exact Hl.
Qed.

Lemma store_step_consistent (st st' : state) :
  store_step st st' -> consistent st -> consistent st'.
Proof.
  unfold consistent.
  intros [(Hh & Hc & Hf) | [(c & _ & _ & Hsync) | [(q & c & r & H)
    | (q & c & H)]]] Hcons.
  - unfold records, deref in *. rewrite Hf, Hh, Hc. exact Hcons.
  - rewrite Hsync. reflexivity.
  - destruct H as (_ & _ & _ & _ & _ & _ & _ & _ & Hsync).
    rewrite Hsync. reflexivity.
  - destruct H as (_ & _ & _ & _ & Hsync). rewrite Hsync. reflexivity.
Qed.

Lemma load_contacts_console (st : state) :
  stdin (snd (load_contacts st)) = stdin st /\
  file (snd (load_contacts st)) = file st /\
  exists events, stdout (snd (load_contacts st)) = stdout st ++ events.
Proof.
  assert (Hnil : exists events : list event, stdout st = stdout st ++ events)
    by (exists []; symmetry; apply app_nil_r).
  unfold load_contacts.
  destruct (file st) as [text |] eqn:Hfile; simpl; [| rewrite Hfile; auto].
  destruct (json_loads text) as [v | e |]; simpl; [| | auto].
  - destruct (Contacts_of_json v) as [cs | e |]; simpl; auto.
    destruct (alloc_all cs (heap st)) as [ls h]. simpl. auto.
  - destruct e; simpl; auto.
    split; [reflexivity |]. split; [exact Hfile |]. eexists. reflexivity.
Qed.

Lemma init_console (st : state) :
  stdin (snd (init st)) = stdin st /\
  file (snd (init st)) = file st /\
  console_step st (snd (init st)).
Proof.
  unfold init, bind, modify.
  destruct (load_contacts_console (set_contacts [] st)) as (Hin & Hf & Hout).
  destruct (load_contacts (set_contacts [] st)) as [r st']. 
  assert (H : stdin st' = stdin st /\ file st' = file st /\ console_step st st').
  { simpl in *. split; [exact Hin |]. split; [exact Hf |].
    split; [exists []; rewrite Hin; reflexivity | exact Hout]. }
  destruct r; exact H.
Qed.

Lemma loadable_init (st : state) : loadable st -> fst (init st) = Ok tt.
Proof.
  unfold loadable, init, bind, modify, load_contacts. cbn [file set_contacts].
  destruct (file st) as [text |]; [| reflexivity].
  intros [Hraise | (v & cs & Hv & Hcs)].
  - rewrite Hraise. reflexivity.
  - rewrite Hv, Hcs. destruct (alloc_all cs _) as [ls h]. reflexivity.
Qed.

Lemma main_unfold (st : state) :
  main st =
  match init st with
  | (Ok _, st0) => main_loop (S (length (stdin st0))) st0
  | (Raise e, st0) => (Raise e, st0)
  | (OutOfModel, st0) => (OutOfModel, st0)
  end.
Proof.
  unfold main, bind at 1. destruct (init st) as [[[] | e |] st0]; reflexivity.
Qed.

Lemma main_invariant (I : state -> Prop) (st : state) :
  (forall a b, store_step a b -> I a -> I b) ->
  I (snd (init st)) -> I (snd (main st)).
Proof.
  intros Hstep Hinit. rewrite main_unfold.
  destruct (init st) as [[[] | e |] st0]; cbn [fst snd] in *;
    try exact Hinit.
  apply main_loop_invariant; assumption.
Qed.

End SessionFacts.

(** X14: how [main] ends, on an input of fewer lines than the
    interpreter allows nested calls.  Take a start at which the manager
    is created with records whose fields are all strings: there is no
    file, or [json.load] raises [JSONDecodeError] on it, or the file holds
    a list of objects with the four keys and strings as values.  Then
    [main] ends in one of two ways only: normally, and then the last thing
    printed is the farewell of choice 6, or by [EOFError], and then every
    line has been read.  It only consumes lines and only adds to the
    output.  (A file with a field that is a number or [null] is not such
    a start: the manager is created, and a search can then end [main] by
    [TypeError].)  When the creation of the manager raises an exception,
    [main] ends by it, before any menu.  The bound on the rounds of the
    loop in the model plays no part: with any bound above the number of
    lines the run is the same. *)
Theorem X14_main_ends {J : JsonLib} (st : state) :
  ((length (stdin st) < recursion_margin)%nat ->
   loadable st ->
   fst (init st) = Ok tt /\
   console_step st (snd (main st)) /\
   ((fst (main st) = Raise EOFError /\ stdin (snd (main st)) = []) \/
    (fst (main st) = Ok tt /\
     exists before, stdout (snd (main st)) = before ++ [goodbye]))) /\
  (forall e, fst (init st) = Raise e -> main st = (Raise e, snd (init st))) /\
  (forall fuel,
     (length (stdin st) < fuel)%nat ->
     main st = (init ;; main_loop fuel) st).
Proof.
  destruct (init_console st) as (Hin & _ & Hc).
  pose proof (loadable_init st) as Hload.
  rewrite main_unfold. unfold bind.
  destruct (init st) as [[[] | e |] st0] eqn:Hinit; cbn [fst snd] in *.
  - split; [intros _ _; split; [reflexivity |] | split; [discriminate |]].
    + destruct (main_loop_ends_well (S (length (stdin st0))) st0
                  (Nat.lt_succ_diag_r _)) as [Hc1 H].
      split; [eapply console_step_trans; eassumption | exact H].
    + intros fuel Hfuel. apply main_loop_fuel; rewrite ?Hin; lia.
  - split; [intros _ H; specialize (Hload H); discriminate |].
    split; [intros e0 [= <-] |]; reflexivity.
  - split; [intros _ H; specialize (Hload H); discriminate |].
    split; [discriminate | reflexivity].
Qed.

Lemma X14_witness :
  let st := state_of None ["9"; " 6 "; "1"] [] in
  let on_file :=
    state_of (Some (Json.dumps (Json.JArr [Contact_dict john]))) ["5"; "J"] [] in
  (length (stdin st) < recursion_margin)%nat /\
  loadable (J := python_json) st /\
  console_step st (snd (main (J := python_json) st)) /\
  fst (main (J := python_json) st) = Ok tt /\
  stdin (snd (main (J := python_json) st)) = ["1"] /\
  ((length (stdin on_file) < recursion_margin)%nat /\
   loadable (J := python_json) on_file /\
   fst (main (J := python_json) on_file) = Raise EOFError) /\
  (length (stdin st) < 7)%nat /\
  main (J := python_json) st
    = (init (J := python_json) ;; main_loop (J := python_json) 7) st /\
  fst (init (J := python_json) (state_of (Some "null") ["6"] []))
    = Raise TypeError /\
  main (J := python_json) (state_of (Some "null") ["6"] [])
    = (Raise TypeError,
       snd (init (J := python_json) (state_of (Some "null") ["6"] []))).
Proof.
  intros st on_file.
  destruct (X14_main_ends (J := python_json) st) as (Hends & _ & Hfuel).
  destruct (X14_main_ends (J := python_json) on_file) as (Hfile & _ & _).
  destruct (X14_main_ends (J := python_json) (state_of (Some "null") ["6"] []))
    as (_ & Hfail & _).
  assert (Hshort : (length (stdin st) < recursion_margin)%nat)
    by (unfold recursion_margin; simpl; lia).
  assert (Hload : loadable (J := python_json) st) by exact I.
  assert (Hshort' : (length (stdin on_file) < recursion_margin)%nat)
    by (unfold recursion_margin; simpl; lia).
  assert (Hload' : loadable (J := python_json) on_file)
    by (right; exists (Json.JArr [Contact_dict john]), [john];
        split; vm_compute; reflexivity).
  assert (Hlen : (length (stdin st) < 7)%nat) by (simpl; lia).
  assert (Hbad : fst (init (J := python_json) (state_of (Some "null") ["6"] []))
                 = Raise TypeError) by reflexivity.
  split; [exact Hshort |].
  split; [exact Hload |].
  split; [exact (proj1 (proj2 (Hends Hshort Hload))) |].
  split; [vm_compute; reflexivity |]. split; [vm_compute; reflexivity |].
  split.
  - split; [exact Hshort' |]. split; [exact Hload' |].
    destruct (proj2 (proj2 (Hfile Hshort' Hload'))) as [[H _] | [H _]];
      [exact H | vm_compute in H; discriminate].
  - split; [exact Hlen |]. split; [exact (Hfuel 7%nat Hlen) |].
    split; [exact Hbad | exact (Hfail TypeError Hbad)].
Defined.

(** X15: what a session keeps of the store, on an input of fewer lines
    than the interpreter allows nested calls.  Whatever is typed and
    however [main] ends, the store it leaves is well formed: no object is
    twice in the list and every reference of the list points to an
    object.  And when the records loaded at the start all pass the four
    validators, so do all the records of the store at the end: adding,
    modifying and deleting through the menu never bring in a record that
    fails one. *)
Theorem X15_session_keeps_valid_store {J : JsonLib} (st : state) :
  (length (stdin st) < recursion_margin)%nat ->
  well_formed (snd (main st)) /\
  (forallb valid_contact (records (snd (init st))) = true ->
   forallb valid_contact (records (snd (main st))) = true).
Proof.
  intros _. split.
  - apply main_invariant; [apply store_step_well_formed | apply init_well_formed].
  - intros Hvalid.
    apply (main_invariant
             (fun s => well_formed s /\ forallb valid_contact (records s) = true)).
    + intros a b Hstep [Hwf Hv].
      split; [eapply store_step_well_formed | eapply store_step_valid];
        eassumption.
    + split; [apply init_well_formed | exact Hvalid].
Qed.

Lemma X15_witness :
  let st := state_of None ["1"; "Ann"; "Lee"; "x"; "12"; "ann@x.org"; "6"] [] in
  (length (stdin st) < recursion_margin)%nat /\
  forallb valid_contact (records (snd (init (J := python_json) st))) = true /\
  forallb valid_contact (records (snd (main (J := python_json) st))) = true /\
  records (snd (main (J := python_json) st))
    = [mkContact "Ann" "Lee" "12" "ann@x.org"].
Proof.
  intros st.
  assert (Hinit : forallb valid_contact
                    (records (snd (init (J := python_json) st))) = true)
    by reflexivity.
  assert (Hshort : (length (stdin st) < recursion_margin)%nat)
    by (unfold recursion_margin; simpl; lia).
  split; [exact Hshort |]. split; [exact Hinit |].
  split; [exact (proj2 (X15_session_keeps_valid_store (J := python_json) st
                          Hshort) Hinit) |].
  vm_compute. reflexivity.
Defined.

(** ** The file follows the store *)

Lemma init_consistent (st : state) :
  (file st = None \/
   exists cs, file st = Some (Json.dumps (Json.JArr (map Contact_dict cs)))) ->
  fst (init (J := python_json) st) = Ok tt /\
  consistent (J := python_json) (snd (init (J := python_json) st)).
Proof.
  intros [Hnone | [cs Hsome]]; unfold init, bind, modify.
  - rewrite (load_contacts_absent (J := python_json) (set_contacts [] st) Hnone).
    split; [reflexivity |]. unfold consistent. simpl. rewrite Hnone. reflexivity.
  - destruct (load_contacts_records (J := python_json) _ _ cs
                (set_contacts [] st) Hsome (FileFacts.load_dumps_contacts cs)
                (Contacts_of_list_dicts cs))
      as (st' & Hrun & Hrec & _ & Hf & _).
    rewrite Hrun. split; [reflexivity |].
    unfold consistent. simpl. rewrite Hf. simpl. rewrite Hsome, Hrec.
    reflexivity.
Qed.

Lemma restart_loads (st : state) (lines : list string) :
  consistent (J := python_json) st ->
  fst (init (J := python_json) (restarted st lines)) = Ok tt /\
  records (snd (init (J := python_json) (restarted st lines))) = records st.
Proof.
  unfold consistent. intros Hcons. unfold init, bind, modify.
  destruct (file st) as [text |] eqn:Hfile.
  - destruct (load_contacts_records (J := python_json) text
                (Json.JArr (map Contact_dict (records st))) (records st)
                (set_contacts [] (restarted st lines)))
      as (st' & Hrun & Hrec & _).
    + simpl. exact Hfile.
    + rewrite Hcons. apply FileFacts.load_dumps_contacts.
    + apply Contacts_of_list_dicts.
    + rewrite Hrun. split; [reflexivity | exact Hrec].
  - rewrite (load_contacts_absent (J := python_json)
               (set_contacts [] (restarted st lines)) Hfile).
    split; [reflexivity |]. unfold records. rewrite Hcons. reflexivity.
Qed.

(** X16: the file follows the store across a session, on an input of
    fewer lines than the interpreter allows nested calls.  When [main]
    starts with no file, or on a file that holds the text of some list of
    records as [save_contacts] writes it, then however the session goes
    and ends, the file and the store agree at the end (no file and an
    empty store, or a file holding the text of the store), and a new
    process started on the file left behind loads, without an exception,
    exactly the records the session ended with, in the same order. *)
Theorem X16_file_follows_store (st : state) :
  (length (stdin st) < recursion_margin)%nat ->
  (file st = None \/
   exists cs, file st = Some (Json.dumps (Json.JArr (map Contact_dict cs)))) ->
  let st' := snd (main (J := python_json) st) in
  consistent (J := python_json) st' /\
  forall lines,
    fst (init (J := python_json) (restarted st' lines)) = Ok tt /\
    records (snd (init (J := python_json) (restarted st' lines))) = records st'.
Proof.
  intros _ Hfile st'.
  assert (Hcons : consistent (J := python_json) st').
  { apply (main_invariant (J := python_json) (consistent (J := python_json))).
    - apply store_step_consistent.
    - apply (init_consistent st Hfile). }
  split; [exact Hcons |]. intros lines. apply restart_loads. exact Hcons.
Qed.

Lemma X16_witness :
  let st := state_of None ["1"; "Ann"; "Lee"; "12"; "ann@x.org";
                           "4"; "ann"; "n"] [] in
  let st' := snd (main (J := python_json) st) in
  (length (stdin st) < recursion_margin)%nat /\
  (file st = None \/
   exists cs, file st = Some (Json.dumps (Json.JArr (map Contact_dict cs)))) /\
  fst (main (J := python_json) st) = Raise EOFError /\
  records st' = [mkContact "Ann" "Lee" "12" "ann@x.org"] /\
  records (snd (init (J := python_json) (restarted st' ["6"]))) = records st'.
Proof.
  intros st st'.
  assert (Hfile : file st = None \/
                  exists cs, file st
                    = Some (Json.dumps (Json.JArr (map Contact_dict cs))))
    by (left; reflexivity).
  assert (Hshort : (length (stdin st) < recursion_margin)%nat)
    by (unfold recursion_margin; simpl; lia).
  split; [exact Hshort |]. split; [exact Hfile |].
  split; [vm_compute; reflexivity |]. split; [vm_compute; reflexivity |].
  exact (proj2 (proj2 (X16_file_follows_store st Hshort Hfile) ["6"])).
Defined.

(** ** Without a file *)

Section NoFile.
Context {J : JsonLib}.

Lemma display_contacts_total (st : state) :
  exists e, display_contacts st = (Ok tt, printed [e] st).
Proof.
  unfold display_contacts, bind, get.
  destruct (contacts st); eexists; reflexivity.
Qed.

Lemma on_existing_file_absent (prompt : string) (method : string -> M unit)
    (st : state) :
  file st = None ->
  on_existing_file prompt method st = (Ok tt, printed [no_file_message] st).
Proof.
  intros Hfile. unfold on_existing_file, file_exists, bind, get, ret.
  rewrite Hfile. reflexivity.
Qed.

Lemma main_round_read (again : M unit) (line : string) (rest : list string)
    (st : state) :
  stdin st = line :: rest ->
  main_round again st =
  on_choice (PyStr.strip line) again (set_stdin rest (printed menu_events st)).
Proof.
  intros Hin. unfold main_round.
  rewrite (bind_ok _ _ _ _ _ (menu_run st)).
  unfold bind at 1, read_choice, bind, read_line. simpl. rewrite Hin.
  reflexivity.
Qed.

Lemma main_round_eof (again : M unit) (st : state) :
  stdin st = [] ->
  main_round again st = (Raise EOFError, printed menu_events st).
Proof.
  intros Hin. unfold main_round.
  rewrite (bind_ok _ _ _ _ _ (menu_run st)).
  unfold bind, read_choice, bind, read_line. simpl. rewrite Hin. reflexivity.
Qed.

Lemma main_loop_without_file (fuel : nat) :
  forall st,
    file st = None ->
    Forall (fun l => PyStr.strip l <> "1") (stdin st) ->
    same_store st (snd (main_loop fuel st)).
Proof.
  induction fuel as [| fuel IH]; intros st Hfile Hlines;
    [apply same_store_refl |].
  simpl. destruct (stdin st) as [| line rest] eqn:Hin.
  { rewrite (main_round_eof _ st Hin). repeat split. }
  rewrite (main_round_read _ line rest st Hin).
  inversion Hlines as [| x xs Hline Hrest]; subst x xs.
  set (st_r := set_stdin rest (printed menu_events st)).
  assert (Hs : same_store st st_r) by (repeat split).
  assert (Hnext : forall events,
            same_store st (snd (main_loop fuel (printed events st_r)))).
  { intros events. eapply same_store_trans; [| apply IH].
    - repeat split.
    - exact Hfile.
    - exact Hrest. }
  unfold on_choice.
  destruct (String.eqb_spec (PyStr.strip line) "1") as [H1 | _];
    [contradiction |].
  destruct (String.eqb _ "2").
  { rewrite (bind_ok _ _ _ _ _ (eq_refl : print _ st_r = (Ok tt, printed [_] st_r))).
    destruct (display_contacts_total (printed
      [Plain (String Json.LF "Displaying all contacts:")] st_r)) as [e He].
    rewrite (bind_ok _ _ _ _ _ He), printed_printed. apply Hnext. }
  destruct (String.eqb _ "3").
  { rewrite (bind_ok _ _ _ _ _ (on_existing_file_absent _ _ st_r Hfile)).
    apply Hnext. }
  destruct (String.eqb _ "4").
  { rewrite (bind_ok _ _ _ _ _ (on_existing_file_absent _ _ st_r Hfile)).
    apply Hnext. }
  destruct (String.eqb _ "5").
  { rewrite (bind_ok _ _ _ _ _ (on_existing_file_absent _ _ st_r Hfile)).
    apply Hnext. }
  destruct (String.eqb _ "6"); [repeat split |].
  rewrite (bind_ok _ _ _ _ _ (eq_refl : print _ st_r = (Ok tt, printed [_] st_r))).
  apply Hnext.
Qed.

End NoFile.

(** X17: a session without a file.  When [main] starts with no file and
    no line typed is the choice 1 (once stripped), then at the end there
    is still no file and the store is empty, however the session goes:
    the choices 3, 4 and 5 are answered by the message asking for a
    contact first, without a query being read, and nothing else writes
    the file. *)
Theorem X17_session_without_file {J : JsonLib} (st : state) :
  file st = None ->
  Forall (fun l => PyStr.strip l <> "1") (stdin st) ->
  file (snd (main st)) = None /\
  contacts (snd (main st)) = [] /\
  heap (snd (main st)) = heap st.
Proof.
  intros Hfile Hlines. rewrite main_unfold.
  assert (Hinit : init st = (Ok tt, set_contacts [] (set_contacts [] st))).
  { unfold init, bind at 1, modify.
    rewrite (load_contacts_absent (set_contacts [] st) Hfile). reflexivity. }
  rewrite Hinit.
  set (st0 := set_contacts [] (set_contacts [] st)).
  destruct (main_loop_without_file (S (length (stdin st0))) st0 Hfile Hlines)
    as (Hh & Hc & Hf).
  rewrite Hh, Hc, Hf. auto.
Qed.

Lemma X17_witness :
  let st := state_of None ["3"; " 5"; "x"; "2"; "4"] [] in
  file st = None /\
  Forall (fun l => PyStr.strip l <> "1") (stdin st) /\
  file (snd (main (J := python_json) st)) = None /\
  contacts (snd (main (J := python_json) st)) = [] /\
  stdin (snd (main (J := python_json) st)) = [].
Proof.
  intros st.
  assert (Hfile : file st = None) by reflexivity.
  assert (Hlines : Forall (fun l => PyStr.strip l <> "1") (stdin st))
    by (repeat constructor; vm_compute; discriminate).
  destruct (X17_session_without_file (J := python_json) st Hfile Hlines)
    as (Hf & Hc & _).
  split; [exact Hfile |]. split; [exact Hlines |]. split; [exact Hf |].
  split; [exact Hc |]. vm_compute. reflexivity.
Defined.

(** ** After a file that is not JSON *)

(** X18: adding after a file on which [json.load] raises
    [JSONDecodeError], as it does on a text that is not JSON such as
    [[1].  The manager created on such a file starts with an empty store,
    the warning being printed; the first record added then makes the
    store and the file hold this one record: the content that could not
    be read is written over.  (Nothing is said here of a file on which
    [json.load] raises another exception: the manager is not created.) *)
Theorem X18_add_after_unreadable_file {J : JsonLib} (text f l p e : string)
    (st : state) :
  file st = Some text ->
  json_loads text = Raise JSONDecodeError ->
  let run := (init ;; add_contact (Some f) (Some l) (Some p) (Some e)) st in
  fst run = Ok tt /\
  records (snd run) = [mkContact f l p e] /\
  file (snd run)
    = Some (json_dumps (Json.JArr [Contact_dict (mkContact f l p e)])) /\
  stdout (snd run)
    = stdout st ++ [Colored "Error reading the contacts file." "red";
                    added_message].
Proof.
  intros Hfile Hparse. cbv zeta.
  assert (Hinit : init st =
            (Ok tt,
             set_contacts []
               (printed [Colored "Error reading the contacts file." "red"]
                        (set_contacts [] st)))).
  { unfold init, bind at 1, modify.
    rewrite (load_contacts_undecodable text (set_contacts [] st) Hfile Hparse).
    reflexivity. }
  rewrite (bind_ok _ _ _ _ _ Hinit).
  set (st0 := set_contacts [] _).
  assert (Hwf : well_formed st0).
  { split; [constructor | intros x Hx; inversion Hx]. }
  destruct (append_contact_exact f l p e st0 Hwf)
    as (st' & Hrun & Hrec & Hsync & _ & Hout).
  assert (Hadd : add_contact (Some f) (Some l) (Some p) (Some e) st0
                 = (Ok tt, st')).
  { unfold add_contact, given_or_asked.
    rewrite <- Hrun. reflexivity. }
  rewrite Hadd. cbn [fst snd].
  split; [reflexivity |]. split; [exact Hrec |].
  split.
  - unfold in_sync in Hsync. rewrite Hsync, Hrec. reflexivity.
  - rewrite Hout. simpl. rewrite <- List.app_assoc. reflexivity.
Qed.

Lemma X18_witness :
  let st := state_of (Some "[1") [] [] in
  file st = Some "[1" /\
  json_loads (JsonLib := python_json) "[1" = Raise JSONDecodeError /\
  records (snd ((init (J := python_json) ;;
                 add_contact (J := python_json) (Some "John") (Some "Doe")
                   (Some "+15551234") (Some "john@x.com")) st)) = [john].
Proof.
  intros st.
  assert (Hfile : file st = Some "[1") by reflexivity.
  assert (Hparse : json_loads (JsonLib := python_json) "[1"
                   = Raise JSONDecodeError) by reflexivity.
  split; [exact Hfile |]. split; [exact Hparse |].
  exact (proj1 (proj2 (X18_add_after_unreadable_file (J := python_json)
                         "[1" "John" "Doe" "+15551234" "john@x.com" st
                         Hfile Hparse))).
Defined.

(** ** Searching from the menu *)

Section MenuSearch.
Context {J : JsonLib}.

Lemma on_choice_5 (again : M unit) :
  on_choice "5" again =
  (on_existing_file search_prompt
     (fun query => search_contact query true ;; ret tt) ;; again).
Proof. reflexivity. Qed.

Lemma search_display_run (q : string) (st : state) :
  search_contact q true st =
  (Ok (List.filter (fun l => matches_query (PyStr.lower q) (deref st l))
                   (contacts st)),
   printed
     [results_event st
        (List.filter (fun l => matches_query (PyStr.lower q) (deref st l))
                     (contacts st))] st).
Proof.
  unfold search_contact, bind at 1, get.
  destruct (List.filter _ (contacts st)); reflexivity.
Qed.

Lemma on_existing_file_search (text line : string) (rest : list string)
    (st : state) :
  file st = Some text ->
  stdin st = line :: rest ->
  on_existing_file search_prompt
    (fun query => search_contact query true ;; ret tt) st =
  (Ok tt,
   printed
     [Prompt search_prompt;
      results_event st
        (List.filter
           (fun l => matches_query (PyStr.lower (PyStr.strip line)) (deref st l))
           (contacts st))]
     (set_stdin rest st)).
Proof.
  intros Hfile Hin. unfold on_existing_file, file_exists.
  unfold bind at 1. unfold bind at 1, get, ret. rewrite Hfile.
  unfold ask. unfold bind at 1. unfold bind at 1, emit at 1, modify at 1.
  unfold bind at 1, read_line at 1. cbn [stdin set_stdout]. rewrite Hin.
  unfold ret at 1. cbv beta iota.
  unfold bind at 1. rewrite search_display_run.
  unfold printed, set_stdout, set_stdin, deref. simpl.
  rewrite <- !List.app_assoc. reflexivity.
Qed.

End MenuSearch.

(** X12: the choice 5 of the menu.  One round of the loop of [main]
    that reads the choice 5 (white space around it aside) goes back to
    the menu without touching the store.  When the file exists, the next
    line is read as the query and stripped, and what is printed is the
    menu, the prompt and either the table of the records the query
    matches, in the order of the store, or the message that nothing was
    found.  When the file does not exist, no query is read: the message
    asking for a contact first is printed and the next line is left for
    the menu. *)
Theorem X12_menu_search {J : JsonLib} (again : M unit)
    (choice query_line : string) (rest : list string) (st : state) :
  stdin st = choice :: query_line :: rest ->
  PyStr.strip choice = "5" ->
  let results :=
    List.filter
      (fun l => matches_query (PyStr.lower (PyStr.strip query_line))
                              (deref st l))
      (contacts st) in
  (forall text,
     file st = Some text ->
     main_round again st =
     again (printed (menu_events
                     ++ [Prompt search_prompt; results_event st results])
                    (set_stdin rest st))) /\
  (file st = None ->
   main_round again st =
   again (printed (menu_events ++ [no_file_message])
                  (set_stdin (query_line :: rest) st))).
Proof.
  intros Hin Hchoice results.
  rewrite (main_round_read again choice (query_line :: rest) st Hin), Hchoice.
  rewrite on_choice_5. split.
  - intros text Hfile.
    rewrite (bind_ok _ _ _ _ _
               (on_existing_file_search text query_line rest
                  (set_stdin (query_line :: rest) (printed menu_events st))
                  Hfile eq_refl)).
    f_equal. unfold printed, set_stdout, set_stdin, results, results_event,
      deref. simpl. rewrite <- !List.app_assoc. reflexivity.
  - intros Hfile.
    rewrite (bind_ok _ _ _ _ _
               (on_existing_file_absent _ _
                  (set_stdin (query_line :: rest) (printed menu_events st))
                  Hfile)).
    f_equal. unfold printed, set_stdout, set_stdin. simpl.
    rewrite <- !List.app_assoc. reflexivity.
Qed.

Lemma X12_witness :
  let st := state_of (Some "[]") [" 5 "; " DOE "; "6"] [jane_a; jane_b; john] in
  let none := state_of None [" 5 "; " DOE "; "6"] [] in
  stdin st = [" 5 "; " DOE "; "6"] /\
  PyStr.strip " 5 " = "5" /\
  file st = Some "[]" /\
  main_round (J := python_json) (ret tt) st =
  (Ok tt,
   printed (menu_events
            ++ [Prompt search_prompt;
                Table table_headers [table_row jane_b; table_row john]])
           (set_stdin ["6"] st)) /\
  file none = None /\
  main_round (J := python_json) (ret tt) none =
  (Ok tt,
   printed (menu_events ++ [no_file_message]) (set_stdin [" DOE "; "6"] none)).
Proof.
  intros st none.
  assert (Hin : stdin st = [" 5 "; " DOE "; "6"]) by reflexivity.
  assert (Hchoice : PyStr.strip " 5 " = "5") by reflexivity.
  assert (Hfile : file st = Some "[]") by reflexivity.
  assert (Hnone : file none = None) by reflexivity.
  split; [exact Hin |]. split; [exact Hchoice |]. split; [exact Hfile |].
  split.
  - exact (proj1 (X12_menu_search (J := python_json) (ret tt) " 5 " " DOE "
                    ["6"] st Hin Hchoice) "[]" Hfile).
  - split; [exact Hnone |].
    exact (proj2 (X12_menu_search (J := python_json) (ret tt) " 5 " " DOE "
                    ["6"] none eq_refl Hchoice) Hnone).
Defined.

(** ** The text written is plain ASCII *)

(** X20: the text [save_contacts] writes is plain ASCII.  Whatever the
    records of the store hold, white space, quotes, control characters
    and characters above U+007F included, [save_contacts] returns normally
    and every character of the text it writes is a printable ASCII
    character or a newline: what is not is written as an escape. *)
Theorem X20_saved_text_is_plain_ascii (st : state) :
  fst (save_contacts (J := python_json) st) = Ok tt /\
  exists text,
    file (snd (save_contacts (J := python_json) st)) = Some text /\
    Forall (fun c => c = Json.LF \/ (32 <= PyStr.code c <= 126)%N)
           (list_ascii_of_string text).
Proof.
  split; [reflexivity |]. eexists. split; [reflexivity |].
  pose proof (PlainFacts.plain_dumps_contacts (records st)) as Hplain.
  unfold plain_text in Hplain. rewrite forallb_forall in Hplain.
  apply List.Forall_forall. intros c Hc. specialize (Hplain c Hc).
  unfold plain_char, PyStr.in_range in Hplain.
  apply orb_true_iff in Hplain as [Hlf | Hrange].
  - left. apply N.eqb_eq in Hlf. unfold PyStr.code in Hlf.
    rewrite <- (ascii_N_embedding c), Hlf. reflexivity.
  - right. apply andb_true_iff in Hrange as [Hlo Hhi].
    apply N.leb_le in Hlo, Hhi. lia.
Qed.

(** ** Adding, then searching *)

Lemma prefix_refl (s : string) : String.prefix s s = true.
Proof.
  induction s as [| c s IH]; simpl; [reflexivity |].
  destruct (ascii_dec c c) as [_ | Hne]; [exact IH | congruence].
Qed.

Lemma contains_refl (s : string) : PyStr.contains s s = true.
Proof.
  destruct s as [| a s]; [reflexivity |].
  cbn [PyStr.contains]. rewrite prefix_refl. reflexivity.
Qed.

Lemma matches_query_own_field (q : string) (c : Contact) :
  PyStr.lower q = PyStr.lower (first_name c) \/
  PyStr.lower q = PyStr.lower (last_name c) \/
  PyStr.lower q = PyStr.lower (email c) \/
  PyStr.lower q = phone_number c ->
  matches_query (PyStr.lower q) c = true.
Proof.
  unfold matches_query. intros [-> | [-> | [-> | ->]]];
    rewrite contains_refl, ?orb_true_r; reflexivity.
Qed.

(** X21: a record just added is found.  When a record has been appended
    to the store, as [add_contact] does, a search for its first name, its
    last name or its email, in any letter case, or for its phone number
    when lower-casing leaves it as it is, returns a list that holds the
    new object, whose fields are those of the record. *)
Theorem X21_added_contact_is_found (c : Contact) (q : string)
    (st st' : state) :
  appended c st st' ->
  PyStr.lower q = PyStr.lower (first_name c) \/
  PyStr.lower q = PyStr.lower (last_name c) \/
  PyStr.lower q = PyStr.lower (email c) \/
  PyStr.lower q = phone_number c ->
  exists l ls,
    search_contact q false st' = (Ok ls, st') /\
    In l ls /\
    deref st' l = c /\
    contacts st' = contacts st ++ [l].
Proof.
  intros (l & Hnew & Hlist & Hheap) Hq.
  exists l. eexists. split; [apply search_contact_quiet |].
  assert (Hderef : deref st' l = c).
  { unfold deref. rewrite Hheap. apply lookup_total_insert_eq. }
  split.
  - apply filter_In. split.
    + rewrite Hlist. apply in_or_app. right. left. reflexivity.
    + rewrite Hderef. apply matches_query_own_field. exact Hq.
  - split; [exact Hderef | exact Hlist].
Qed.

Lemma X21_witness :
  exists st',
    add_contact (J := python_json) (Some "John") (Some "Doe")
      (Some "+15551234") (Some "john@x.com") (state_of None [] [jane_a])
      = (Ok tt, st') /\
    appended john (state_of None [] [jane_a]) st' /\
    PyStr.lower "JOHN" = PyStr.lower (first_name john) /\
    exists l ls,
      search_contact "JOHN" false st' = (Ok ls, st') /\
      In l ls /\ deref st' l = john.
Proof.
  destruct (append_contact_run (J := python_json) "John" "Doe" "+15551234"
              "john@x.com" (state_of None [] [jane_a]))
    as (st' & Hrun & Happ).
  exists st'. split; [exact Hrun |]. split; [exact Happ |].
  split; [reflexivity |].
  destruct (X21_added_contact_is_found john "JOHN" _ st' Happ
              (or_introl eq_refl)) as (l & ls & Hsearch & Hin & Hderef & _).
  exists l, ls. auto.
Defined.
